(** * Job orchestration and caching engine: storage layer, retention
      cleanup and the per-job workflow of [process_job].

    The development embeds
    - [database/postgres_models.py]: the three tables and the
      [JobManager], [CacheManager] and [CleanupManager] statements,
    - [scripts/cleanup_old_data_postgres.py]: [cleanup_data_folders] and
      [run_cleanup],
    - [orchestrator/job_processor_postgres.py]: [process_job] and its
      helpers,
    and states the properties of the specification over these definitions.

    Tables are lists of rows; an [UPDATE ... WHERE] maps over the rows that
    satisfy the condition and a [DELETE ... WHERE] filters them out.
    Timestamps are integers (microseconds); [CURRENT_TIMESTAMP] and
    [datetime.now()] are passed to each statement as arguments. *)

From Stdlib Require Import ZArith Lia Sorted.
From stdpp Require Import gmap strings list pretty.

Local Open Scope Z_scope.

(** ** Python and SQL primitives *)

(** [timedelta(days=d)] in microseconds. *)
Definition timedelta_days (d : Z) : Z := d * 86400000000.

(** The range of Python's [datetime]: the years 1 to 9999, here in
    microseconds from 1970-01-01, and of [timedelta]: 999999999 days either
    way.  Outside it the constructor or the subtraction raises
    [OverflowError]. *)
Definition datetime_min : Z := -62135596800000000.
Definition datetime_max : Z := 253402300799999999.

Definition datetime_in_range (t : Z) : Prop := datetime_min <= t <= datetime_max.

Definition timedelta_in_range (days : Z) : Prop := -999999999 <= days <= 999999999.

(** [datetime.now() - timedelta(days=retention_days)] returns. *)
Definition cutoff_in_range (retention_days py_now : Z) : Prop :=
  timedelta_in_range retention_days
  /\ datetime_in_range (py_now - timedelta_days retention_days).

(** Truth value of an [Optional[str]]: [None] and the empty string are
    false. *)
Definition truthy (s : option string) : bool :=
  match s with
  | Some s => negb (String.eqb s "")
  | None => false
  end.

(** [status IN ('completed', 'failed')] *)
Definition is_terminal (status : string) : bool :=
  String.eqb status "completed" || String.eqb status "failed".

(** The integer nearest to [a / b], ties away from zero: the assignment
    cast of a [numeric] quotient to an [INTEGER] column. *)
Definition round_half_away (a b : Z) : Z :=
  Z.sgn a * Z.sgn b * ((2 * Z.abs a + Z.abs b) / (2 * Z.abs b)).

(** [(completed_steps * 100.0) / NULLIF(total_steps, 0)], stored in the
    [INTEGER] column [progress_percentage]. *)
Definition progress_expr (completed_steps total_steps : Z) : option Z :=
  if total_steps =? 0 then None
  else Some (round_half_away (completed_steps * 100) total_steps).

(** ** The persisted schema *)

Module Job.
Record row := mk {
  job_id : string;
  client_name : string;
  client_email : string;
  status : string;
  progress_percentage : option Z;
  current_step : option string;
  total_steps : Z;
  completed_steps : Z;
  error_message : option string;
  created_at : Z;
  updated_at : Z;
  started_at : option Z;
  completed_at : option Z;
  data_folder : option string;
  metadata : gmap string string
}.
End Job.

Module Site.
Record row := mk {
  id : Z;
  url : string;
  dealership_name : string;
  last_scraped_at : Z;
  inventory_path : option string;
  tools_path : option string;
  vehicle_count : Z;
  tools_count : Z;
  status : string;
  error_message : option string;
  cache_valid_until : Z
}.
End Site.

Module Competitor.
Record row := mk {
  id : Z;
  job_id : string;
  competitor_url : string;
  competitor_name : string;
  status : string;
  inventory_path : option string;
  tools_path : option string;
  error_message : option string;
  scraped_at : option Z
}.
End Competitor.

(** The three tables and the two [SERIAL] sequences. *)
Record database := mk_database {
  jobs : list Job.row;
  scraped_sites : list Site.row;
  scraped_sites_id_seq : Z;
  job_competitors : list Competitor.row;
  job_competitors_id_seq : Z
}.

Definition with_jobs (js : list Job.row) (d : database) : database :=
  mk_database js (scraped_sites d) (scraped_sites_id_seq d)
    (job_competitors d) (job_competitors_id_seq d).

Definition with_job_competitors (cs : list Competitor.row) (d : database) : database :=
  mk_database (jobs d) (scraped_sites d) (scraped_sites_id_seq d)
    cs (job_competitors_id_seq d).

(** [SELECT * FROM jobs WHERE job_id = %s] followed by [fetchone]. *)
Definition select_job (job_id : string) (d : database) : option Job.row :=
  List.find (fun r => String.eqb (Job.job_id r) job_id) (jobs d).

(** [SELECT * FROM job_competitors WHERE job_id = %s] *)
Definition select_competitors (job_id : string) (d : database) : list Competitor.row :=
  List.filter (fun r => String.eqb (Competitor.job_id r) job_id) (job_competitors d).

(** ** JobManager *)

Definition new_competitor (id : Z) (job_id : string) (comp : string * string)
  : Competitor.row :=
  Competitor.mk id job_id (fst comp) (snd comp) "pending" None None None None.

(** The [for comp in competitor_urls] inserts of [create_job]; a competitor
    is a pair (url, name). *)
Fixpoint insert_competitors (job_id : string) (competitor_urls : list (string * string))
    (seq : Z) (cs : list Competitor.row) : list Competitor.row * Z :=
  match competitor_urls with
  | [] => (cs, seq)
  | comp :: rest =>
      insert_competitors job_id rest (seq + 1)
        (cs ++ [new_competitor (seq + 1) job_id comp])
  end.

(** [JobManager.create_job]; [None] is the primary-key violation raised by
    the [INSERT] when [job_id] is already present. *)
Definition create_job (now : Z) (job_id client_name client_email : string)
    (competitor_urls : list (string * string)) (data_folder : string)
    (metadata : gmap string string) (d : database) : option database :=
  let total_steps := 2 + Z.of_nat (length competitor_urls) + 2 in
  match select_job job_id d with
  | Some _ => None
  | None =>
      let j := Job.mk job_id client_name client_email "queued" (Some 0) None
                 total_steps 0 None now now None None (Some data_folder) metadata in
      let '(cs, seq) := insert_competitors job_id competitor_urls
                          (job_competitors_id_seq d) (job_competitors d) in
      Some (mk_database (jobs d ++ [j]) (scraped_sites d) (scraped_sites_id_seq d) cs seq)
  end.

(** [JobManager.get_job]: the job row and its competitor rows. *)
Definition get_job (job_id : string) (d : database)
  : option (Job.row * list Competitor.row) :=
  match select_job job_id d with
  | None => None
  | Some j => Some (j, select_competitors job_id d)
  end.

(** The [SET] list built by [update_status], applied to one row. *)
Definition set_status (now : Z) (status : string)
    (current_step error_message : option string) (r : Job.row) : Job.row :=
  Job.mk (Job.job_id r) (Job.client_name r) (Job.client_email r)
    status
    (Job.progress_percentage r)
    (if truthy current_step then current_step else Job.current_step r)
    (Job.total_steps r) (Job.completed_steps r)
    (if truthy error_message then error_message else Job.error_message r)
    (Job.created_at r)
    now
    (if String.eqb status "processing" && truthy current_step
     then Some (default now (Job.started_at r)) else Job.started_at r)
    (if is_terminal status then Some now else Job.completed_at r)
    (Job.data_folder r) (Job.metadata r).

(** [JobManager.update_status] *)
Definition update_status (now : Z) (job_id status : string)
    (current_step error_message : option string) (d : database) : database :=
  with_jobs
    (List.map (fun r => if String.eqb (Job.job_id r) job_id
                        then set_status now status current_step error_message r
                        else r) (jobs d)) d.

(** The [SET] list of [update_progress] on one row.  The right-hand sides
    of an SQL [UPDATE] read the row as it was before the statement, so the
    [completed_steps] inside the percentage is the stored one. *)
Definition set_progress (now : Z) (completed_steps : Z) (r : Job.row) : Job.row :=
  Job.mk (Job.job_id r) (Job.client_name r) (Job.client_email r)
    (Job.status r)
    (progress_expr (Job.completed_steps r) (Job.total_steps r))
    (Job.current_step r)
    (Job.total_steps r)
    completed_steps
    (Job.error_message r) (Job.created_at r)
    now
    (Job.started_at r) (Job.completed_at r) (Job.data_folder r) (Job.metadata r).

(** [JobManager.update_progress] *)
Definition update_progress (now : Z) (job_id : string) (completed_steps : Z)
    (d : database) : database :=
  with_jobs
    (List.map (fun r => if String.eqb (Job.job_id r) job_id
                        then set_progress now completed_steps r else r) (jobs d)) d.

(** The [SET] list of [update_competitor_status] on one row. *)
Definition set_competitor_status (now : Z) (status : string)
    (inventory_path tools_path error_message : option string)
    (r : Competitor.row) : Competitor.row :=
  Competitor.mk (Competitor.id r) (Competitor.job_id r)
    (Competitor.competitor_url r) (Competitor.competitor_name r)
    status
    (match inventory_path with Some p => Some p | None => Competitor.inventory_path r end)
    (match tools_path with Some p => Some p | None => Competitor.tools_path r end)
    error_message
    (if String.eqb status "completed" then Some now else Competitor.scraped_at r).

(** [JobManager.update_competitor_status].  The position of a row in the
    list stands for nothing in the table: a [SELECT] without [ORDER BY]
    may return the rows in another order after an [UPDATE]. *)
Definition update_competitor_status (now : Z) (job_id competitor_url status : string)
    (inventory_path tools_path error_message : option string)
    (d : database) : database :=
  with_job_competitors
    (List.map (fun r => if String.eqb (Competitor.job_id r) job_id
                           && String.eqb (Competitor.competitor_url r) competitor_url
                        then set_competitor_status now status inventory_path tools_path
                               error_message r
                        else r) (job_competitors d)) d.

(** [JobManager.get_queued_jobs]: queued rows, oldest first (stable
    insertion into an ordered prefix), cut at [limit]. *)
Fixpoint insert_by_created (r : Job.row) (l : list Job.row) : list Job.row :=
  match l with
  | [] => [r]
  | x :: l' => if Job.created_at r <? Job.created_at x then r :: l
               else x :: insert_by_created r l'
  end.

Definition get_queued_jobs (limit : nat) (d : database) : list Job.row :=
  take limit
    (List.fold_left (fun acc r => insert_by_created r acc)
       (List.filter (fun r => String.eqb (Job.status r) "queued") (jobs d)) []).

(** ** CacheManager *)

(** The [WHERE] clause of [get_cached_scrape]. *)
Definition cache_usable (now : Z) (url : string) (r : Site.row) : bool :=
  String.eqb (Site.url r) url
  && (now <? Site.cache_valid_until r)
  && String.eqb (Site.status r) "success".

(** [CacheManager.get_cached_scrape] *)
Definition get_cached_scrape (now : Z) (url : string) (d : database) : option Site.row :=
  List.find (cache_usable now url) (scraped_sites d).

(** The [DO UPDATE SET] list of [save_scrape] on the conflicting row. *)
Definition overwrite_site (now : Z) (dealership_name : string)
    (inventory_path tools_path : string) (vehicle_count tools_count : Z)
    (status : string) (error_message : option string) (cache_valid_until : Z)
    (r : Site.row) : Site.row :=
  Site.mk (Site.id r) (Site.url r) dealership_name now
    (Some inventory_path) (Some tools_path) vehicle_count tools_count
    status error_message cache_valid_until.

(** [CacheManager.save_scrape]: [py_now] is [datetime.now()], [now] is the
    statement's [CURRENT_TIMESTAMP]. *)
Definition save_scrape (cache_ttl_days : Z) (py_now now : Z) (url dealership_name : string)
    (inventory_path tools_path : string) (vehicle_count tools_count : Z)
    (status : string) (error_message : option string) (d : database) : database :=
  let cache_valid_until := py_now + timedelta_days cache_ttl_days in
  let seq := scraped_sites_id_seq d + 1 in
  let sites :=
    if existsb (fun r => String.eqb (Site.url r) url) (scraped_sites d) then
      List.map (fun r => if String.eqb (Site.url r) url
                         then overwrite_site now dealership_name inventory_path tools_path
                                vehicle_count tools_count status error_message
                                cache_valid_until r
                         else r) (scraped_sites d)
    else
      scraped_sites d ++
        [Site.mk seq url dealership_name now (Some inventory_path) (Some tools_path)
           vehicle_count tools_count status error_message cache_valid_until] in
  mk_database (jobs d) sites seq (job_competitors d) (job_competitors_id_seq d).

(** The rows with [cache_valid_until < CURRENT_TIMESTAMP]. *)
Definition expired (now : Z) (r : Site.row) : bool := Site.cache_valid_until r <? now.

(** [CacheManager.cleanup_expired]: the row count and the new state. *)
Definition cleanup_expired (now : Z) (d : database) : nat * database :=
  (length (List.filter (expired now) (scraped_sites d)),
   mk_database (jobs d) (List.filter (fun r => negb (expired now r)) (scraped_sites d))
     (scraped_sites_id_seq d) (job_competitors d) (job_competitors_id_seq d)).

(** ** CleanupManager *)

(** [created_at < %s AND status IN ('completed', 'failed')] *)
Definition old_job (cutoff_date : Z) (r : Job.row) : bool :=
  (Job.created_at r <? cutoff_date) && is_terminal (Job.status r).

(** [CleanupManager.cleanup_old_jobs]: returns the count, the selected
    (job_id, data_folder) pairs and the new state.  Deleting a job deletes
    its competitor rows ([ON DELETE CASCADE]).  This is the call where
    [cutoff_in_range retention_days py_now] holds; outside it the first
    statement, [datetime.now() - timedelta(days=self.retention_days)],
    raises and the function does not return. *)
Definition cleanup_old_jobs (retention_days : Z) (py_now : Z) (d : database)
  : (nat * list (string * option string)) * database :=
  let cutoff_date := py_now - timedelta_days retention_days in
  let old_jobs := List.map (fun r => (Job.job_id r, Job.data_folder r))
                    (List.filter (old_job cutoff_date) (jobs d)) in
  match old_jobs with
  | [] => ((0%nat, []), d)
  | _ =>
      let kept := List.filter (fun r => negb (old_job cutoff_date r)) (jobs d) in
      let cs := List.filter
                  (fun c => negb (existsb (fun j => String.eqb (fst j) (Competitor.job_id c))
                                    old_jobs))
                  (job_competitors d) in
      ((length old_jobs, old_jobs),
       mk_database kept (scraped_sites d) (scraped_sites_id_seq d)
         cs (job_competitors_id_seq d))
  end.

(** ** The cleanup script *)

(** The state the script works on: the database and the directories that
    exist on disk. *)
Record world := mk_world {
  db : database;
  folders : gset string
}.

(** [path] itself or a path below it. *)
Definition under (path p : string) : bool :=
  String.eqb p path || String.prefix (path +:+ "/") p.

(** [shutil.rmtree(path)] *)
Definition rmtree (path : string) (fs : gset string) : gset string :=
  filter (fun p => under path p = false) fs.

(** What the script prints (sizes left out). *)
Inductive line :=
  | FolderNotFound (data_folder : string)
  | WouldDeleteFolder (data_folder : string)
  | DeletedFolder (data_folder : string)
  | ErrorDeletingFolder (data_folder : string)
  | NoOldJobs
  | WouldDeleteJobs (count : nat)
  | DeletedJobs (count : nat)
  | DeletedFolders (deleted total : nat)
  | NoExpiredCache
  | WouldDeleteCache (count : nat)
  | DeletedCache (count : nat)
  | DryRunComplete
  | CleanupComplete.

Section Cleanup.

(** [rmtree_raises p]: whether [shutil.rmtree(p)] raises (the script
    catches it and prints an error). *)
Variable rmtree_raises : string -> bool.

(** [cleanup_data_folders]: the deleted count, the lines printed and the
    directories left. *)
Fixpoint cleanup_data_folders (old_jobs : list (string * option string))
    (dry_run : bool) (fs : gset string) : nat * list line * gset string :=
  match old_jobs with
  | [] => (0%nat, [], fs)
  | job :: rest =>
      match snd job with
      | Some data_folder =>
          if String.eqb data_folder "" then cleanup_data_folders rest dry_run fs
          else if negb (bool_decide (data_folder ∈ fs)) then
            let '(n, out, fs') := cleanup_data_folders rest dry_run fs in
            (n, FolderNotFound data_folder :: out, fs')
          else if dry_run then
            let '(n, out, fs') := cleanup_data_folders rest dry_run fs in
            (n, WouldDeleteFolder data_folder :: out, fs')
          else if rmtree_raises data_folder then
            let '(n, out, fs') := cleanup_data_folders rest dry_run fs in
            (n, ErrorDeletingFolder data_folder :: out, fs')
          else
            let '(n, out, fs') :=
              cleanup_data_folders rest dry_run (rmtree data_folder fs) in
            (S n, DeletedFolder data_folder :: out, fs')
      | None => cleanup_data_folders rest dry_run fs
      end
  end.

(** [run_cleanup]: the lines printed and the state left.  [py_now] is
    [datetime.now()] inside [cleanup_old_jobs]; [now] is the
    [CURRENT_TIMESTAMP] of the cache statement.  This is the [try] block
    running to its end, after which the script returns True; when
    [cleanup_old_jobs] raises (outside [cutoff_in_range]) the handler
    prints the error and the script returns False without sweeping the
    cache. *)
Definition run_cleanup (retention_days : Z) (dry_run cache_only jobs_only : bool)
    (py_now now : Z) (w : world) : list line * world :=
  let '(out1, w1) :=
    if negb cache_only then
      let '((count, old_jobs), d1) := cleanup_old_jobs retention_days py_now (db w) in
      if Nat.eqb count 0 then ([NoOldJobs], mk_world d1 (folders w))
      else
        let head := if dry_run then WouldDeleteJobs count else DeletedJobs count in
        match old_jobs with
        | [] => ([head], mk_world d1 (folders w))
        | _ =>
            let '(deleted, out, fs) := cleanup_data_folders old_jobs dry_run (folders w) in
            (head :: out ++
               (if negb dry_run then [DeletedFolders deleted (length old_jobs)] else []),
             mk_world d1 fs)
        end
    else ([], w) in
  let '(out2, w2) :=
    if negb jobs_only then
      if dry_run then
        let count := length (List.filter (expired now) (scraped_sites (db w1))) in
        ([if Nat.eqb count 0 then NoExpiredCache else WouldDeleteCache count], w1)
      else
        let '(count, d2) := cleanup_expired now (db w1) in
        ([if Nat.eqb count 0 then NoExpiredCache else DeletedCache count],
         mk_world d2 (folders w1))
    else ([], w1) in
  (out1 ++ out2 ++ [if dry_run then DryRunComplete else CleanupComplete], w2).

End Cleanup.

(** ** The orchestrator: configuration, collaborators and run state *)

(** The constructor arguments of [JobProcessorPostgres]. *)
Record config := mk_config {
  cache_ttl_days : Z;
  scraper_max_retries : Z;
  email_max_retries : Z
}.

(** What [subprocess.run] of the scraper leaves behind. *)
Record scraper_run := mk_scraper_run {
  scraper_raised : option string;        (* [subprocess.run] itself raised (timeout) *)
  scraper_returncode : Z;
  inventory_written : bool;              (* output/inventory.json exists *)
  tools_written : bool;                  (* output/tools.json exists *)
  scraper_loaded : string + (Z * Z)      (* moving and loading the two files: error or counts *)
}.

(** What [subprocess.run] of the analysis leaves behind. *)
Record analysis_run := mk_analysis_run {
  analysis_raised : option string;
  analysis_returncode : Z;
  email_txt_written : bool;
  email_txt_move : option string         (* [shutil.move] raised *)
}.

(** Everything outside the process: clocks, the file system and the three
    external collaborators.  Each is a function of the point of the run at
    which it is consulted, so that an outcome may change between attempts. *)
Record collaborators := mk_collaborators {
  current_timestamp : nat -> Z;          (* of the n-th statement *)
  datetime_now : nat -> Z;
  time_time : nat -> string;             (* [int(time.time())], printed *)
  makedirs : string -> option string;    (* [os.makedirs]: the error raised, if any *)
  key_error : string -> list string -> string;   (* [str(KeyError(...))] *)
  save_json : string -> string -> option string; (* open, write, [json.loads] *)
  path_exists : nat -> string -> bool;   (* [os.path.exists] while competitor i is resolved *)
  scraper_process : nat -> Z -> string -> scraper_run;  (* competitor i, attempt, url *)
  abspath : string -> string;
  analysis_process : list string -> analysis_run;
  read_file : Z -> string -> string + string;    (* attempt, path: error or text *)
  send_single_email : Z -> string -> string -> string -> bool
}.

Inductive phase := SavingClientData | ScrapingCompetitors | RunningAnalysis
                 | SendingEmail | Finalizing.

(** What a run does that can be seen from outside. *)
Inductive event :=
  | Step (p : phase)                               (* the "[Step ...]" banner of a phase *)
  | CacheLookup (i : nat) (url : string)
  | ScrapeAttempt (i : nat) (attempt : Z) (url : string)
  | Sleep (seconds : Z)
  | AnalysisRun (files : list string)
  | EmailAttempt (attempt : Z)
  | JobRow (r : option Job.row).                   (* the job row after a status or progress update *)

(** The state threaded through a run: the database, the number of
    statements executed so far and the events so far, oldest first. *)
Record run := mk_run {
  run_db : database;
  statements : nat;
  trace : list event
}.

(** The outcome of a block of [process_job]: it falls through with a value,
    executes [return b], or raises. *)
Inductive outcome (A : Type) :=
  | Ok (a : A)
  | Return (b : bool)
  | Raise (msg : string).
Arguments Ok {A} a.
Arguments Return {A} b.
Arguments Raise {A} msg.

Definition M (A : Type) : Type := run -> outcome A * run.

Definition ret {A} (a : A) : M A := fun r => (Ok a, r).

Definition bind {A B} (m : M A) (k : A -> M B) : M B :=
  fun r => match m r with
           | (Ok a, r') => k a r'
           | (Return b, r') => (Return b, r')
           | (Raise e, r') => (Raise e, r')
           end.

Declare Scope orch_scope.
Delimit Scope orch_scope with orch.
Notation "x <- m ;; k" := (bind m (fun x => k))
  (at level 100, m at next level, right associativity) : orch_scope.
Notation "m ;; k" := (bind m (fun _ => k))
  (at level 100, right associativity) : orch_scope.
Local Open Scope orch_scope.

Definition return_ {A} (b : bool) : M A := fun r => (Return b, r).
Definition raise {A} (msg : string) : M A := fun r => (Raise msg, r).

Definition emit (e : event) : M unit :=
  fun r => (Ok tt, mk_run (run_db r) (statements r) (trace r ++ [e])).

(** The three attributes every competitor record of [competitors_data]
    carries besides the name. *)
Record competitor_data := mk_competitor_data {
  name : string;
  url : string;
  inventory_path : string;
  tools_path : string
}.

(** The local variables of [process_job] that live across phases. *)
Record locals := mk_locals {
  completed_steps : Z;
  failed_competitors : Z;
  competitors_data : list competitor_data
}.

Definition step_done (l : locals) : locals :=
  mk_locals (completed_steps l + 1) (failed_competitors l) (competitors_data l).

Definition competitor_failed (l : locals) : locals :=
  mk_locals (completed_steps l) (failed_competitors l + 1) (competitors_data l).

Definition competitor_done (c : competitor_data) (l : locals) : locals :=
  mk_locals (completed_steps l) (failed_competitors l) (competitors_data l ++ [c]).

(** The old-to-new metadata key translation at the head of [process_job]. *)
Definition convert_legacy (metadata : gmap string string) : gmap string string :=
  match metadata !! "inventory_json", metadata !! "csv1_json" with
  | None, Some csv1 =>
      <["tools_json" := default "[]" (metadata !! "csv2_json")]>
        (<["inventory_json" := csv1]> metadata)
  | _, _ => metadata
  end.

Section Orchestrator.

Variable cfg : config.
Variable E : collaborators.

(** One statement on the database, stamped with the two clocks. *)
Definition statement (f : Z -> Z -> database -> database) : M unit :=
  fun r => (Ok tt,
            mk_run (f (datetime_now E (statements r)) (current_timestamp E (statements r))
                      (run_db r))
                   (S (statements r)) (trace r)).

Definition query {A} (f : Z -> database -> A) : M A :=
  fun r => (Ok (f (current_timestamp E (statements r)) (run_db r)),
            mk_run (run_db r) (S (statements r)) (trace r)).

Definition observe (job_id : string) : M unit :=
  fun r => (Ok tt,
            mk_run (run_db r) (statements r)
              (trace r ++ [JobRow (select_job job_id (run_db r))])).

Definition now_str : M string := fun r => (Ok (time_time E (statements r)), r).

(** The [job_mgr] and [cache_mgr] calls of the processor. *)
Definition job_mgr_update_status (job_id status : string)
    (current_step error_message : option string) : M unit :=
  statement (fun _ now => update_status now job_id status current_step error_message) ;;
  observe job_id.

Definition job_mgr_update_progress (job_id : string) (n : Z) : M unit :=
  statement (fun _ now => update_progress now job_id n) ;;
  observe job_id.

Definition job_mgr_update_competitor_status (job_id competitor_url status : string)
    (inv tools error_message : option string) : M unit :=
  statement (fun _ now =>
    update_competitor_status now job_id competitor_url status inv tools error_message).

Definition cache_mgr_save_scrape (u dealership : string) (inv tools : string)
    (veh tcount : Z) : M unit :=
  statement (fun py_now now =>
    save_scrape (cache_ttl_days cfg) py_now now u dealership inv tools veh tcount
      "success" None).

(** [update_status(job_id, 'failed', error_message=...)] followed by
    [return False]. *)
Definition fail_job {A} (job_id error_msg : string) : M A :=
  job_mgr_update_status job_id "failed" None (Some error_msg) ;;
  return_ false.

(** [completed_steps += 1] and [update_progress]. *)
Definition advance (job_id : string) (l : locals) : M locals :=
  let l' := step_done l in
  job_mgr_update_progress job_id (completed_steps l') ;;
  ret l'.

(** *** [_run_scraper] *)
Definition _run_scraper (i : nat) (attempt : Z) (u comp_name data_folder : string)
    (timestamp : string) : string + (string * string * Z * Z) :=
  let output_prefix := comp_name +:+ "_" +:+ timestamp in
  let result := scraper_process E i attempt u in
  match scraper_raised result with
  | Some e => inl e
  | None =>
      if negb (scraper_returncode result =? 0) then
        inl ("Scraper failed with exit code " +:+ pretty (scraper_returncode result)
             +:+ ". See output above.")
      else if negb (inventory_written result) then
        inl "Inventory file not found: output/inventory.json. Scraper may have failed silently."
      else if negb (tools_written result) then
        inl "Tools file not found: output/tools.json"
      else
        match scraper_loaded result with
        | inl e => inl e
        | inr (veh_count, tools_count) =>
            inr (data_folder +:+ "/" +:+ output_prefix +:+ "_inventory.json",
                 data_folder +:+ "/" +:+ output_prefix +:+ "_tools.json",
                 veh_count, tools_count)
        end
  end.

(** *** [_run_analysis]: the argument list and the outcome *)
Definition analysis_files (client_inventory client_tools : string)
    (cd : list competitor_data) : list string :=
  [abspath E client_inventory; abspath E client_tools]
  ++ List.flat_map (fun c => [abspath E (inventory_path c); abspath E (tools_path c)]) cd.

Definition _run_analysis (client_inventory client_tools : string)
    (cd : list competitor_data) : option string :=
  let result := analysis_process E (analysis_files client_inventory client_tools cd) in
  match analysis_raised result with
  | Some e => Some e
  | None =>
      if negb (analysis_returncode result =? 0) then
        Some ("Analysis failed with exit code " +:+ pretty (analysis_returncode result)
              +:+ ". See output above.")
      else if email_txt_written result then email_txt_move result
      else Some "Analysis did not generate email.txt"
  end.

(** *** [_send_email]: [None] when the mail went out *)
Definition _send_email (attempt : Z) (to_email client_name analysis_file : string)
  : option string :=
  match read_file E attempt analysis_file with
  | inl e => Some e
  | inr analysis_text =>
      if send_single_email E attempt to_email
           ("Market Analysis Report for " +:+ client_name) analysis_text
      then None
      else Some "Email send failed"
  end.

(** *** Phase 1: the client's two JSON payloads *)
Definition save_client_data (job_id client_name data_folder : string)
    (metadata : gmap string string) (l : locals) : M (string * string * locals) :=
  emit (Step SavingClientData) ;;
  job_mgr_update_status job_id "processing" (Some "Saving client data") None ;;
  t1 <- now_str ;;
  t2 <- now_str ;;
  let client_inventory_path :=
    data_folder +:+ "/client_" +:+ client_name +:+ "_" +:+ t1 +:+ "_inventory.json" in
  let client_tools_path :=
    data_folder +:+ "/client_" +:+ client_name +:+ "_" +:+ t2 +:+ "_tools.json" in
  match match metadata !! "inventory_json" with
        | None => Some (key_error E "inventory_json" (fst <$> map_to_list metadata))
        | Some text => save_json E client_inventory_path text
        end with
  | Some e => fail_job job_id ("Inventory data error: " +:+ e)
  | None =>
      match match metadata !! "tools_json" with
            | None => Some (key_error E "tools_json" [])
            | Some text => save_json E client_tools_path text
            end with
      | Some e => fail_job job_id ("Tools data error: " +:+ e)
      | None =>
          l' <- advance job_id l ;;
          ret (client_inventory_path, client_tools_path, l')
      end
  end.

(** *** Phase 2: one competitor *)

(** [os.path.exists(cached['inventory_path']) and
    os.path.exists(cached['tools_path'])]; a NULL path makes
    [os.path.exists] raise. *)
Definition cached_files (i : nat) (cached : Site.row) : M (option (string * string)) :=
  match Site.inventory_path cached with
  | None => raise "stat: path should be string, bytes, os.PathLike or integer, not NoneType"
  | Some inv =>
      if path_exists E i inv then
        match Site.tools_path cached with
        | None => raise "stat: path should be string, bytes, os.PathLike or integer, not NoneType"
        | Some tools => if path_exists E i tools then ret (Some (inv, tools)) else ret None
        end
      else ret None
  end.

(** The cache check at the head of the loop body: the cached paths when
    the cache answers and both files are still there. *)
Definition cache_hit (i : nat) (comp_url : string) : M (option (string * string)) :=
  emit (CacheLookup i comp_url) ;;
  cached <- query (fun now => get_cached_scrape now comp_url) ;;
  match cached with
  | Some c => cached_files i c
  | None => ret None
  end.

(** [for attempt in range(1, self.scraper_max_retries + 1)]: [remaining]
    counts the iterations left, [attempt] is the loop variable. *)
Fixpoint scrape_attempts (job_id data_folder : string) (i : nat) (comp_url comp_name : string)
    (remaining : nat) (attempt : Z) : M (option competitor_data) :=
  match remaining with
  | O => ret None
  | S remaining' =>
      emit (ScrapeAttempt i attempt comp_url) ;;
      timestamp <- now_str ;;
      match _run_scraper i attempt comp_url comp_name data_folder timestamp with
      | inr (inv_path, tools_path, veh_count, tools_count) =>
          cache_mgr_save_scrape comp_url comp_name inv_path tools_path veh_count tools_count ;;
          job_mgr_update_competitor_status job_id comp_url "completed"
            (Some inv_path) (Some tools_path) None ;;
          ret (Some (mk_competitor_data comp_name comp_url inv_path tools_path))
      | inl _ =>
          (if attempt <? scraper_max_retries cfg then emit (Sleep 2) else ret tt) ;;
          scrape_attempts job_id data_folder i comp_url comp_name remaining' (attempt + 1)
      end
  end.

(** [for remaining_comp in job['competitors'][i:]] *)
Fixpoint abort_remaining (job_id : string) (remaining : list Competitor.row) : M unit :=
  match remaining with
  | [] => ret tt
  | remaining_comp :: rest =>
      job_mgr_update_competitor_status job_id (Competitor.competitor_url remaining_comp)
        "aborted" None None (Some "Job aborted due to multiple failures") ;;
      abort_remaining job_id rest
  end.

(** The body of [for i, comp in enumerate(job['competitors'], 1)]. *)
Definition resolve_competitor (job_id data_folder : string)
    (competitors : list Competitor.row) (i : nat) (comp : Competitor.row)
    (l : locals) : M locals :=
  let comp_url := Competitor.competitor_url comp in
  let comp_name := Competitor.competitor_name comp in
  hit <- cache_hit i comp_url ;;
  match hit with
  | Some (inv, tools) =>
      job_mgr_update_competitor_status job_id comp_url "completed"
        (Some inv) (Some tools) None ;;
      advance job_id (competitor_done (mk_competitor_data comp_name comp_url inv tools) l)
  | None =>
      scraped <- scrape_attempts job_id data_folder i comp_url comp_name
                   (Z.to_nat (scraper_max_retries cfg)) 1 ;;
      l' <- match scraped with
            | Some c => ret (competitor_done c l)
            | None =>
                let l1 := competitor_failed l in
                job_mgr_update_competitor_status job_id comp_url "failed" None None
                  (Some ("Scraping failed after " +:+ pretty (scraper_max_retries cfg)
                         +:+ " retries")) ;;
                if 2 <=? failed_competitors l1 then
                  abort_remaining job_id (drop i competitors) ;;
                  fail_job job_id
                    ("Aborting: " +:+ pretty (failed_competitors l1)
                     +:+ " competitors failed (threshold: 2)")
                else ret l1
            end ;;
      advance job_id l'
  end.

(** The competitor loop: [todo] is what [enumerate] has not yet yielded,
    [i] the index of its head. *)
Fixpoint scrape_competitors (job_id data_folder : string)
    (competitors : list Competitor.row) (i : nat) (todo : list Competitor.row)
    (l : locals) : M locals :=
  match todo with
  | [] => ret l
  | comp :: todo' =>
      l' <- resolve_competitor job_id data_folder competitors i comp l ;;
      scrape_competitors job_id data_folder competitors (S i) todo' l'
  end.

(** *** Phase 3: analysis *)
Definition run_analysis (job_id data_folder client_inventory client_tools : string)
    (l : locals) : M (string * locals) :=
  emit (Step RunningAnalysis) ;;
  job_mgr_update_status job_id "processing" (Some "Running analysis") None ;;
  t <- now_str ;;
  let analysis_output := data_folder +:+ "/analysis_" +:+ t +:+ ".txt" in
  emit (AnalysisRun (analysis_files client_inventory client_tools (competitors_data l))) ;;
  match _run_analysis client_inventory client_tools (competitors_data l) with
  | Some e => fail_job job_id ("Analysis failed: " +:+ e)
  | None =>
      l' <- advance job_id l ;;
      ret (analysis_output, l')
  end.

(** *** Phase 4: email *)

(** [for attempt in range(1, self.email_max_retries + 1)]; the result is
    [email_success]. *)
Fixpoint email_attempts (client_email client_name analysis_output : string)
    (remaining : nat) (attempt : Z) : M bool :=
  match remaining with
  | O => ret false
  | S remaining' =>
      emit (EmailAttempt attempt) ;;
      match _send_email attempt client_email client_name analysis_output with
      | None => ret true
      | Some _ =>
          (if attempt <? email_max_retries cfg then emit (Sleep 5) else ret tt) ;;
          email_attempts client_email client_name analysis_output remaining' (attempt + 1)
      end
  end.

Definition send_email (job_id client_email client_name analysis_output : string)
    (l : locals) : M locals :=
  emit (Step SendingEmail) ;;
  job_mgr_update_status job_id "processing" (Some "Sending email") None ;;
  email_success <- email_attempts client_email client_name analysis_output
                     (Z.to_nat (email_max_retries cfg)) 1 ;;
  if email_success then advance job_id l
  else fail_job job_id
         ("Email failed after " +:+ pretty (email_max_retries cfg) +:+ " retries").

(** *** Phase 5: finalize *)
Definition finalize (job_id : string) (l : locals) : M bool :=
  emit (Step Finalizing) ;;
  job_mgr_update_status job_id "completed" (Some "Completed") None ;;
  advance job_id l ;;
  return_ true.

(** Phases 4 and 5 in sequence, as [process_job] runs them. *)
Definition email_then_finalize (job_id client_email client_name analysis_output : string)
    (l : locals) : M bool :=
  l' <- send_email job_id client_email client_name analysis_output l ;;
  finalize job_id l'.

(** Phase 2 and everything after it. *)
Definition from_competitors (job_id data_folder client_email client_name : string)
    (competitors : list Competitor.row) (client_inventory client_tools : string)
    (l : locals) : M bool :=
  emit (Step ScrapingCompetitors) ;;
  l2 <- scrape_competitors job_id data_folder competitors 1%nat competitors l ;;
  match competitors_data l2 with
  | [] => fail_job job_id "No competitors scraped successfully"
  | _ =>
      analysed <- run_analysis job_id data_folder client_inventory client_tools l2 ;;
      email_then_finalize job_id client_email client_name (fst analysed) (snd analysed)
  end.

(** The [try] block of [process_job]. *)
Definition process_job_body (job_id : string) : M bool :=
  job <- query (fun _ => get_job job_id) ;;
  match job with
  | None => return_ false
  | Some (job, competitors) =>
      job_mgr_update_status job_id "processing" (Some "Starting") None ;;
      let client_name := Job.client_name job in
      let client_email := Job.client_email job in
      let metadata := convert_legacy (Job.metadata job) in
      data_folder <-
        (if truthy (Job.data_folder job) then ret (default "" (Job.data_folder job))
         else
           let data_folder := "data/jobs/" +:+ job_id in
           match makedirs E data_folder with
           | Some e => raise e
           | None => ret data_folder
           end) ;;
      saved <- save_client_data job_id client_name data_folder metadata
                 (mk_locals 0 0 []) ;;
      let '(client_inventory, client_tools, l1) := saved in
      from_competitors job_id data_folder client_email client_name competitors
        client_inventory client_tools l1
  end.

(** [process_job]: the body under its [except Exception] handler. *)
Definition process_job (job_id : string) (r : run) : bool * run :=
  match process_job_body job_id r with
  | (Ok b, r') => (b, r')
  | (Return b, r') => (b, r')
  | (Raise e, r') =>
      (false, snd (job_mgr_update_status job_id "failed" None
                     (Some ("Unexpected error: " +:+ e)) r'))
  end.

End Orchestrator.

(** ** Sequences of cache saves *)






(** ** Concrete jobs, tables and collaborators used in the examples *)

Module Sample.

Definition empty_db : database := mk_database [] [] 0 [] 0.

Definition payloads : gmap string string :=
  <["inventory_json" := "[]"]> (<["tools_json" := "[]"]> ∅).

(** A job row as [create_job] writes it, with a given status, age and
    step counters. *)
Definition job (job_id status : string) (created_at total done : Z) : Job.row :=
  Job.mk job_id "Acme Motors" "owner@acme.test" status (Some 0) None total done None
    created_at created_at None None (Some ("data/jobs/" +:+ job_id)) payloads.

Definition site (u status : string) (valid_until : Z) : Site.row :=
  Site.mk 1 u "Rival" 0 (Some "cache/inventory.json") (Some "cache/tools.json")
    12 3 status None valid_until.

(** One day, in microseconds. *)
Definition day : Z := 86400000000.

(** One completed job created at time 0, with one competitor row, and its
    folder on disk. *)
Definition old_world : world :=
  mk_world
    (mk_database [job "job_old" "completed" 0 5 5] [] 0
       [Competitor.mk 1 "job_old" "http://rival.test" "Rival" "completed"
          None None None None] 1)
    {["data/jobs/job_old"]}.

Definition scraper_ok : scraper_run := mk_scraper_run None 0 true true (inr (3, 2)).
Definition scraper_down : scraper_run := mk_scraper_run None 1 false false (inl "no output").
Definition analysis_ok : analysis_run := mk_analysis_run None 0 true None.

(** Collaborators that never fail, apart from the scraper and the mail
    service, which are given. *)
Definition world_of (scr : nat -> Z -> string -> scraper_run) (mail : Z -> bool)
  : collaborators :=
  mk_collaborators
    (fun n => 1000 + Z.of_nat n) (fun n => 1000 + Z.of_nat n) (fun n => pretty n)
    (fun _ => None) (fun k _ => k) (fun _ _ => None) (fun _ _ => true)
    scr (fun p => p) (fun _ => analysis_ok) (fun _ _ => inr "report")
    (fun attempt _ _ _ => mail attempt).

Definition defaults : config := mk_config 7 2 3.

Definition two_rivals : list (string * string) :=
  [("http://x.test", "X"); ("http://y.test", "Y")].

(** The database after submitting a job with the given competitors and
    metadata. *)
Definition submitted (competitors : list (string * string))
    (metadata : gmap string string) : database :=
  default empty_db
    (create_job 10 "job_1" "Acme Motors" "owner@acme.test" competitors
       "data/jobs/job_1" metadata empty_db).

Definition start (d : database) : run := mk_run d 0 [].

(** Every scrape succeeds; the mail goes out at the third attempt. *)
Definition smooth : collaborators :=
  world_of (fun _ _ _ => scraper_ok) (fun attempt => 3 <=? attempt).

(** Every scrape fails. *)
Definition scraper_offline : collaborators :=
  world_of (fun _ _ _ => scraper_down) (fun _ => true).



(** Three competitor rows of job_1, and the run of the loop over them
    when every scrape fails: the first row, then the cache check and the
    attempts of the second. *)
Definition row_x : Competitor.row :=
  Competitor.mk 1 "job_1" "http://x.test" "X" "pending" None None None None.
Definition row_y : Competitor.row :=
  Competitor.mk 2 "job_1" "http://y.test" "Y" "pending" None None None None.
Definition row_z : Competitor.row :=
  Competitor.mk 3 "job_1" "http://z.test" "Z" "pending" None None None None.

Definition three_rivals : list (string * string) :=
  two_rivals ++ [("http://z.test", "Z")].

Definition before_loop : run :=
  mk_run (submitted three_rivals payloads) 3 [].

Definition loop_start : run :=
  mk_run (run_db before_loop) (statements before_loop)
    (trace before_loop ++ [Step ScrapingCompetitors]).

Definition after_x : run :=
  snd (scrape_competitors defaults scraper_offline "job_1" "data/jobs/job_1"
         [row_x; row_y; row_z] 1 [row_x] (mk_locals 1 0 []) loop_start).

Definition after_lookup_y : run :=
  snd (cache_hit scraper_offline 2 "http://y.test" after_x).

Definition after_attempts_y : run :=
  snd (scrape_attempts defaults scraper_offline "job_1" "data/jobs/job_1" 2
         "http://y.test" "Y" 2 1 after_lookup_y).

End Sample.

(** ** Vocabulary for statements about runs *)

(** [r'] is reached from [r] without touching the jobs table and without
    a job-row observation. *)
Definition quiet (r r' : run) : Prop :=
  jobs (run_db r') = jobs (run_db r)
  /\ exists es, trace r' = trace r ++ es /\ Forall (fun e => forall row, e <> JobRow row) es.

(** A competitor row set to 'aborted' with the fixed reason. *)
Definition aborted (c : Competitor.row) : Prop :=
  Competitor.status c = "aborted"
  /\ Competitor.error_message c = Some "Job aborted due to multiple failures".

(** Every row of the job for [competitor_url] has the given status. *)
Definition marked (job_id competitor_url status : string) (d : database) : Prop :=
  forall c, c ∈ job_competitors d ->
    Competitor.job_id c = job_id -> Competitor.competitor_url c = competitor_url ->
    Competitor.status c = status.

(** The stored step count of the job. *)
Definition persisted_steps (job_id : string) (r : run) : option Z :=
  Job.completed_steps <$> select_job job_id (run_db r).

(** What an observer of the job row may see at any point. *)
Definition consistent (j : Job.row) : Prop :=
  Job.completed_steps j <= Job.total_steps j
  /\ (Job.completed_steps j = Job.total_steps j -> Job.status j = "completed")
  /\ (Job.status j = "completed" -> Job.total_steps j - 1 <= Job.completed_steps j).

Definition consistent_event (e : event) : Prop :=
  match e with
  | JobRow (Some j) => consistent j
  | _ => True
  end.

(** The claim of the specification about an observed row. *)
Definition complete_iff_completed (j : Job.row) : Prop :=
  Job.completed_steps j <= Job.total_steps j
  /\ (Job.completed_steps j = Job.total_steps j <-> Job.status j = "completed").

(** [r'] is [r] after one [update_progress] of the job, observed. *)
Definition progressed (E : collaborators) (job_id : string) (n : Z) (r r' : run) : Prop :=
  run_db r' = update_progress (current_timestamp E (statements r)) job_id n (run_db r)
  /\ trace r' = trace r ++ [JobRow (select_job job_id (run_db r'))].

(** [r'] is [r] after one [update_status] of the job, observed. *)
Definition status_set (E : collaborators) (job_id status : string)
    (current_step error_message : option string) (r r' : run) : Prop :=
  run_db r' = update_status (current_timestamp E (statements r)) job_id status
                current_step error_message (run_db r)
  /\ trace r' = trace r ++ [JobRow (select_job job_id (run_db r'))].

(** Every job row observed so far is consistent. *)
Definition tidy (r : run) : Prop := Forall consistent_event (trace r).

(** The state of a run between two steps of the workflow: the history is
    tidy, and the job row holds [c] completed steps out of [total], with
    [c] short of [total] and a status other than 'completed'. *)
Definition on_track (job_id : string) (total c : Z) (r : run) : Prop :=
  tidy r
  /\ c < total
  /\ exists j, select_job job_id (run_db r) = Some j
               /\ Job.total_steps j = total
               /\ Job.completed_steps j = c
               /\ Job.status j <> "completed".

(** The job rows observed along a trace, oldest first. *)
Definition observed (t : list event) : list Job.row :=
  omap (fun e => match e with JobRow (Some j) => Some j | _ => None end) t.

(** ** Vocabulary for the further properties *)

(** What [update_competitor_status] does to one row. *)
Definition competitor_updated (now : Z) (job_id competitor_url status : string)
    (inventory_path tools_path error_message : option string)
    (c c' : Competitor.row) : Prop :=
  if String.eqb (Competitor.job_id c) job_id
     && String.eqb (Competitor.competitor_url c) competitor_url
  then
    Competitor.id c' = Competitor.id c
    /\ Competitor.job_id c' = job_id
    /\ Competitor.competitor_url c' = competitor_url
    /\ Competitor.competitor_name c' = Competitor.competitor_name c
    /\ Competitor.status c' = status
    /\ Competitor.error_message c' = error_message
    /\ Competitor.inventory_path c'
       = match inventory_path with Some p => Some p | None => Competitor.inventory_path c end
    /\ Competitor.tools_path c'
       = match tools_path with Some p => Some p | None => Competitor.tools_path c end
    /\ Competitor.scraped_at c'
       = (if String.eqb status "completed" then Some now else Competitor.scraped_at c)
  else c' = c.

(** Oldest first. *)
Definition older_or_same (a b : Job.row) : Prop := Job.created_at a <= Job.created_at b.

(** The rows [create_job] inserts for a competitor list, given the last
    value of the id sequence. *)
Fixpoint new_rows (job_id : string) (competitor_urls : list (string * string)) (seq : Z)
  : list Competitor.row :=
  match competitor_urls with
  | [] => []
  | comp :: rest => new_competitor (seq + 1) job_id comp :: new_rows job_id rest (seq + 1)
  end.

(** The attempt number of a scrape event. *)
Definition attempt_number (e : event) : option Z :=
  match e with
  | ScrapeAttempt _ attempt _ => Some attempt
  | _ => None
  end.

(** The pauses in a list of events. *)
Definition pauses (es : list event) : list Z :=
  omap (fun e => match e with Sleep s => Some s | _ => None end) es.

(** A submitted job whose first competitor is already in the cache. *)
Module Warm.
Definition cached : Site.row := Sample.site "http://x.test" "success" 5000.

Definition db : database :=
  let d := Sample.submitted Sample.two_rivals Sample.payloads in
  mk_database (jobs d) [cached] 1 (job_competitors d) (job_competitors_id_seq d).
End Warm.

(** ** How a run leaves the jobs table *)

(** [after] is [before] with at most the rows of [job_id] rewritten: same
    ids in the same order, every other row identical. *)
Definition only_job (job_id : string) (before after : list Job.row) : Prop :=
  Forall2 (fun a b => Job.job_id b = Job.job_id a /\ (Job.job_id a <> job_id -> b = a))
    before after.

(** The last statement of the run set the job 'failed' with a non-empty
    message; before it only rows of the job had changed. *)
Definition failed_exit (job_id : string) (r r' : run) : Prop :=
  exists d1 now msg,
    msg <> ""
    /\ only_job job_id (jobs (run_db r)) (jobs d1)
    /\ run_db r' = update_status now job_id "failed" None (Some msg) d1.

(** The last two statements of the run set the job 'completed' and stored
    the final step count. *)
Definition completed_exit (job_id : string) (r r' : run) : Prop :=
  exists d1 now now' n,
    only_job job_id (jobs (run_db r)) (jobs d1)
    /\ run_db r' = update_progress now' job_id n
                     (update_status now job_id "completed" (Some "Completed") None d1).

(** How a block that is not the last one may leave: falling through or
    raising with only rows of the job changed, or returning False through a
    failed exit. *)
Definition exits {A} (job_id : string) (r : run) (res : outcome A * run) : Prop :=
  match res with
  | (Ok _, r') => only_job job_id (jobs (run_db r)) (jobs (run_db r'))
  | (Return b, r') => b = false /\ failed_exit job_id r r'
  | (Raise _, r') => only_job job_id (jobs (run_db r)) (jobs (run_db r'))
  end.

(** How the tail of [process_job] may leave: it never falls through; it
    returns True through a completed exit and False through a failed
    one. *)
Definition ends (job_id : string) (r : run) (res : outcome bool * run) : Prop :=
  match res with
  | (Ok _, _) => False
  | (Return b, r') => if b then completed_exit job_id r r' else failed_exit job_id r r'
  | (Raise _, r') => only_job job_id (jobs (run_db r)) (jobs (run_db r'))
  end.

(** ** Mail *)

(** Some attempt of the email phase, within the retry budget, got [True]
    from [send_single_email] for this recipient and client. *)
Definition mailed (cfg : config) (E : collaborators) (to_email client_name : string)
  : Prop :=
  exists attempt message,
    1 <= attempt <= email_max_retries cfg
    /\ send_single_email E attempt to_email
         ("Market Analysis Report for " +:+ client_name) message = true.

(** [send_single_email] of the notification module. *)
Module Mailgun.

(** The three environment variables the module reads. *)
Record settings := mk_settings {
  MAILGUN_API_URL : option string;
  FROM_EMAIL_ADDRESS : option string;
  MAILGUN_API_KEY : option string
}.

(** The arguments of the [requests.post] call. *)
Record request := mk_request {
  url : string;
  api_key : string;
  from : string;
  to : string;
  subject : string;
  text : string
}.

(** [post] is [requests.post]: the exception raised, or the status code of
    the response. *)
Definition send_single_email (env : settings) (post : request -> string + Z)
    (to_address subject message : string) : bool :=
  if negb (truthy (MAILGUN_API_URL env)) || negb (truthy (FROM_EMAIL_ADDRESS env)) then false
  else if negb (truthy (MAILGUN_API_KEY env)) then false
  else
    match post (mk_request (default "" (MAILGUN_API_URL env))
                  (default "" (MAILGUN_API_KEY env))
                  (default "" (FROM_EMAIL_ADDRESS env))
                  to_address subject message) with
    | inl _ => false
    | inr status_code => status_code =? 200
    end.

End Mailgun.

(** ** [submit_job] *)

(** What [submit_job] reads from outside. *)
Record submission := mk_submission {
  uuid4_hex : string;                  (* [uuid.uuid4().hex] *)
  submitted_time : string;             (* [int(time.time())], printed *)
  mkdir : string -> option string;     (* [Path(...).mkdir]: the error raised, if any *)
  now_isoformat : string;              (* [datetime.now().isoformat()] *)
  insert_timestamp : Z                 (* [CURRENT_TIMESTAMP] of the [INSERT] *)
}.

Inductive submit_error :=
  | MkdirError (e : string)
  | DuplicateJobId.

(** [JobProcessorPostgres.submit_job]: the new job id and the new state, or
    the exception that leaves the call. *)
Definition submit_job (s : submission) (client_name client_email : string)
    (inventory_csv_path tools_csv_path : string)
    (competitor_urls : list (string * string))
    (metadata : option (gmap string string)) (d : database)
  : submit_error + (string * database) :=
  let job_id := "job_" +:+ String.substring 0 12 (uuid4_hex s) +:+ "_" +:+ submitted_time s in
  let data_folder := "data/jobs/" +:+ job_id in
  match mkdir s data_folder with
  | Some e => inl (MkdirError e)
  | None =>
      let full_metadata :=
        <["submitted_at" := now_isoformat s]>
          (<["tools_csv" := tools_csv_path]>
             (<["inventory_csv" := inventory_csv_path]> (default ∅ metadata))) in
      match create_job (insert_timestamp s) job_id client_name client_email
              competitor_urls data_folder full_metadata d with
      | None => inl DuplicateJobId
      | Some d' => inr (job_id, d')
      end
  end.

Module Desk.

(** Mailgun configured, answering 200 to every request. *)
Definition configured : Mailgun.settings :=
  Mailgun.mk_settings (Some "https://api.mailgun.test/messages")
    (Some "reports@acme.test") (Some "key-1").

Definition accepting (attempt : Z) (q : Mailgun.request) : string + Z := inr 200.

(** Collaborators that never fail, mailing through Mailgun. *)
Definition through_mailgun : collaborators :=
  mk_collaborators
    (fun n => 1000 + Z.of_nat n) (fun n => 1000 + Z.of_nat n) (fun n => pretty n)
    (fun _ => None) (fun k _ => k) (fun _ _ => None) (fun _ _ => true)
    (fun _ _ _ => Sample.scraper_ok) (fun p => p) (fun _ => Sample.analysis_ok)
    (fun _ _ => inr "report")
    (fun attempt => Mailgun.send_single_email configured (accepting attempt)).

Definition ticket : submission :=
  mk_submission "0123456789abcdef0123456789abcdef" "1700000000" (fun _ => None)
    "2023-11-14T22:13:20" 10.

End Desk.

(** ** The worker *)

Definition timedelta_hours (h : Z) : Z := h * 3600000000.

(** POLL_INTERVAL_SECONDS and CLEANUP_RETENTION_DAYS. *)
Record worker_config := mk_worker_config {
  poll_interval : Z;
  cleanup_retention_days : Z
}.

(** What one pass of the loop reads from outside. *)
Record pass := mk_pass {
  checked_at : Z;                  (* [datetime.now()] at the top of the pass *)
  cleanup_py_now : Z;              (* [datetime.now()] inside [cleanup_old_jobs] *)
  cleanup_timestamp : Z;           (* [CURRENT_TIMESTAMP] of the cache statement *)
  cleaned_at : Z;                  (* [datetime.now()] after [run_cleanup] *)
  disk : gset string;              (* the directories on disk when the cleanup runs *)
  rmtree_raises : string -> bool;
  outside : collaborators          (* what [process_job] meets in this pass *)
}.

(** The loop's state: the database and [last_cleanup_time]. *)
Record worker := mk_worker {
  worker_db : database;
  last_cleanup_time : Z
}.

Inductive worker_event :=
  | DailyCleanup (out : list line)
  | JobFound (job_id : string) (success : bool)
  | PollSleep (seconds : Z).

(** The cleanup at the top of a pass, for a [run_cleanup] that returns
    True. *)
Definition daily_cleanup (wcfg : worker_config) (p : pass) (w : worker)
  : list worker_event * worker :=
  if timedelta_hours 24 <=? checked_at p - last_cleanup_time w then
    let '(out, w1) :=
      run_cleanup (rmtree_raises p) (cleanup_retention_days wcfg) false false false
        (cleanup_py_now p) (cleanup_timestamp p) (mk_world (worker_db w) (disk p)) in
    ([DailyCleanup out], mk_worker (db w1) (cleaned_at p))
  else ([], w).

(** One pass of the [while True] loop of [main]. *)
Definition worker_pass (cfg : config) (wcfg : worker_config) (p : pass) (w : worker)
  : list worker_event * worker :=
  let '(ev, w1) := daily_cleanup wcfg p w in
  match get_queued_jobs 1 (worker_db w1) with
  | job :: _ =>
      let '(success, r) :=
        process_job cfg (outside p) (Job.job_id job) (mk_run (worker_db w1) 0 []) in
      (ev ++ [JobFound (Job.job_id job) success],
       mk_worker (run_db r) (last_cleanup_time w1))
  | [] => (ev ++ [PollSleep (poll_interval wcfg)], w1)
  end.

(** The passes made until the interrupt, with no other writer on the
    database in between. *)
Fixpoint worker_loop (cfg : config) (wcfg : worker_config) (ps : list pass) (w : worker)
  : list worker_event * worker :=
  match ps with
  | [] => ([], w)
  | p :: rest =>
      let '(ev, w1) := worker_pass cfg wcfg p w in
      let '(evs, w2) := worker_loop cfg wcfg rest w1 in
      (ev ++ evs, w2)
  end.

(** [main]: [started_at] is the [datetime.now()] read before the loop. *)
Definition main (cfg : config) (wcfg : worker_config) (started_at : Z) (ps : list pass)
    (d : database) : list worker_event * worker :=
  worker_loop cfg wcfg ps (mk_worker d (started_at - timedelta_days 1)).

(** The rows with status 'queued', in table order. *)
Definition queue (d : database) : list Job.row :=
  List.filter (fun r => String.eqb (Job.status r) "queued") (jobs d).

(** The jobs the worker picked up, with the value [process_job] returned. *)
Definition found (events : list worker_event) : list (string * bool) :=
  omap (fun e => match e with
                 | JobFound job_id success => Some (job_id, success)
                 | _ => None
                 end) events.

(** The rows of a list that belong to none of the given jobs. *)
Definition without (ids : list string) (l : list Job.row) : list Job.row :=
  List.filter (fun r => negb (bool_decide (Job.job_id r ∈ ids))) l.

(** ** The two mail collaborators on one attempt *)

(** The report is read and [send_single_email] returns True for the
    client's address, the subject line and the report text. *)
Definition mail_accepted (E : collaborators) (attempt : Z)
    (to_email client_name analysis_file : string) : Prop :=
  exists analysis_text,
    read_file E attempt analysis_file = inr analysis_text
    /\ send_single_email E attempt to_email
         ("Market Analysis Report for " +:+ client_name) analysis_text = true.

(** The report cannot be read, or [send_single_email] returns False for
    it. *)
Definition mail_refused (E : collaborators) (attempt : Z)
    (to_email client_name analysis_file : string) : Prop :=
  match read_file E attempt analysis_file with
  | inl _ => True
  | inr analysis_text =>
      send_single_email E attempt to_email
        ("Market Analysis Report for " +:+ client_name) analysis_text = false
  end.
(** ** What the report covers *)












(** * Properties of the storage layer *)

Section Rows.

Context {A : Type} (key : A -> string).

(** Updating the rows with a given key by a key-preserving function
    commutes with looking that key up. *)
Lemma find_map_same_key (id : string) (g : A -> A) (l : list A) :
  (forall r, key (g r) = key r) ->
  List.find (fun r => String.eqb (key r) id)
    (List.map (fun r => if String.eqb (key r) id then g r else r) l)
  = g <$> List.find (fun r => String.eqb (key r) id) l.
Proof.
  intros Hg. induction l as [|x l IH]; simpl; [reflexivity|].
  destruct (String.eqb (key x) id) eqn:Hx; simpl.
  - rewrite Hg, Hx. reflexivity.
  - rewrite Hx. exact IH.
Qed.



End Rows.

(** ** JobManager *)

Lemma select_job_update_status now job_id status current_step error_message d :
  select_job job_id (update_status now job_id status current_step error_message d)
  = set_status now status current_step error_message <$> select_job job_id d.
Proof.
  unfold select_job, update_status; simpl.
  apply (find_map_same_key Job.job_id). reflexivity.
Qed.

Lemma select_job_update_progress now job_id n d :
  select_job job_id (update_progress now job_id n d)
  = set_progress now n <$> select_job job_id d.
Proof.
  unfold select_job, update_progress; simpl.
  apply (find_map_same_key Job.job_id). reflexivity.
Qed.

(** What [update_progress] stores: the supplied count, and a percentage
    computed from the count that was stored before. *)
Lemma update_progress_row now job_id n d j :
  select_job job_id d = Some j ->
  exists j', select_job job_id (update_progress now job_id n d) = Some j'
    /\ Job.completed_steps j' = n
    /\ Job.total_steps j' = Job.total_steps j
    /\ Job.status j' = Job.status j
    /\ Job.progress_percentage j' = progress_expr (Job.completed_steps j) (Job.total_steps j).
Proof.
  intros Hj. rewrite select_job_update_progress, Hj. simpl.
  eexists; split; [reflexivity|]. simpl. auto.
Qed.

(** C2, at a failing input: a job of five steps with none completed.  After
    [update_progress(job_id, 1)] the row holds [completed_steps = 1] but
    [progress_percentage = 0], the percentage of the previous count, where
    the supplied count gives 1*100/5 = 20. *)
Theorem update_progress_stale_percentage :
  let d := with_jobs [Sample.job "job_1" "processing" 0 5 0] Sample.empty_db in
  let d' := update_progress 50 "job_1" 1 d in
  Job.completed_steps <$> select_job "job_1" d' = Some 1
  /\ Job.progress_percentage <$> select_job "job_1" d' = Some (Some 0)
  /\ progress_expr 1 5 = Some 20
  /\ 1 * 100 / 5 = 20.
Proof. vm_compute. repeat split; reflexivity. Qed.

(** C6, as amended: [update_status] always stamps [updated_at]; with status
    'processing' and a non-empty [current_step] it fills a null
    [started_at]; without [current_step] it leaves [started_at] alone; no
    call overwrites a non-null [started_at]; with status 'completed' or
    'failed' it stamps [completed_at]. *)
Theorem update_status_timestamps now job_id status current_step error_message d j :
  select_job job_id d = Some j ->
  exists j',
    select_job job_id (update_status now job_id status current_step error_message d) = Some j'
    /\ Job.status j' = status
    /\ Job.updated_at j' = now
    /\ (status = "processing" -> truthy current_step = true ->
        Job.started_at j = None -> Job.started_at j' = Some now)
    /\ (truthy current_step = false -> Job.started_at j' = Job.started_at j)
    /\ (forall t, Job.started_at j = Some t -> Job.started_at j' = Some t)
    /\ (status = "completed" \/ status = "failed" -> Job.completed_at j' = Some now).
Proof.
  intros Hj. rewrite select_job_update_status, Hj. simpl.
  eexists; split; [reflexivity|]. simpl.
  split; [reflexivity|]. split; [reflexivity|].
  split; [|split; [|split]].
  - intros -> -> ->. reflexivity.
  - intros ->. rewrite andb_false_r. reflexivity.
  - intros t ->. destruct (_ && _); reflexivity.
  - intros [-> | ->]; reflexivity.
Qed.

Lemma update_status_timestamps_witness :
  exists j',
    select_job "job_1"
      (update_status 77 "job_1" "processing" (Some "Starting") None
         (Sample.submitted Sample.two_rivals Sample.payloads)) = Some j'
    /\ Job.updated_at j' = 77
    /\ Job.started_at j' = Some 77.
Proof.
  destruct (update_status_timestamps 77 "job_1" "processing" (Some "Starting") None
              (Sample.submitted Sample.two_rivals Sample.payloads)
              (Sample.job "job_1" "queued" 10 6 0) eq_refl)
    as (j' & Hsel & _ & Hup & Hstart & _).
  exists j'. split; [exact Hsel|]. split; [exact Hup|].
  apply Hstart; reflexivity.
Defined.

(** C6, as stated, fails: a call with status 'processing' that supplies no
    [current_step] leaves a null [started_at] null. *)
Lemma update_status_processing_without_step :
  let d := Sample.submitted Sample.two_rivals Sample.payloads in
  Job.started_at <$> select_job "job_1" d = Some None
  /\ Job.started_at <$> select_job "job_1" (update_status 77 "job_1" "processing" None None d)
     = Some None
  /\ Job.status <$> select_job "job_1" (update_status 77 "job_1" "processing" None None d)
     = Some "processing".
Proof. vm_compute. repeat split; reflexivity. Qed.

(** ** CacheManager *)

Lemma cache_usable_spec now u r :
  cache_usable now u r = true
  <-> Site.url r = u /\ now < Site.cache_valid_until r /\ Site.status r = "success".
Proof.
  unfold cache_usable. rewrite !andb_true_iff, Z.ltb_lt, !String.eqb_eq. tauto.
Qed.

(** C7: [get_cached_scrape] answers with a stored row exactly when some row
    for the url is still valid (strictly later than now) and successful; a
    row it answers with is such a row; a url whose rows have all expired is
    a miss whatever their status; and the answer is the same whatever
    directories exist on disk. *)
Theorem get_cached_scrape_hit_iff now u d :
  ((exists r, get_cached_scrape now u d = Some r)
   <-> (exists r, r ∈ scraped_sites d /\ Site.url r = u
                  /\ now < Site.cache_valid_until r /\ Site.status r = "success"))
  /\ (forall r, get_cached_scrape now u d = Some r ->
        r ∈ scraped_sites d /\ Site.url r = u
        /\ now < Site.cache_valid_until r /\ Site.status r = "success")
  /\ ((forall r, r ∈ scraped_sites d -> Site.url r = u -> Site.cache_valid_until r <= now) ->
      get_cached_scrape now u d = None)
  /\ (forall fs fs', get_cached_scrape now u (db (mk_world d fs))
                     = get_cached_scrape now u (db (mk_world d fs'))).
Proof.
  assert (Hsome : forall r, get_cached_scrape now u d = Some r ->
            r ∈ scraped_sites d /\ Site.url r = u
            /\ now < Site.cache_valid_until r /\ Site.status r = "success").
  { intros r Hr. apply List.find_some in Hr as [Hin Hu].
    apply cache_usable_spec in Hu. split; [apply list_elem_of_In, Hin | exact Hu]. }
  split; [split|split; [exact Hsome|split]].
  - intros [r Hr]. exists r. apply Hsome, Hr.
  - intros (r & Hin & Hr).
    destruct (get_cached_scrape now u d) as [r'|] eqn:Hget; [eauto|].
    exfalso. unfold get_cached_scrape in Hget.
    pose proof (List.find_none _ _ Hget r (proj1 (list_elem_of_In _ _) Hin)) as Hno.
    apply cache_usable_spec in Hr. congruence.
  - intros Hexp. destruct (get_cached_scrape now u d) as [r|] eqn:Hget; [|reflexivity].
    destruct (Hsome r eq_refl) as (Hin & Hu & Hlt & _).
    specialize (Hexp r Hin Hu). lia.
  - reflexivity.
Qed.

(** *** Upsert *)








(** * Retention cleanup *)

(** In a dry run [cleanup_data_folders] removes no directory. *)
Lemma cleanup_data_folders_dry_run rmtree_raises old_jobs fs :
  snd (cleanup_data_folders rmtree_raises old_jobs true fs) = fs.
Proof.
  induction old_jobs as [|job rest IH]; simpl; [reflexivity|].
  destruct (snd job) as [data_folder|]; [|exact IH].
  destruct (String.eqb data_folder ""); [exact IH|].
  destruct (negb _);
    destruct (cleanup_data_folders rmtree_raises rest true fs) as [[n out] fs'];
    exact IH.
Qed.

Lemma cleanup_old_jobs_keeps_cache retention_days py_now d :
  scraped_sites (snd (cleanup_old_jobs retention_days py_now d)) = scraped_sites d.
Proof.
  unfold cleanup_old_jobs. destruct (List.map _ _); reflexivity.
Qed.

(** A dry run leaves the directories and the cache table as they were. *)
Lemma run_cleanup_dry_run_keeps_folders_and_cache rmtree_raises retention_days
    cache_only jobs_only py_now now w :
  let w' := snd (run_cleanup rmtree_raises retention_days true cache_only jobs_only
                   py_now now w) in
  folders w' = folders w /\ scraped_sites (db w') = scraped_sites (db w).
Proof.
  unfold run_cleanup.
  pose proof (cleanup_old_jobs_keeps_cache retention_days py_now (db w)) as Hsites.
  destruct (cleanup_old_jobs retention_days py_now (db w)) as [[count old_jobs] d1].
  simpl in Hsites.
  pose proof (cleanup_data_folders_dry_run rmtree_raises old_jobs (folders w)) as Hfs.
  destruct (cleanup_data_folders rmtree_raises old_jobs true (folders w))
    as [[n out] fs'].
  simpl in Hfs. subst fs'.
  destruct cache_only, jobs_only, (Nat.eqb count 0), old_jobs; simpl;
    split; solve [reflexivity | exact Hsites].
Qed.

(** What a run of the job part selects does not depend on [dry_run]:
    both modes execute the same [cleanup_old_jobs]. *)
Lemma run_cleanup_jobs_left rmtree_raises retention_days dry_run jobs_only py_now now w :
  jobs (db (snd (run_cleanup rmtree_raises retention_days dry_run false jobs_only
                   py_now now w)))
  = jobs (snd (cleanup_old_jobs retention_days py_now (db w))).
Proof.
  unfold run_cleanup. simpl.
  destruct (cleanup_old_jobs retention_days py_now (db w)) as [[count old_jobs] d1].
  simpl. destruct (Nat.eqb count 0).
  - destruct jobs_only; [reflexivity|]. destruct dry_run; reflexivity.
  - destruct old_jobs as [|p old_jobs].
    + destruct jobs_only; [reflexivity|]. destruct dry_run; reflexivity.
    + destruct (cleanup_data_folders rmtree_raises (p :: old_jobs) dry_run (folders w))
        as [[n out] fs'].
      destruct jobs_only; [reflexivity|]. destruct dry_run; reflexivity.
Qed.

(** C1, at a failing input: one completed job created ten days before the
    run, with one competitor row and its folder on disk, retention of seven
    days.  The dry run announces one job and leaves the folder in place,
    but the job row and its competitor row are gone from the database. *)
Theorem dry_run_deletes_job_rows :
  let w := Sample.old_world in
  let result := run_cleanup (fun _ => false) 7 true false false
                  (10 * Sample.day) (10 * Sample.day) w in
  List.map Job.job_id (jobs (db w)) = ["job_old"]
  /\ fst result = [WouldDeleteJobs 1; WouldDeleteFolder "data/jobs/job_old";
                   NoExpiredCache; DryRunComplete]
  /\ jobs (db (snd result)) = []
  /\ job_competitors (db (snd result)) = []
  /\ folders (snd result) = folders w.
Proof. vm_compute. repeat split; reflexivity. Qed.

(** * The orchestrator *)

(** Symbolic execution of straight-line orchestrator code. *)
Ltac step :=
  cbn [bind ret return_ raise emit statement query observe now_str
       run_db statements trace
       job_mgr_update_status job_mgr_update_progress job_mgr_update_competitor_status
       cache_mgr_save_scrape fail_job advance fst snd].

Ltac flatten_trace := rewrite <- ?List.app_assoc; cbn [List.app].

Ltac in_list := apply list_elem_of_In; cbn [List.In]; tauto.

(** The job row after the statements of the email phase and of the finalize
    phase. *)
Ltac job_row H :=
  repeat (rewrite select_job_update_progress || rewrite select_job_update_status);
  rewrite H; cbn [fmap option_fmap option_map].

(** What [_send_email] makes of the two collaborators. *)
Lemma mail_accepted_sends E attempt to_email client_name analysis_file :
  mail_accepted E attempt to_email client_name analysis_file ->
  _send_email E attempt to_email client_name analysis_file = None.
Proof.
  intros (analysis_text & Hread & Hsent). unfold _send_email.
  rewrite Hread, Hsent. reflexivity.
Qed.

Lemma mail_refused_fails E attempt to_email client_name analysis_file :
  mail_refused E attempt to_email client_name analysis_file ->
  _send_email E attempt to_email client_name analysis_file <> None.
Proof.
  unfold mail_refused, _send_email.
  destruct (read_file E attempt analysis_file) as [e|analysis_text]; [discriminate|].
  intros ->. discriminate.
Qed.

(** C9: with a budget of three attempts, when the email collaborator fails
    on the first [k < 3] attempts (the report cannot be read, or
    [send_single_email] returns False) and succeeds on attempt [k + 1]
    (the report is read and [send_single_email] returns True for the
    client's address, the subject line and the report text), the run goes
    on to the finalize phase, the job ends 'completed' and [process_job]
    returns True; when all three attempts fail, the job is set to 'failed'
    with the message 'Email failed after 3 retries', the run returns
    False, and no phase other than the email phase has started. *)
Theorem email_phase_outcomes cfg E job_id client_email client_name analysis_output l r j :
  email_max_retries cfg = 3 ->
  select_job job_id (run_db r) = Some j ->
  (forall k, 0 <= k < 3 ->
     (forall a, 1 <= a <= k ->
        mail_refused E a client_email client_name analysis_output) ->
     mail_accepted E (k + 1) client_email client_name analysis_output ->
     exists r' j' es,
       email_then_finalize cfg E job_id client_email client_name analysis_output l r
       = (Return true, r')
       /\ select_job job_id (run_db r') = Some j'
       /\ Job.status j' = "completed"
       /\ Job.completed_steps j' = completed_steps l + 2
       /\ trace r' = trace r ++ es
       /\ EmailAttempt (k + 1) ∈ es
       /\ Step Finalizing ∈ es)
  /\ ((forall a, 1 <= a <= 3 ->
         mail_refused E a client_email client_name analysis_output) ->
      exists r' j' es,
        email_then_finalize cfg E job_id client_email client_name analysis_output l r
        = (Return false, r')
        /\ select_job job_id (run_db r') = Some j'
        /\ Job.status j' = "failed"
        /\ Job.error_message j' = Some "Email failed after 3 retries"
        /\ Job.completed_steps j' = Job.completed_steps j
        /\ trace r' = trace r ++ es
        /\ EmailAttempt 3 ∈ es
        /\ (forall p, Step p ∈ es -> p = SendingEmail)).
Proof.
  intros Hcfg Hj.
  unfold email_then_finalize, send_email, finalize.
  rewrite Hcfg. change (Z.to_nat 3) with 3%nat.
  split.
  - intros k Hk Hrefused Haccepted.
    pose proof (mail_accepted_sends _ _ _ _ _ Haccepted) as Hok.
    assert (Hfail : forall a, 1 <= a <= k ->
              _send_email E a client_email client_name analysis_output <> None)
      by (intros a Ha; apply mail_refused_fails, Hrefused, Ha).
    clear Hrefused Haccepted.
    assert (Hcases : k = 0 \/ k = 1 \/ k = 2) by lia.
    destruct Hcases as [-> | [-> | ->]];
      [change (0 + 1) with 1 in * | change (1 + 1) with 2 in * | change (2 + 1) with 3 in *].
    + step. cbn [email_attempts]. step. rewrite Hok. step.
      eexists _, _, _. split; [reflexivity|]. step. job_row Hj.
      split; [reflexivity|]. split; [reflexivity|].
      split; [cbn; lia|]. flatten_trace. split; [reflexivity|].
      split; in_list.
    + assert (H1 : _send_email E 1 client_email client_name analysis_output <> None)
        by (apply Hfail; lia).
      step. cbn [email_attempts]. step.
      destruct (_send_email E 1 client_email client_name analysis_output); [|congruence].
      rewrite Hcfg. change (1 <? 3) with true. step.
      change (1 + 1) with 2. rewrite Hok. step.
      eexists _, _, _. split; [reflexivity|]. step. job_row Hj.
      split; [reflexivity|]. split; [reflexivity|].
      split; [cbn; lia|]. flatten_trace. split; [reflexivity|].
      split; in_list.
    + assert (H1 : _send_email E 1 client_email client_name analysis_output <> None)
        by (apply Hfail; lia).
      assert (H2 : _send_email E 2 client_email client_name analysis_output <> None)
        by (apply Hfail; lia).
      step. cbn [email_attempts]. step.
      destruct (_send_email E 1 client_email client_name analysis_output); [|congruence].
      rewrite Hcfg. change (1 <? 3) with true. step. change (1 + 1) with 2.
      destruct (_send_email E 2 client_email client_name analysis_output); [|congruence].
      change (2 <? 3) with true. step. change (2 + 1) with 3. rewrite Hok. step.
      eexists _, _, _. split; [reflexivity|]. step. job_row Hj.
      split; [reflexivity|]. split; [reflexivity|].
      split; [cbn; lia|]. flatten_trace. split; [reflexivity|].
      split; in_list.
  - intros Hrefused.
    pose proof (mail_refused_fails _ _ _ _ _ (Hrefused 1 ltac:(lia))) as H1.
    pose proof (mail_refused_fails _ _ _ _ _ (Hrefused 2 ltac:(lia))) as H2.
    pose proof (mail_refused_fails _ _ _ _ _ (Hrefused 3 ltac:(lia))) as H3.
    step. cbn [email_attempts]. step.
    destruct (_send_email E 1 client_email client_name analysis_output); [|congruence].
    rewrite Hcfg. change (1 <? 3) with true. step. change (1 + 1) with 2.
    destruct (_send_email E 2 client_email client_name analysis_output); [|congruence].
    change (2 <? 3) with true. step. change (2 + 1) with 3.
    destruct (_send_email E 3 client_email client_name analysis_output); [|congruence].
    change (3 <? 3) with false. step.
    eexists _, _, _. split; [reflexivity|]. step. job_row Hj.
    split; [reflexivity|]. split; [reflexivity|].
    split; [reflexivity|]. split; [reflexivity|].
    flatten_trace. split; [reflexivity|].
    split; [in_list|].
    intros p Hp. apply list_elem_of_In in Hp. cbn [List.In] in Hp.
    repeat (destruct Hp as [Hp|Hp]; [try discriminate Hp; injection Hp as <-; reflexivity|]).
    contradiction.
Qed.

Lemma email_phase_outcomes_witness :
  exists r',
    email_then_finalize Sample.defaults Sample.smooth "job_1" "owner@acme.test"
      "Acme Motors" "data/jobs/job_1/analysis_1.txt" (mk_locals 4 0 [])
      (Sample.start (Sample.submitted Sample.two_rivals Sample.payloads))
    = (Return true, r')
    /\ Job.status <$> select_job "job_1" (run_db r') = Some "completed".
Proof.
  destruct (email_phase_outcomes Sample.defaults Sample.smooth "job_1" "owner@acme.test"
              "Acme Motors" "data/jobs/job_1/analysis_1.txt" (mk_locals 4 0 [])
              (Sample.start (Sample.submitted Sample.two_rivals Sample.payloads))
              (Sample.job "job_1" "queued" 10 6 0) eq_refl eq_refl) as [Hsucceeds _].
  destruct (Hsucceeds 2) as (r' & j' & es & Hrun & Hj' & Hst & _).
  - lia.
  - intros a Ha. assert (Ha' : a = 1 \/ a = 2) by lia.
    destruct Ha' as [-> | ->]; vm_compute; reflexivity.
  - exists "report". split; reflexivity.
  - exists r'. split; [exact Hrun|]. rewrite Hj'. simpl. rewrite Hst. reflexivity.
Defined.

(** Symbolic execution through binds whose continuation branches. *)
Ltac run_all :=
  repeat progress
    (cbv beta iota zeta delta
       [bind ret return_ raise emit statement query observe now_str
        job_mgr_update_status job_mgr_update_progress job_mgr_update_competitor_status
        cache_mgr_save_scrape fail_job advance];
     cbn [run_db statements trace fst snd
          step_done competitor_done competitor_failed
          completed_steps failed_competitors competitors_data]).

Lemma get_job_select job_id d j cs :
  get_job job_id d = Some (j, cs) ->
  select_job job_id d = Some j /\ select_competitors job_id d = cs.
Proof.
  unfold get_job. destruct (select_job job_id d); [|discriminate].
  intros [= -> ->]. split; reflexivity.
Qed.






(** ** Loops of the competitor phase *)

Lemma quiet_refl r : quiet r r.
Proof.
  split; [reflexivity|]. exists []. rewrite List.app_nil_r. split; [reflexivity|constructor].
Qed.

Lemma quiet_trans r1 r2 r3 : quiet r1 r2 -> quiet r2 r3 -> quiet r1 r3.
Proof.
  intros [Hj1 (es1 & Ht1 & Hs1)] [Hj2 (es2 & Ht2 & Hs2)].
  split; [congruence|]. exists (es1 ++ es2).
  rewrite Ht2, Ht1, List.app_assoc. split; [reflexivity|].
  apply Forall_app; split; assumption.
Qed.

(** A step that keeps the jobs table and logs events other than job rows. *)
Lemma quiet_step r d n es :
  jobs d = jobs (run_db r) ->
  Forall (fun e => forall row, e <> JobRow row) es ->
  quiet r (mk_run d n (trace r ++ es)).
Proof. intros Hd Hes. split; [exact Hd|]. exists es. split; [reflexivity|exact Hes]. Qed.

Lemma update_competitor_status_marks now job_id u status inv tools err d :
  marked job_id u status (update_competitor_status now job_id u status inv tools err d).
Proof.
  intros c Hc Hid Hu. unfold update_competitor_status in Hc. simpl in Hc.
  apply list_elem_of_In, List.in_map_iff in Hc as (c0 & Hc0 & _).
  destruct (String.eqb (Competitor.job_id c0) job_id
            && String.eqb (Competitor.competitor_url c0) u) eqn:Hcond.
  - subst c. reflexivity.
  - subst c0. rewrite Hid, Hu, !String.eqb_refl in Hcond. discriminate.
Qed.

Section Loops.

Variable cfg : config.
Variable E : collaborators.

(** The scrape attempts never return or raise; they leave the jobs table
    alone, log no job row, and on success leave the competitor's rows
    'completed'. *)
Lemma scrape_attempts_run job_id data_folder i comp_url comp_name remaining :
  forall attempt r,
  exists res r',
    scrape_attempts cfg E job_id data_folder i comp_url comp_name remaining attempt r
    = (Ok res, r')
    /\ quiet r r'
    /\ (res <> None -> marked job_id comp_url "completed" (run_db r')).
Proof.
  induction remaining as [|remaining IH]; intros attempt r.
  - cbn [scrape_attempts]. run_all. eexists _, _. split; [reflexivity|].
    split; [apply quiet_refl|congruence].
  - cbn [scrape_attempts]. run_all.
    destruct (_run_scraper E i attempt comp_url comp_name data_folder _)
      as [e | [[[inv tools] veh] tcount]].
    + set (r1 := snd ((if attempt <? scraper_max_retries cfg then emit (Sleep 2) else ret tt)
                        (mk_run (run_db r) (statements r)
                           (trace r ++ [ScrapeAttempt i attempt comp_url])))).
      assert (Hq : quiet r r1).
      { subst r1. destruct (attempt <? scraper_max_retries cfg); run_all.
        - rewrite <- List.app_assoc. apply quiet_step; [reflexivity|].
          repeat constructor; discriminate.
        - apply quiet_step; [reflexivity|]. repeat constructor; discriminate. }
      destruct (IH (attempt + 1) r1) as (res & r' & Hrun & Hq' & Hm).
      exists res, r'. split; [|split; [eapply quiet_trans; eassumption|exact Hm]].
      subst r1. destruct (attempt <? scraper_max_retries cfg); run_all; exact Hrun.
    + run_all. eexists _, _. split; [reflexivity|]. split.
      * apply quiet_step; [reflexivity|]. repeat constructor; discriminate.
      * intros _. cbn [run_db]. apply update_competitor_status_marks.
Qed.


Lemma cache_hit_run i comp_url r :
  exists o r',
    cache_hit E i comp_url r = (o, r')
    /\ run_db r' = run_db r
    /\ trace r' = trace r ++ [CacheLookup i comp_url]
    /\ (forall b, o <> Return b).
Proof.
  unfold cache_hit, cached_files. run_all.
  destruct (get_cached_scrape _ comp_url (run_db r)) as [c|]; run_all.
  - destruct (Site.inventory_path c) as [inv|]; run_all.
    + destruct (path_exists E i inv); run_all.
      * destruct (Site.tools_path c) as [tools|]; run_all.
        -- destruct (path_exists E i tools); run_all;
             eexists _, _; (split; [reflexivity|]); repeat split; discriminate.
        -- eexists _, _; (split; [reflexivity|]); repeat split; discriminate.
      * eexists _, _; (split; [reflexivity|]); repeat split; discriminate.
    + eexists _, _; (split; [reflexivity|]); repeat split; discriminate.
  - eexists _, _; (split; [reflexivity|]); repeat split; discriminate.
Qed.

(** Marking the remaining competitors: only competitor rows change, and
    every row of the job for one of the remaining urls ends 'aborted'. *)
Lemma abort_remaining_run job_id remaining :
  forall (seen : list string) r,
  (forall c, c ∈ job_competitors (run_db r) -> Competitor.job_id c = job_id ->
     Competitor.competitor_url c ∈ seen -> aborted c) ->
  exists r',
    abort_remaining E job_id remaining r = (Ok tt, r')
    /\ jobs (run_db r') = jobs (run_db r)
    /\ scraped_sites (run_db r') = scraped_sites (run_db r)
    /\ trace r' = trace r
    /\ (forall c, c ∈ job_competitors (run_db r') -> Competitor.job_id c = job_id ->
          Competitor.competitor_url c ∈ seen ++ List.map Competitor.competitor_url remaining ->
          aborted c).
Proof.
  induction remaining as [|comp rest IH]; intros seen r Hseen.
  - cbn [abort_remaining]. run_all. eexists. split; [reflexivity|].
    split; [reflexivity|]. split; [reflexivity|]. split; [reflexivity|].
    cbn [List.map]. rewrite List.app_nil_r. exact Hseen.
  - cbn [abort_remaining]. run_all.
    set (r1 := mk_run _ _ _).
    destruct (IH (seen ++ [Competitor.competitor_url comp]) r1) as (r' & Hrun & Hj & Hs & Ht & Hm).
    + subst r1. cbn [run_db]. intros c Hc Hid Hu.
      unfold update_competitor_status in Hc. simpl in Hc.
      apply list_elem_of_In, List.in_map_iff in Hc as (c0 & Hc0 & Hin0).
      destruct (String.eqb (Competitor.job_id c0) job_id
                && String.eqb (Competitor.competitor_url c0)
                     (Competitor.competitor_url comp)) eqn:Hcond.
      * subst c. split; reflexivity.
      * subst c0. apply Hseen; [apply list_elem_of_In, Hin0|exact Hid|].
        apply elem_of_app in Hu as [Hu|Hu]; [exact Hu|].
        apply list_elem_of_singleton in Hu.
        rewrite Hid, Hu, !String.eqb_refl in Hcond. discriminate.
    + exists r'. split; [exact Hrun|]. subst r1. cbn [run_db trace] in *.
      split; [exact Hj|]. split; [exact Hs|]. split; [exact Ht|].
      intros c Hc Hid Hu. apply Hm; [exact Hc|exact Hid|].
      cbn [List.map] in Hu. rewrite <- List.app_assoc. exact Hu.
Qed.

End Loops.

Section Resolve.

Variable cfg : config.
Variable E : collaborators.

Lemma quiet_cache_hit i comp_url r o r' :
  cache_hit E i comp_url r = (o, r') ->
  quiet r r' /\ job_competitors (run_db r') = job_competitors (run_db r)
  /\ (forall b, o <> Return b).
Proof.
  intros Hrun. destruct (cache_hit_run E i comp_url r) as (o1 & r1 & Hrun1 & Hdb & Ht & Hret).
  rewrite Hrun in Hrun1. injection Hrun1 as <- <-.
  split; [|split; [rewrite Hdb; reflexivity|exact Hret]].
  split; [rewrite Hdb; reflexivity|].
  exists [CacheLookup i comp_url]. split; [exact Ht|]. repeat constructor; discriminate.
Qed.

(** One iteration of the competitor loop.  It either falls through with
    the step counted, persisted and observed, the competitor's rows being
    'completed' or 'failed'; or it returns False after setting the job
    'failed', which happens only when the failure count reaches two; or it
    raises before any job update. *)
Lemma resolve_competitor_run job_id data_folder competitors i comp l r :
  exists o r',
    resolve_competitor cfg E job_id data_folder competitors i comp l r = (o, r')
    /\ match o with
       | Ok l' =>
           completed_steps l' = completed_steps l + 1
           /\ exists r1,
                quiet r r1
                /\ progressed E job_id (completed_steps l + 1) r1 r'
                /\ (marked job_id (Competitor.competitor_url comp) "completed" (run_db r1)
                    \/ marked job_id (Competitor.competitor_url comp) "failed" (run_db r1))
       | Return b =>
           b = false
           /\ 2 <= failed_competitors l + 1
           /\ exists r1 msg,
                quiet r r1
                /\ status_set E job_id "failed" None (Some msg) r1 r'
       | Raise _ => quiet r r'
       end.
Proof.
  unfold resolve_competitor. run_all.
  destruct (cache_hit E i (Competitor.competitor_url comp) r) as [o r0] eqn:Hhit.
  destruct (quiet_cache_hit _ _ _ _ _ Hhit) as (Hq0 & _ & Hret).
  destruct o as [[[inv tools]|]|b|e]; run_all.
  - (* cache hit *)
    eexists _, _. split; [reflexivity|]. split; [reflexivity|].
    eexists (mk_run _ _ _). split; [|split].
    2: { split; reflexivity. }
    + eapply quiet_trans; [exact Hq0|].
      split; [reflexivity|]. exists []. cbn [trace]. rewrite List.app_nil_r.
      split; [reflexivity|constructor].
    + left. cbn [run_db]. apply update_competitor_status_marks.
  - (* cache miss *)
    destruct (scrape_attempts_run cfg E job_id data_folder i
                (Competitor.competitor_url comp) (Competitor.competitor_name comp)
                (Z.to_nat (scraper_max_retries cfg)) 1 r0)
      as (res & r1 & Hrun & Hq1 & Hm).
    rewrite Hrun. destruct res as [c|]; run_all.
    + eexists _, _. split; [reflexivity|]. split; [reflexivity|].
      exists r1. split; [eapply quiet_trans; eassumption|].
      split; [split; reflexivity|]. left. apply Hm. discriminate.
    + destruct (2 <=? failed_competitors l + 1) eqn:Habort; run_all.
      * set (r2 := mk_run _ _ _).
        destruct (abort_remaining_run E job_id (drop i competitors) [] r2)
          as (r3 & Hab & Hj3 & _ & Ht3 & _).
        { intros c _ _ Hin. inversion Hin. }
        rewrite Hab. run_all.
        eexists _, _. split; [reflexivity|]. split; [reflexivity|].
        split; [apply Z.leb_le, Habort|].
        exists r3. eexists. split; [|split; reflexivity].
        eapply quiet_trans; [exact Hq0|]. eapply quiet_trans; [exact Hq1|].
        split; [rewrite Hj3; reflexivity|].
        exists []. rewrite Ht3, List.app_nil_r. split; [reflexivity|constructor].
      * eexists _, _. split; [reflexivity|]. split; [reflexivity|].
        eexists (mk_run _ _ _). split; [|split].
        2: { split; reflexivity. }
        -- eapply quiet_trans; [exact Hq0|]. eapply quiet_trans; [exact Hq1|].
           split; [reflexivity|]. exists []. cbn [trace]. rewrite List.app_nil_r.
           split; [reflexivity|constructor].
        -- right. cbn [run_db]. apply update_competitor_status_marks.
  - exfalso. exact (Hret b eq_refl).
  - eexists _, _. split; [reflexivity|]. exact Hq0.
Qed.

End Resolve.

Lemma select_job_same_jobs job_id d d' :
  jobs d' = jobs d -> select_job job_id d' = select_job job_id d.
Proof. unfold select_job. intros ->. reflexivity. Qed.

Lemma quiet_select_job job_id r r' :
  quiet r r' -> select_job job_id (run_db r') = select_job job_id (run_db r).
Proof. intros [Hj _]. apply select_job_same_jobs, Hj. Qed.

(** C3, as amended: one iteration of the competitor loop, started with the
    stored step count equal to the local one.  When the iteration falls
    through, the competitor's rows are 'completed' (cache or scrape) or
    'failed' (retries exhausted), and the stored count has grown by exactly
    one.  When the iteration returns, which it does only when the failure
    count reaches two, the job is 'failed' and the stored count is
    unchanged: neither the competitor whose failure triggers the abort nor
    the competitors marked 'aborted' are counted. *)
Theorem competitor_step_counted cfg E job_id data_folder competitors i comp l r :
  persisted_steps job_id r = Some (completed_steps l) ->
  exists o r',
    resolve_competitor cfg E job_id data_folder competitors i comp l r = (o, r')
    /\ match o with
       | Ok l' =>
           completed_steps l' = completed_steps l + 1
           /\ persisted_steps job_id r' = Some (completed_steps l + 1)
           /\ (marked job_id (Competitor.competitor_url comp) "completed" (run_db r')
               \/ marked job_id (Competitor.competitor_url comp) "failed" (run_db r'))
       | Return b =>
           b = false
           /\ 2 <= failed_competitors l + 1
           /\ persisted_steps job_id r' = Some (completed_steps l)
           /\ Job.status <$> select_job job_id (run_db r') = Some "failed"
       | Raise _ => persisted_steps job_id r' = Some (completed_steps l)
       end.
Proof.
  unfold persisted_steps. intros Hp.
  destruct (resolve_competitor_run cfg E job_id data_folder competitors i comp l r)
    as (o & r' & Hrun & Hspec).
  exists o, r'. split; [exact Hrun|].
  destruct (select_job job_id (run_db r)) as [j|] eqn:Hj; [|discriminate].
  injection Hp as Hp.
  destruct o as [l'|b|e].
  - destruct Hspec as (Hl' & r1 & Hq & [Hdb _] & Hm). split; [exact Hl'|].
    rewrite Hdb, select_job_update_progress, (quiet_select_job _ _ _ Hq), Hj.
    split; [reflexivity|].
    unfold marked, update_progress. cbn [job_competitors with_jobs]. exact Hm.
  - destruct Hspec as (Hb & Hf & r1 & msg & Hq & [Hdb _]).
    split; [exact Hb|]. split; [exact Hf|].
    rewrite Hdb, select_job_update_status, (quiet_select_job _ _ _ Hq), Hj.
    cbn. rewrite Hp. split; reflexivity.
  - rewrite (quiet_select_job _ _ _ Hspec), Hj. cbn. rewrite Hp. reflexivity.
Qed.

Lemma competitor_step_counted_witness :
  exists o r',
    resolve_competitor Sample.defaults Sample.smooth "job_1" "data/jobs/job_1" [] 1
      (Competitor.mk 1 "job_1" "http://x.test" "X" "pending" None None None None)
      (mk_locals 0 0 [])
      (Sample.start (Sample.submitted Sample.two_rivals Sample.payloads)) = (o, r').
Proof.
  destruct (competitor_step_counted Sample.defaults Sample.smooth "job_1" "data/jobs/job_1"
              [] 1
              (Competitor.mk 1 "job_1" "http://x.test" "X" "pending" None None None None)
              (mk_locals 0 0 [])
              (Sample.start (Sample.submitted Sample.two_rivals Sample.payloads))
              eq_refl) as (o & r' & Hrun & _).
  exists o, r'. exact Hrun.
Defined.

(** C3, as stated, fails: with two competitors that both exhaust their
    retries, both rows end 'failed' (neither is 'aborted'), yet the stored
    count is 2: one for the client data and one for the first competitor.
    The second failure, which triggers the abort, is not counted. *)
Lemma abort_trigger_not_counted :
  let d := Sample.submitted Sample.two_rivals Sample.payloads in
  let result := process_job Sample.defaults Sample.scraper_offline "job_1" (Sample.start d) in
  List.map Competitor.status (job_competitors (run_db (snd result))) = ["failed"; "failed"]
  /\ Job.completed_steps <$> select_job "job_1" (run_db (snd result)) = Some 2
  /\ Job.completed_steps <$> select_job "job_1" (run_db (snd result)) <> Some (1 + 2).
Proof. vm_compute. repeat split; try reflexivity. discriminate. Qed.

(** ** The abort rule *)

Section Abort.

Variable cfg : config.
Variable E : collaborators.

(** The loop over a list split in two. *)
Lemma scrape_competitors_app job_id data_folder competitors pre rest :
  forall i l r,
  scrape_competitors cfg E job_id data_folder competitors i (pre ++ rest) l r
  = match scrape_competitors cfg E job_id data_folder competitors i pre l r with
    | (Ok l', r') =>
        scrape_competitors cfg E job_id data_folder competitors
          (i + length pre)%nat rest l' r'
    | (Return b, r') => (Return b, r')
    | (Raise e, r') => (Raise e, r')
    end.
Proof.
  induction pre as [|comp pre IH]; intros i l r.
  - cbn [List.app scrape_competitors length]. run_all. rewrite Nat.add_0_r. reflexivity.
  - cbn [List.app scrape_competitors length]. unfold bind.
    destruct (resolve_competitor cfg E job_id data_folder competitors i comp l r)
      as [[l'|b|e] r']; [|reflexivity|reflexivity].
    rewrite IH. rewrite Nat.add_succ_r. reflexivity.
Qed.

Lemma drop_past_head {A} (pre : list A) (x : A) (post : list A) :
  drop (S (length pre)) (pre ++ x :: post) = post.
Proof. induction pre as [|y pre IH]; [reflexivity|exact IH]. Qed.

(** C5: the competitors before [comp] were resolved with one failure so
    far, and [comp] misses the cache and exhausts its scrape attempts, so
    that the failure count reaches two.  Then the loop and the whole of
    phases 2 to 5 return False at once: after the last failed attempt the
    only event is the update of the job row, so no later competitor is
    looked up or scraped and neither the analysis, the email nor the
    finalize phase starts; every row of the job for a competitor after
    [comp] is 'aborted' with the reason 'Job aborted due to multiple
    failures'; and the job is 'failed' with the message 'Aborting: 2
    competitors failed (threshold: 2)'. *)
Theorem abort_rule job_id data_folder client_email client_name
    client_inventory client_tools pre comp post l0 rs l r r1 r2 :
  let competitors := pre ++ comp :: post in
  let i := S (length pre) in
  let r0 := mk_run (run_db rs) (statements rs) (trace rs ++ [Step ScrapingCompetitors]) in
  scrape_competitors cfg E job_id data_folder competitors 1 pre l0 r0 = (Ok l, r) ->
  failed_competitors l = 1 ->
  cache_hit E i (Competitor.competitor_url comp) r = (Ok None, r1) ->
  scrape_attempts cfg E job_id data_folder i (Competitor.competitor_url comp)
    (Competitor.competitor_name comp) (Z.to_nat (scraper_max_retries cfg)) 1 r1
  = (Ok None, r2) ->
  exists r',
    scrape_competitors cfg E job_id data_folder competitors 1 competitors l0 r0
    = (Return false, r')
    /\ from_competitors cfg E job_id data_folder client_email client_name competitors
         client_inventory client_tools l0 rs = (Return false, r')
    /\ (exists row, trace r' = trace r2 ++ [JobRow row])
    /\ (forall c, c ∈ job_competitors (run_db r') -> Competitor.job_id c = job_id ->
          Competitor.competitor_url c ∈ List.map Competitor.competitor_url post ->
          aborted c)
    /\ (forall j, select_job job_id (run_db r2) = Some j ->
          exists j',
            select_job job_id (run_db r') = Some j'
            /\ Job.status j' = "failed"
            /\ Job.error_message j'
               = Some "Aborting: 2 competitors failed (threshold: 2)"
            /\ Job.completed_steps j' = Job.completed_steps j).
Proof.
  intros competitors i r0 Hpre Hfailed Hhit Hscrape.
  assert (Hloop : exists r',
    scrape_competitors cfg E job_id data_folder competitors 1 competitors l0 r0
    = (Return false, r')
    /\ (exists row, trace r' = trace r2 ++ [JobRow row])
    /\ (forall c, c ∈ job_competitors (run_db r') -> Competitor.job_id c = job_id ->
          Competitor.competitor_url c ∈ List.map Competitor.competitor_url post ->
          aborted c)
    /\ (forall j, select_job job_id (run_db r2) = Some j ->
          exists j',
            select_job job_id (run_db r') = Some j'
            /\ Job.status j' = "failed"
            /\ Job.error_message j'
               = Some "Aborting: 2 competitors failed (threshold: 2)"
            /\ Job.completed_steps j' = Job.completed_steps j)).
  { unfold competitors at 2. rewrite scrape_competitors_app, Hpre.
    change (1 + length pre)%nat with i.
    cbn [scrape_competitors]. unfold resolve_competitor. run_all.
    rewrite Hhit. run_all. rewrite Hscrape. run_all.
    rewrite Hfailed. change (2 <=? 1 + 1) with true. run_all.
    unfold competitors, i. rewrite drop_past_head.
    set (r3 := mk_run _ _ _).
    destruct (abort_remaining_run E job_id post [] r3) as (r4 & Hab & Hj4 & _ & Ht4 & Hm4).
    { intros c _ _ Hin. inversion Hin. }
    rewrite Hab. run_all.
    eexists. split; [reflexivity|]. cbn [trace run_db].
    split; [|split].
    - rewrite Ht4. subst r3. cbn [trace]. eexists. reflexivity.
    - intros c Hc Hid Hu. apply Hm4; assumption.
    - intros j Hj. rewrite select_job_update_status.
      rewrite (select_job_same_jobs job_id _ _ Hj4). subst r3. cbn [run_db].
      unfold update_competitor_status at 1. unfold select_job at 1.
      cbn [jobs with_job_competitors]. fold (select_job job_id (run_db r2)).
      rewrite Hj. cbn. eexists. split; [reflexivity|]. cbn.
      split; [reflexivity|]. split; reflexivity. }
  destruct Hloop as (r' & Hrun & Hrest).
  exists r'. split; [exact Hrun|]. split; [|exact Hrest].
  unfold from_competitors. run_all. fold r0. fold competitors. rewrite Hrun. reflexivity.
Qed.

End Abort.

Lemma abort_rule_witness :
  exists r',
    from_competitors Sample.defaults Sample.scraper_offline "job_1" "data/jobs/job_1"
      "owner@acme.test" "Acme Motors" [Sample.row_x; Sample.row_y; Sample.row_z]
      "client_inventory.json" "client_tools.json" (mk_locals 1 0 []) Sample.before_loop
    = (Return false, r')
    /\ exists row, trace r' = trace Sample.after_attempts_y ++ [JobRow row].
Proof.
  destruct (abort_rule Sample.defaults Sample.scraper_offline "job_1" "data/jobs/job_1"
              "owner@acme.test" "Acme Motors" "client_inventory.json" "client_tools.json"
              [Sample.row_x] Sample.row_y [Sample.row_z] (mk_locals 1 0 [])
              Sample.before_loop (mk_locals 2 1 []) Sample.after_x
              Sample.after_lookup_y Sample.after_attempts_y)
    as (r' & _ & Hrun & Htrace & _).
  - vm_compute. reflexivity.
  - reflexivity.
  - vm_compute. reflexivity.
  - vm_compute. reflexivity.
  - exists r'. split; [exact Hrun | exact Htrace].
Defined.

(** ** Step accounting along a run *)

Section Accounting.

Variable cfg : config.
Variable E : collaborators.
Variable job_id : string.
Variable total : Z.

Lemma on_track_tidy c r : on_track job_id total c r -> tidy r.
Proof. intros [Ht _]. exact Ht. Qed.

Lemma on_track_base c r s :
  on_track job_id total c r ->
  on_track job_id total c (mk_run (run_db r) s (trace r)).
Proof. intros H. exact H. Qed.

(** Logging an event that is not a job row. *)
Lemma on_track_event c d s' t e :
  (forall row, e <> JobRow row) ->
  on_track job_id total c (mk_run d O t) ->
  on_track job_id total c (mk_run d s' (t ++ [e])).
Proof.
  intros He (Ht & Hc & Hj). split; [|split; assumption].
  unfold tidy in *. cbn [trace] in *. apply Forall_app. split; [exact Ht|].
  constructor; [|constructor]. destruct e; try exact I. exfalso. eapply He. reflexivity.
Qed.

(** A statement that leaves the jobs table alone. *)
Lemma on_track_statement c d d' s' t :
  jobs d' = jobs d ->
  on_track job_id total c (mk_run d O t) ->
  on_track job_id total c (mk_run d' s' t).
Proof.
  intros Hd (Ht & Hc & Hj). split; [exact Ht|]. split; [exact Hc|].
  cbn [run_db] in *. rewrite (select_job_same_jobs job_id d d' Hd). exact Hj.
Qed.

(** [update_status] to a status other than 'completed', observed. *)
Lemma on_track_status c d s' t now status current_step error_message :
  status <> "completed" ->
  on_track job_id total c (mk_run d O t) ->
  on_track job_id total c
    (mk_run (update_status now job_id status current_step error_message d) s'
       (t ++ [JobRow (select_job job_id
                        (update_status now job_id status current_step error_message d))])).
Proof.
  intros Hst (Ht & Hc & j & Hj & Htot & Hdone & _).
  unfold on_track, tidy in *. cbn [run_db trace] in *.
  rewrite select_job_update_status, Hj. cbn [fmap option_fmap option_map].
  split; [|split; [exact Hc|]].
  - apply Forall_app. split; [exact Ht|].
    constructor; [|constructor]. cbn. unfold consistent. cbn.
    split; [lia|]. split; [lia|]. intros; contradiction.
  - eexists. split; [reflexivity|]. cbn. auto.
Qed.

(** [update_progress] to a count short of the total, observed. *)
Lemma on_track_progress c n d s' t now :
  n < total ->
  on_track job_id total c (mk_run d O t) ->
  on_track job_id total n
    (mk_run (update_progress now job_id n d) s'
       (t ++ [JobRow (select_job job_id (update_progress now job_id n d))])).
Proof.
  intros Hn (Ht & Hc & j & Hj & Htot & Hdone & Hst).
  unfold on_track, tidy in *. cbn [run_db trace] in *.
  rewrite select_job_update_progress, Hj. cbn [fmap option_fmap option_map].
  split; [|split; [exact Hn|]].
  - apply Forall_app. split; [exact Ht|].
    constructor; [|constructor]. cbn. unfold consistent. cbn.
    split; [lia|]. split; [lia|]. intros; contradiction.
  - eexists. split; [reflexivity|]. cbn. auto.
Qed.

Lemma on_track_quiet c r r' :
  quiet r r' -> on_track job_id total c r -> on_track job_id total c r'.
Proof.
  intros [Hjobs (es & Htr & Hes)] (Ht & Hc & Hj). split; [|split; [exact Hc|]].
  - unfold tidy in *. rewrite Htr. apply Forall_app. split; [exact Ht|].
    eapply Forall_impl; [exact Hes|]. intros e He.
    destruct e; try exact I. exfalso. eapply He. reflexivity.
  - rewrite (select_job_same_jobs job_id _ _ Hjobs). exact Hj.
Qed.

Lemma on_track_progressed c n r r' :
  n < total -> progressed E job_id n r r' ->
  on_track job_id total c r -> on_track job_id total n r'.
Proof.
  intros Hn [Hdb Htr] H. destruct r' as [d' s' t'], r as [d s t].
  cbn [run_db trace statements] in *. subst d' t'.
  apply on_track_progress with (c := c); [exact Hn|exact H].
Qed.

Lemma on_track_status_set c status current_step error_message r r' :
  status <> "completed" -> status_set E job_id status current_step error_message r r' ->
  on_track job_id total c r -> on_track job_id total c r'.
Proof.
  intros Hn [Hdb Htr] H. destruct r' as [d' s' t'], r as [d s t].
  cbn [run_db trace statements] in *. subst d' t'.
  apply on_track_status; [exact Hn|exact H].
Qed.

End Accounting.

(** Peel an explicit run, last step first. *)
Ltac track :=
  repeat first
    [ eassumption
    | eapply on_track_base; eassumption
    | eapply on_track_progress; [lia|]
    | eapply on_track_status; [discriminate|]
    | eapply on_track_event; [discriminate|]
    | eapply (on_track_statement _ _ _ _ (update_competitor_status _ _ _ _ _ _ _ _));
        [reflexivity|]
    | eapply (on_track_statement _ _ _ _ (save_scrape _ _ _ _ _ _ _ _ _ _ _ _));
        [reflexivity|] ].

Section Phases.

Variable cfg : config.
Variable E : collaborators.
Variable job_id : string.
Variable total : Z.

(** The email attempts never return or raise and touch nothing but the
    event log. *)
Lemma email_attempts_run client_email client_name analysis_output remaining :
  forall attempt r,
  exists b r',
    email_attempts cfg E client_email client_name analysis_output remaining attempt r
    = (Ok b, r')
    /\ quiet r r'.
Proof.
  induction remaining as [|remaining IH]; intros attempt r.
  - cbn [email_attempts]. run_all. eexists _, _. split; [reflexivity|apply quiet_refl].
  - cbn [email_attempts]. run_all.
    destruct (_send_email E attempt client_email client_name analysis_output).
    + set (r1 := snd ((if attempt <? email_max_retries cfg then emit (Sleep 5) else ret tt)
                        (mk_run (run_db r) (statements r) (trace r ++ [EmailAttempt attempt])))).
      assert (Hq : quiet r r1).
      { subst r1. destruct (attempt <? email_max_retries cfg); run_all.
        - rewrite <- List.app_assoc. apply quiet_step; [reflexivity|].
          repeat constructor; discriminate.
        - apply quiet_step; [reflexivity|]. repeat constructor; discriminate. }
      destruct (IH (attempt + 1) r1) as (b & r' & Hrun & Hq').
      exists b, r'. split; [|eapply quiet_trans; eassumption].
      subst r1. destruct (attempt <? email_max_retries cfg); run_all; exact Hrun.
    + run_all. eexists _, _. split; [reflexivity|].
      apply quiet_step; [reflexivity|]. repeat constructor; discriminate.
Qed.

Lemma save_client_data_track client_name data_folder metadata r :
  on_track job_id total 0 r -> 1 < total ->
  match save_client_data E job_id client_name data_folder metadata (mk_locals 0 0 []) r with
  | (Ok saved, r') => snd saved = mk_locals 1 0 [] /\ on_track job_id total 1 r'
  | (Return b, r') => b = false /\ tidy r'
  | (Raise _, r') => exists c, on_track job_id total c r'
  end.
Proof.
  intros Hr Htotal. unfold save_client_data. run_all.
  destruct (metadata !! "inventory_json"); [destruct (save_json E _ _)|];
    run_all;
    try (split; [reflexivity|eapply on_track_tidy; track]);
    (destruct (metadata !! "tools_json"); [destruct (save_json E _ _)|]);
    run_all;
    try (split; [reflexivity|eapply on_track_tidy; track]).
  split; [reflexivity|]. change (0 + 1) with 1. track.
Qed.

Lemma scrape_competitors_track data_folder competitors todo :
  forall i l r,
  on_track job_id total (completed_steps l) r ->
  completed_steps l + Z.of_nat (length todo) < total ->
  match scrape_competitors cfg E job_id data_folder competitors i todo l r with
  | (Ok l', r') =>
      completed_steps l' = completed_steps l + Z.of_nat (length todo)
      /\ on_track job_id total (completed_steps l') r'
  | (Return b, r') => b = false /\ tidy r'
  | (Raise _, r') => exists c, on_track job_id total c r'
  end.
Proof.
  induction todo as [|comp todo IH]; intros i l r Hr Hroom.
  - cbn [scrape_competitors]. run_all. split; [cbn; lia|exact Hr].
  - cbn [scrape_competitors]. unfold bind.
    destruct (resolve_competitor_run cfg E job_id data_folder competitors i comp l r)
      as (o & r' & Hrun & Hspec).
    rewrite Hrun. cbn [length] in Hroom.
    destruct o as [l'|b|e].
    + destruct Hspec as (Hl' & r1 & Hq & Hp & _).
      assert (Hr' : on_track job_id total (completed_steps l') r').
      { rewrite Hl'. eapply on_track_progressed; [|exact Hp|eapply on_track_quiet; eassumption].
        lia. }
      specialize (IH (S i) l' r' Hr' ltac:(lia)).
      destruct (scrape_competitors cfg E job_id data_folder competitors (S i) todo l' r')
        as [[l''|b|e] r'']; [|exact IH|exact IH].
      destruct IH as [Hl'' Hr'']. split; [cbn [length]; lia|exact Hr''].
    + destruct Hspec as (Hb & _ & r1 & msg & Hq & Hs). split; [exact Hb|].
      eapply on_track_tidy, on_track_status_set; [|exact Hs|eapply on_track_quiet; eassumption].
      discriminate.
    + eexists. eapply on_track_quiet; eassumption.
Qed.

Lemma run_analysis_track data_folder client_inventory client_tools l r :
  on_track job_id total (completed_steps l) r ->
  completed_steps l + 1 < total ->
  match run_analysis E job_id data_folder client_inventory client_tools l r with
  | (Ok analysed, r') =>
      completed_steps (snd analysed) = completed_steps l + 1
      /\ on_track job_id total (completed_steps (snd analysed)) r'
  | (Return b, r') => b = false /\ tidy r'
  | (Raise _, r') => exists c, on_track job_id total c r'
  end.
Proof.
  intros Hr Hroom. unfold run_analysis. run_all.
  destruct (_run_analysis E client_inventory client_tools (competitors_data l)); run_all.
  - split; [reflexivity|]. eapply on_track_tidy. track.
  - split; [reflexivity|]. track.
Qed.

Lemma send_email_track client_email client_name analysis_output l r :
  on_track job_id total (completed_steps l) r ->
  completed_steps l + 1 < total ->
  match send_email cfg E job_id client_email client_name analysis_output l r with
  | (Ok l', r') =>
      completed_steps l' = completed_steps l + 1
      /\ on_track job_id total (completed_steps l') r'
  | (Return b, r') => b = false /\ tidy r'
  | (Raise _, r') => exists c, on_track job_id total c r'
  end.
Proof.
  intros Hr Hroom. unfold send_email. run_all.
  set (r1 := mk_run _ _ _).
  assert (Hr1 : on_track job_id total (completed_steps l) r1) by (subst r1; track).
  destruct (email_attempts_run client_email client_name analysis_output
              (Z.to_nat (email_max_retries cfg)) 1 r1) as (b & r2 & Hrun & Hq).
  rewrite Hrun. pose proof (on_track_quiet _ _ _ _ _ Hq Hr1) as Hr2.
  destruct b; run_all.
  - split; [reflexivity|]. track.
  - split; [reflexivity|]. eapply on_track_tidy. track.
Qed.

(** The finalize phase, entered one step short of the total: the row is
    first seen 'completed' with one step missing, then with all steps. *)
Lemma finalize_track l r :
  on_track job_id total (completed_steps l) r ->
  completed_steps l + 1 = total ->
  exists r' j',
    finalize E job_id l r = (Return true, r')
    /\ tidy r'
    /\ select_job job_id (run_db r') = Some j'
    /\ Job.status j' = "completed"
    /\ Job.completed_steps j' = Job.total_steps j'.
Proof.
  intros (Ht & Hc & j & Hj & Htot & Hdone & Hst) Hlast. unfold finalize. run_all.
  eexists _, _. split; [reflexivity|]. cbn [run_db trace].
  unfold tidy. cbn [trace].
  repeat (rewrite select_job_update_progress || rewrite select_job_update_status).
  rewrite Hj. cbn [fmap option_fmap option_map].
  split; [|split; [reflexivity|split; [reflexivity|cbn; lia]]].
  rewrite <- !List.app_assoc. apply Forall_app. split; [exact Ht|].
  repeat constructor; cbn; unfold consistent; cbn; try lia.
  all: repeat split; try lia; try (intros; lia); try reflexivity.
  all: intros H; try discriminate H; try lia.
Qed.

End Phases.

Section WholeRun.

Variable cfg : config.
Variable E : collaborators.
Variable job_id : string.

(** How a run may end: every observation consistent and, when it
    returns True, the job row 'completed' with all steps done. *)
Let ended (b : bool) (r' : run) : Prop :=
  tidy r'
  /\ (b = true ->
      exists j', select_job job_id (run_db r') = Some j'
                 /\ Job.status j' = "completed"
                 /\ Job.completed_steps j' = Job.total_steps j').

Lemma from_competitors_track total data_folder client_email client_name competitors
    client_inventory client_tools l r :
  on_track job_id total (completed_steps l) r ->
  completed_steps l = 1 ->
  total = 2 + Z.of_nat (length competitors) + 2 ->
  match from_competitors cfg E job_id data_folder client_email client_name competitors
          client_inventory client_tools l r with
  | (Ok b, r') => ended b r'
  | (Return b, r') => ended b r'
  | (Raise _, r') => exists c, on_track job_id total c r'
  end.
Proof.
  intros Hr Hl Htotal. unfold from_competitors, email_then_finalize. run_all.
  match goal with
  | |- context [scrape_competitors cfg E job_id data_folder competitors ?i competitors l ?r0] =>
      pose proof (scrape_competitors_track cfg E job_id total data_folder competitors
                    competitors i l r0) as Hloop;
      destruct (scrape_competitors cfg E job_id data_folder competitors i competitors l r0)
        as [[l2|b|e] r2]
  end.
  - destruct Hloop as [Hl2 Hr2]; [track|lia|].
    destruct (competitors_data l2) as [|c cd] eqn:Hcd; run_all.
    + split; [|discriminate]. eapply on_track_tidy. track.
    + pose proof (run_analysis_track E job_id total data_folder client_inventory
                    client_tools l2 r2 Hr2 ltac:(lia)) as Han.
      destruct (run_analysis E job_id data_folder client_inventory client_tools l2 r2)
        as [[analysed|b|e] r3]; run_all.
      * destruct Han as [Hl3 Hr3].
        pose proof (send_email_track cfg E job_id total client_email client_name
                      (fst analysed) (snd analysed) r3 Hr3 ltac:(lia)) as Hem.
        destruct (send_email cfg E job_id client_email client_name (fst analysed)
                    (snd analysed) r3) as [[l4|b|e] r4]; run_all.
        -- destruct Hem as [Hl4 Hr4].
           destruct (finalize_track E job_id total l4 r4 Hr4 ltac:(lia))
             as (r5 & j5 & Hfin & Htidy & Hj5 & Hst5 & Hdone5).
           rewrite Hfin. split; [exact Htidy|]. intros _. exists j5. auto.
        -- destruct Hem as [-> Htidy]. split; [exact Htidy|discriminate].
        -- exact Hem.
      * destruct Han as [-> Htidy]. split; [exact Htidy|discriminate].
      * exact Han.
  - destruct Hloop as [-> Htidy]; [track|lia|]. split; [exact Htidy|discriminate].
  - apply Hloop; [track|lia].
Qed.

(** C4, as amended: take a job as [create_job] stores it (no step
    completed, [total_steps] = 2 + number of competitors + 2) and run
    [process_job].  Every job row observed after a status or progress
    update has [completed_steps <= total_steps]; [completed_steps =
    total_steps] only with status 'completed'; and status 'completed'
    only with [completed_steps] equal to [total_steps] or one short of it
    (the finalize phase stores the status before the last step).  A run
    that returns True leaves the row 'completed' with [completed_steps =
    total_steps]. *)
Theorem steps_within_total d n j competitors :
  get_job job_id d = Some (j, competitors) ->
  Job.total_steps j = 2 + Z.of_nat (length competitors) + 2 ->
  Job.completed_steps j = 0 ->
  let result := process_job cfg E job_id (mk_run d n []) in
  (forall j', JobRow (Some j') ∈ trace (snd result) -> consistent j')
  /\ (fst result = true ->
      exists j', select_job job_id (run_db (snd result)) = Some j'
                 /\ Job.status j' = "completed"
                 /\ Job.completed_steps j' = Job.total_steps j').
Proof.
  intros Hget Htot Hzero.
  destruct (get_job_select _ _ _ _ Hget) as [Hj _].
  assert (Hgoal : forall b r', ended b r' ->
            (forall j', JobRow (Some j') ∈ trace r' -> consistent j')
            /\ (b = true ->
                exists j', select_job job_id (run_db r') = Some j'
                           /\ Job.status j' = "completed"
                           /\ Job.completed_steps j' = Job.total_steps j')).
  { intros b r' [Htidy Hdone]. split; [|exact Hdone].
    intros j' Hin. unfold tidy in Htidy. rewrite Forall_forall in Htidy.
    exact (Htidy _ Hin). }
  assert (Hbody :
    match process_job_body cfg E job_id (mk_run d n []) with
    | (Ok b, r') => ended b r'
    | (Return b, r') => ended b r'
    | (Raise _, r') => exists c, on_track job_id (Job.total_steps j) c r'
    end).
  { unfold process_job_body. run_all. rewrite Hget. run_all.
    set (r1 := mk_run _ _ _).
    assert (Hr1 : on_track job_id (Job.total_steps j) 0 r1).
    { subst r1. unfold on_track, tidy. cbn [run_db trace List.app].
      rewrite select_job_update_status, Hj. cbn [fmap option_fmap option_map].
      split; [|split; [lia|]].
      - repeat constructor; cbn; try lia. intros H; discriminate H.
      - eexists. split; [reflexivity|]. cbn. repeat split; try assumption. discriminate. }
    clearbody r1.
    assert (Hphases : forall data_folder,
      match
        (let (o, r') :=
           save_client_data E job_id (Job.client_name j) data_folder
             (convert_legacy (Job.metadata j)) (mk_locals 0 0 []) r1 in
         match o with
         | Ok saved =>
             (let '(client_inventory, client_tools, l1) := saved in
              from_competitors cfg E job_id data_folder (Job.client_email j)
                (Job.client_name j) competitors client_inventory client_tools l1) r'
         | Return b => (Return b, r')
         | Raise e => (Raise e, r')
         end)
      with
      | (Ok b, r') => ended b r'
      | (Return b, r') => ended b r'
      | (Raise _, r') => exists c, on_track job_id (Job.total_steps j) c r'
      end).
    { intros data_folder.
      pose proof (save_client_data_track E job_id (Job.total_steps j) (Job.client_name j)
                    data_folder (convert_legacy (Job.metadata j)) r1 Hr1 ltac:(lia))
        as Hsave.
      destruct (save_client_data E job_id (Job.client_name j) data_folder
                  (convert_legacy (Job.metadata j)) (mk_locals 0 0 []) r1)
        as [[[[ci ct] l1]|b|e] r2].
      - destruct Hsave as [Hl1 Hr2]. cbn [snd] in Hl1. subst l1.
        apply (from_competitors_track (Job.total_steps j) data_folder (Job.client_email j)
                 (Job.client_name j) competitors ci ct (mk_locals 1 0 []) r2);
          [exact Hr2|reflexivity|exact Htot].
      - destruct Hsave as [-> Htidy]. split; [exact Htidy|discriminate].
      - exact Hsave. }
    destruct (truthy (Job.data_folder j)); [apply Hphases|].
    destruct (makedirs E _); [|apply Hphases].
    exists 0. exact Hr1. }
  cbn zeta. unfold process_job.
  destruct (process_job_body cfg E job_id (mk_run d n [])) as [[b|b|e] r'];
    [apply Hgoal, Hbody|apply Hgoal, Hbody|].
  destruct Hbody as [c Hc]. cbn [fst snd]. apply (Hgoal false).
  split; [|discriminate]. run_all. eapply on_track_tidy. track.
Qed.

End WholeRun.

Lemma steps_within_total_witness :
  exists j',
    select_job "job_1"
      (run_db (snd (process_job Sample.defaults Sample.smooth "job_1"
                      (mk_run (Sample.submitted Sample.two_rivals Sample.payloads) 0 []))))
    = Some j'
    /\ Job.status j' = "completed"
    /\ Job.completed_steps j' = Job.total_steps j'.
Proof.
  destruct (steps_within_total Sample.defaults Sample.smooth "job_1"
              (Sample.submitted Sample.two_rivals Sample.payloads) 0
              (Sample.job "job_1" "queued" 10 6 0)
              [Competitor.mk 1 "job_1" "http://x.test" "X" "pending" None None None None;
               Competitor.mk 2 "job_1" "http://y.test" "Y" "pending" None None None None]
              eq_refl eq_refl eq_refl) as [_ Hdone].
  apply Hdone. vm_compute. reflexivity.
Defined.

(** C4, as stated, fails: in a run where everything succeeds, the row
    observed right after the finalize phase has stored the status is
    'completed' with 5 of 6 steps, so 'completed' does not imply
    [completed_steps = total_steps] at every observable point. *)
Lemma completed_before_last_step :
  let result := process_job Sample.defaults Sample.smooth "job_1"
                  (mk_run (Sample.submitted Sample.two_rivals Sample.payloads) 0 []) in
  List.map (fun j => (Job.status j, Job.completed_steps j, Job.total_steps j))
    (observed (trace (snd result)))
  = [("processing", 0, 6); ("processing", 0, 6); ("processing", 1, 6);
     ("processing", 2, 6); ("processing", 3, 6); ("processing", 3, 6);
     ("processing", 4, 6); ("processing", 4, 6); ("processing", 5, 6);
     ("completed", 5, 6); ("completed", 6, 6)]
  /\ exists j, j ∈ observed (trace (snd result)) /\ ~ complete_iff_completed j.
Proof.
  cbn zeta. split; [vm_compute; reflexivity|].
  set (rows := observed _).
  assert (Hrow : (fun j => (Job.status j, Job.completed_steps j, Job.total_steps j))
                   <$> rows !! 9%nat = Some ("completed", 5, 6))
    by (vm_compute; reflexivity).
  destruct (rows !! 9%nat) as [j|] eqn:Hj; [|discriminate].
  exists j. split; [eapply list_elem_of_lookup_2; exact Hj|].
  cbn in Hrow. injection Hrow as Hst Hdone Htot.
  intros [_ Hiff]. apply Hiff in Hst. lia.
Qed.

(** A job stored by [create_job] satisfies the premises of
    [steps_within_total], provided no competitor row referred to its id
    before (the foreign key). *)
Lemma insert_competitors_count job_id competitor_urls :
  forall seq cs,
  length (List.filter (fun r => String.eqb (Competitor.job_id r) job_id)
            (fst (insert_competitors job_id competitor_urls seq cs)))
  = (length (List.filter (fun r => String.eqb (Competitor.job_id r) job_id) cs)
     + length competitor_urls)%nat.
Proof.
  induction competitor_urls as [|comp rest IH]; intros seq cs.
  - cbn. lia.
  - cbn [insert_competitors]. rewrite IH, List.filter_app, List.length_app.
    cbn [List.filter new_competitor Competitor.job_id]. rewrite String.eqb_refl.
    cbn [length]. lia.
Qed.

Lemma find_app_none {A} (f : A -> bool) (l l' : list A) :
  List.find f l = None -> List.find f (l ++ l') = List.find f l'.
Proof.
  induction l as [|x l IH]; cbn; [reflexivity|].
  destruct (f x); [discriminate|exact IH].
Qed.

Lemma create_job_fresh now job_id client_name client_email competitor_urls data_folder
    metadata d d' :
  create_job now job_id client_name client_email competitor_urls data_folder metadata d
  = Some d' ->
  select_competitors job_id d = [] ->
  exists j cs,
    get_job job_id d' = Some (j, cs)
    /\ Job.status j = "queued"
    /\ Job.completed_steps j = 0
    /\ Job.total_steps j = 2 + Z.of_nat (length cs) + 2
    /\ length cs = length competitor_urls.
Proof.
  unfold create_job, get_job, select_competitors. intros Hcreate Hnone.
  destruct (select_job job_id d) eqn:Hsel; [discriminate|].
  pose proof (insert_competitors_count job_id competitor_urls
                (job_competitors_id_seq d) (job_competitors d)) as Hcount.
  destruct (insert_competitors job_id competitor_urls (job_competitors_id_seq d)
              (job_competitors d)) as [cs seq].
  injection Hcreate as <-. unfold select_job in *. cbn [jobs job_competitors fst] in *.
  rewrite (find_app_none _ _ _ Hsel). cbn [List.find Job.job_id].
  rewrite String.eqb_refl. rewrite Hnone in Hcount. cbn [length Nat.add] in Hcount.
  eexists _, _. split; [reflexivity|]. cbn.
  split; [reflexivity|]. split; [reflexivity|]. rewrite Hcount. split; reflexivity.
Qed.

(** * Further properties of the storage layer *)

(** ** Frame of the job updates *)

Lemma find_map_other_key {A} (key : A -> string) (id id' : string) (g : A -> A) (l : list A) :
  id' <> id ->
  (forall r, key (g r) = key r) ->
  List.find (fun r => String.eqb (key r) id')
    (List.map (fun r => if String.eqb (key r) id then g r else r) l)
  = List.find (fun r => String.eqb (key r) id') l.
Proof.
  intros Hne Hg. induction l as [|x l IH]; cbn; [reflexivity|].
  destruct (String.eqb (key x) id) eqn:Hx.
  - rewrite Hg. apply String.eqb_eq in Hx.
    destruct (String.eqb (key x) id') eqn:Hx'.
    + apply String.eqb_eq in Hx'. congruence.
    + exact IH.
  - destruct (String.eqb (key x) id'); [reflexivity|exact IH].
Qed.

Lemma map_absent_key {A} (key : A -> string) (id : string) (g : A -> A) (l : list A) :
  List.find (fun r => String.eqb (key r) id) l = None ->
  List.map (fun r => if String.eqb (key r) id then g r else r) l = l.
Proof.
  induction l as [|x l IH]; cbn; [reflexivity|].
  destruct (String.eqb (key x) id); [discriminate|].
  intros H. rewrite (IH H). reflexivity.
Qed.

(** [update_status] and [update_progress] touch the rows of their job only:
    another job reads back as before, the other two tables are untouched,
    and on a job id that is not stored the statement changes nothing. *)
Theorem job_updates_frame now job_id status current_step error_message n d :
  (forall other, other <> job_id ->
     select_job other (update_status now job_id status current_step error_message d)
     = select_job other d
     /\ select_job other (update_progress now job_id n d) = select_job other d)
  /\ job_competitors (update_status now job_id status current_step error_message d)
     = job_competitors d
  /\ scraped_sites (update_status now job_id status current_step error_message d)
     = scraped_sites d
  /\ job_competitors (update_progress now job_id n d) = job_competitors d
  /\ scraped_sites (update_progress now job_id n d) = scraped_sites d
  /\ (select_job job_id d = None ->
      jobs (update_status now job_id status current_step error_message d) = jobs d
      /\ jobs (update_progress now job_id n d) = jobs d).
Proof.
  split; [|do 4 (split; [reflexivity|])].
  - intros other Hne. unfold select_job, update_status, update_progress. cbn [jobs with_jobs].
    split; apply (find_map_other_key Job.job_id); auto.
  - intros Hnone. unfold update_status, update_progress. cbn [jobs with_jobs].
    split; apply (map_absent_key Job.job_id), Hnone.
Qed.

(** ** Competitor updates *)

Lemma set_competitor_status_updated now job_id competitor_url status
    inventory_path tools_path error_message c :
  competitor_updated now job_id competitor_url status inventory_path tools_path
    error_message c
    (if String.eqb (Competitor.job_id c) job_id
        && String.eqb (Competitor.competitor_url c) competitor_url
     then set_competitor_status now status inventory_path tools_path error_message c
     else c)
  /\ Competitor.id
       (if String.eqb (Competitor.job_id c) job_id
           && String.eqb (Competitor.competitor_url c) competitor_url
        then set_competitor_status now status inventory_path tools_path error_message c
        else c)
     = Competitor.id c
  /\ Competitor.job_id
       (if String.eqb (Competitor.job_id c) job_id
           && String.eqb (Competitor.competitor_url c) competitor_url
        then set_competitor_status now status inventory_path tools_path error_message c
        else c)
     = Competitor.job_id c.
Proof.
  unfold competitor_updated.
  destruct (String.eqb (Competitor.job_id c) job_id
            && String.eqb (Competitor.competitor_url c) competitor_url) eqn:Hc;
    [|auto].
  apply andb_true_iff in Hc as [Hj Hu]. apply String.eqb_eq in Hj, Hu.
  cbn. destruct inventory_path, tools_path; repeat split; assumption.
Qed.

(** [update_competitor_status] neither adds nor removes a row and keeps
    every row id.  Rows are related by id, not by position: every row
    before has its counterpart with the same id after, and conversely; a
    row of another job or another url is left as it is; a row of the job
    and url gets the status and error message supplied, keeps its paths
    where none is supplied, and gets [scraped_at] only with status
    'completed'.  The competitor rows of every other job are the same set
    as before, and the other tables are untouched. *)
Theorem update_competitor_status_rows now job_id competitor_url status
    inventory_path tools_path error_message d :
  let d' := update_competitor_status now job_id competitor_url status
              inventory_path tools_path error_message d in
  let updated := competitor_updated now job_id competitor_url status
                   inventory_path tools_path error_message in
  Permutation (List.map Competitor.id (job_competitors d'))
    (List.map Competitor.id (job_competitors d))
  /\ (forall c, c ∈ job_competitors d ->
        exists c', c' ∈ job_competitors d'
                   /\ Competitor.id c' = Competitor.id c /\ updated c c')
  /\ (forall c', c' ∈ job_competitors d' ->
        exists c, c ∈ job_competitors d
                  /\ Competitor.id c' = Competitor.id c /\ updated c c')
  /\ (forall other c, other <> job_id ->
        c ∈ select_competitors other d' <-> c ∈ select_competitors other d)
  /\ jobs d' = jobs d
  /\ scraped_sites d' = scraped_sites d.
Proof.
  cbn zeta. unfold update_competitor_status, select_competitors.
  cbn [job_competitors with_job_competitors jobs scraped_sites].
  set (f := fun r : Competitor.row =>
              if String.eqb (Competitor.job_id r) job_id
                 && String.eqb (Competitor.competitor_url r) competitor_url
              then set_competitor_status now status inventory_path tools_path
                     error_message r
              else r).
  assert (Hf : forall c,
            competitor_updated now job_id competitor_url status inventory_path tools_path
              error_message c (f c)
            /\ Competitor.id (f c) = Competitor.id c
            /\ Competitor.job_id (f c) = Competitor.job_id c)
    by (intros c; apply set_competitor_status_updated).
  split.
  { rewrite List.map_map.
    rewrite (List.map_ext (fun x => Competitor.id (f x)) Competitor.id)
      by (intros c; apply Hf).
    reflexivity. }
  split.
  { intros c Hc. exists (f c). destruct (Hf c) as (Hup & Hid & _).
    split; [|auto]. apply list_elem_of_In, List.in_map, list_elem_of_In, Hc. }
  split.
  { intros c' Hc'. apply list_elem_of_In, List.in_map_iff in Hc' as (c & <- & Hc).
    exists c. destruct (Hf c) as (Hup & Hid & _).
    split; [apply list_elem_of_In, Hc|auto]. }
  split; [|split; reflexivity].
  intros other c Hother. rewrite !list_elem_of_In, !List.filter_In, List.in_map_iff.
  split.
  - intros [(c0 & <- & Hc0) Hjob]. destruct (Hf c0) as (_ & _ & Hsame).
    rewrite Hsame in Hjob. apply String.eqb_eq in Hjob.
    assert (Hkept : f c0 = c0).
    { subst f. cbn beta.
      destruct (String.eqb_spec (Competitor.job_id c0) job_id) as [Hj|Hj]; [|reflexivity].
      congruence. }
    rewrite Hkept. split; [exact Hc0|]. apply String.eqb_eq, Hjob.
  - intros [Hc Hjob]. apply String.eqb_eq in Hjob.
    assert (Hkept : f c = c).
    { subst f. cbn beta.
      destruct (String.eqb_spec (Competitor.job_id c) job_id) as [Hj|Hj]; [|reflexivity].
      congruence. }
    split; [exists c; auto|]. apply String.eqb_eq, Hjob.
Qed.

(** ** Expiry sweep *)

Lemma expired_not_usable now u r : expired now r = true -> cache_usable now u r = false.
Proof.
  unfold expired, cache_usable. intros H. apply Z.ltb_lt in H.
  destruct (now <? Site.cache_valid_until r) eqn:Hv.
  - apply Z.ltb_lt in Hv. lia.
  - rewrite andb_false_r. reflexivity.
Qed.

Lemma find_filter_irrelevant {A} (f g : A -> bool) (l : list A) :
  (forall x, g x = false -> f x = false) ->
  List.find f (List.filter g l) = List.find f l.
Proof.
  intros Hfg. induction l as [|x l IH]; cbn; [reflexivity|].
  destruct (g x) eqn:Hg; cbn.
  - rewrite IH. reflexivity.
  - rewrite (Hfg x Hg). exact IH.
Qed.

(** What [cleanup_expired] leaves. *)
Lemma cleanup_expired_rows now d :
  let count := fst (cleanup_expired now d) in
  let d' := snd (cleanup_expired now d) in
  (forall r, r ∈ scraped_sites d' <->
             r ∈ scraped_sites d /\ now <= Site.cache_valid_until r)
  /\ (count + length (scraped_sites d') = length (scraped_sites d))%nat
  /\ jobs d' = jobs d
  /\ job_competitors d' = job_competitors d
  /\ (forall u, get_cached_scrape now u d' = get_cached_scrape now u d)
  /\ fst (cleanup_expired now d') = 0%nat.
Proof.
  cbn zeta. unfold cleanup_expired. cbn [fst snd scraped_sites jobs job_competitors].
  split; [|split; [|split; [reflexivity|split; [reflexivity|split]]]].
  - intros r. rewrite !list_elem_of_In, List.filter_In. unfold expired.
    rewrite negb_true_iff, Z.ltb_ge. reflexivity.
  - induction (scraped_sites d) as [|x l IH]; cbn; [reflexivity|].
    destruct (expired now x); cbn; lia.
  - intros u. unfold get_cached_scrape. cbn [scraped_sites].
    apply find_filter_irrelevant. intros r Hr. apply negb_false_iff in Hr.
    apply expired_not_usable, Hr.
  - induction (scraped_sites d) as [|x l IH]; cbn; [reflexivity|].
    destruct (expired now x) eqn:Hx; cbn; [exact IH|]. rewrite Hx. cbn. exact IH.
Qed.

(** [cleanup_expired] removes exactly the rows whose [cache_valid_until]
    lies before now and returns how many they were; the rows it keeps are
    unchanged and in order, none of them is expired, no job or competitor
    row is touched, and no cache lookup made at that moment changes its
    answer. *)
Theorem cleanup_expired_sweeps now d :
  let count := fst (cleanup_expired now d) in
  let d' := snd (cleanup_expired now d) in
  (forall r, r ∈ scraped_sites d' <->
             r ∈ scraped_sites d /\ now <= Site.cache_valid_until r)
  /\ (count + length (scraped_sites d') = length (scraped_sites d))%nat
  /\ jobs d' = jobs d
  /\ job_competitors d' = job_competitors d
  /\ (forall u, get_cached_scrape now u d' = get_cached_scrape now u d)
  /\ fst (cleanup_expired now d') = 0%nat.
Proof. exact (cleanup_expired_rows now d). Qed.

(** ** Retention of jobs *)

(** [cleanup_old_jobs] with cutoff = now - retention, for a retention
    within the range of [datetime] (beyond it the cutoff cannot be
    computed and the call raises): a job row survives exactly when it is
    not both terminal and created before the cutoff, so a 'queued' or
    'processing' job of any age survives; a competitor row survives
    exactly when its job does not appear among the deleted ones; the
    count and the list returned are those of the deleted jobs; the cache
    table is untouched. *)
Theorem cleanup_old_jobs_selects retention_days py_now d :
  cutoff_in_range retention_days py_now ->
  let cutoff := py_now - timedelta_days retention_days in
  let count := fst (fst (cleanup_old_jobs retention_days py_now d)) in
  let old_jobs := snd (fst (cleanup_old_jobs retention_days py_now d)) in
  let d' := snd (cleanup_old_jobs retention_days py_now d) in
  (forall r, r ∈ jobs d' <->
             r ∈ jobs d /\ ~ (Job.created_at r < cutoff
                              /\ (Job.status r = "completed" \/ Job.status r = "failed")))
  /\ (forall r, r ∈ jobs d ->
        Job.status r = "queued" \/ Job.status r = "processing" -> r ∈ jobs d')
  /\ old_jobs = List.map (fun r => (Job.job_id r, Job.data_folder r))
                  (List.filter (old_job cutoff) (jobs d))
  /\ count = length old_jobs
  /\ (forall c, c ∈ job_competitors d' <->
                c ∈ job_competitors d
                /\ ~ Competitor.job_id c ∈ List.map fst old_jobs)
  /\ scraped_sites d' = scraped_sites d.
Proof.
  intros _. cbn zeta. set (cutoff := py_now - timedelta_days retention_days).
  assert (Hold : forall r, old_job cutoff r = true <->
            Job.created_at r < cutoff
            /\ (Job.status r = "completed" \/ Job.status r = "failed")).
  { intros r. unfold old_job, is_terminal.
    rewrite andb_true_iff, orb_true_iff, Z.ltb_lt, !String.eqb_eq. reflexivity. }
  assert (Hjobs : forall r, r ∈ List.filter (fun r => negb (old_job cutoff r)) (jobs d) <->
            r ∈ jobs d /\ ~ (Job.created_at r < cutoff
                             /\ (Job.status r = "completed" \/ Job.status r = "failed"))).
  { intros r. rewrite !list_elem_of_In, List.filter_In, negb_true_iff, <- Hold.
    destruct (old_job cutoff r); split; intros [Hin H]; split; auto; congruence. }
  assert (Hcomp : forall (old : list (string * option string)) c,
            negb (existsb (fun j => String.eqb (fst j) (Competitor.job_id c)) old) = true
            <-> ~ Competitor.job_id c ∈ List.map fst old).
  { intros old c. rewrite negb_true_iff, <- not_true_iff_false, List.existsb_exists.
    rewrite list_elem_of_In, List.in_map_iff. split; intros H (j & Hj1 & Hj2); apply H.
    - exists j. split; [exact Hj2|]. apply String.eqb_eq, Hj1.
    - exists j. apply String.eqb_eq in Hj2. split; assumption. }
  unfold cleanup_old_jobs. fold cutoff.
  destruct (List.map _ (List.filter (old_job cutoff) (jobs d))) as [|p old] eqn:Hsel;
    cbn [fst snd jobs job_competitors scraped_sites].
  - assert (Hnone : forall r, r ∈ jobs d -> old_job cutoff r = false).
    { intros r Hin. destruct (old_job cutoff r) eqn:Hr; [|reflexivity].
      apply List.map_eq_nil in Hsel.
      assert (List.In r (List.filter (old_job cutoff) (jobs d)))
        by (apply List.filter_In; split; [apply list_elem_of_In, Hin|exact Hr]).
      rewrite Hsel in H. contradiction. }
    split; [|split; [|split; [reflexivity|split; [reflexivity|split; [|reflexivity]]]]].
    + intros r. split; [|tauto]. intros Hin. split; [exact Hin|].
      rewrite <- Hold, (Hnone r Hin). discriminate.
    + auto.
    + intros c. cbn [List.map]. split; [|tauto]. intros Hin. split; [exact Hin|].
      intros H. inversion H.
  - split; [exact Hjobs|]. split; [|split; [reflexivity|split; [reflexivity|split; [|reflexivity]]]].
    + intros r Hin Hst. apply Hjobs. split; [exact Hin|].
      intros [_ [H|H]]; destruct Hst as [H'|H']; rewrite H in H'; discriminate.
    + intros c. rewrite list_elem_of_In, List.filter_In, Hcomp, <- list_elem_of_In.
      reflexivity.
Qed.

Lemma cleanup_old_jobs_selects_witness :
  cutoff_in_range 7 (10 * Sample.day)
  /\ snd (fst (cleanup_old_jobs 7 (10 * Sample.day) (db Sample.old_world)))
     = List.map (fun r => (Job.job_id r, Job.data_folder r))
         (List.filter (old_job (10 * Sample.day - timedelta_days 7))
            (jobs (db Sample.old_world))).
Proof.
  assert (Hrange : cutoff_in_range 7 (10 * Sample.day)).
  { unfold cutoff_in_range, timedelta_in_range, datetime_in_range, datetime_min,
      datetime_max, timedelta_days, Sample.day. lia. }
  split; [exact Hrange|].
  exact (proj1 (proj2 (proj2 (cleanup_old_jobs_selects 7 (10 * Sample.day)
                                (db Sample.old_world) Hrange)))).
Defined.

(** ** Save, then look up *)




(** ** The queue *)

Lemma insert_by_created_perm r l : Permutation (insert_by_created r l) (r :: l).
Proof.
  induction l as [|x l IH]; cbn; [reflexivity|].
  destruct (Job.created_at r <? Job.created_at x); [reflexivity|].
  rewrite IH. apply perm_swap.
Qed.

Lemma insert_by_created_sorted r l :
  StronglySorted older_or_same l -> StronglySorted older_or_same (insert_by_created r l).
Proof.
  induction 1 as [|x l Hs IH Hx]; cbn.
  - repeat constructor.
  - destruct (Job.created_at r <? Job.created_at x) eqn:Hlt.
    + apply Z.ltb_lt in Hlt. constructor; [constructor; assumption|].
      constructor; [unfold older_or_same; lia|].
      eapply Forall_impl; [exact Hx|]. unfold older_or_same. intros y Hy. lia.
    + apply Z.ltb_ge in Hlt. constructor; [exact IH|].
      rewrite insert_by_created_perm. constructor; [exact Hlt|exact Hx].
Qed.

Lemma sort_by_created l :
  forall acc,
  StronglySorted older_or_same acc ->
  StronglySorted older_or_same (List.fold_left (fun acc r => insert_by_created r acc) l acc)
  /\ Permutation (List.fold_left (fun acc r => insert_by_created r acc) l acc) (l ++ acc).
Proof.
  induction l as [|x l IH]; intros acc Hacc; cbn; [split; [exact Hacc|reflexivity]|].
  destruct (IH (insert_by_created x acc) (insert_by_created_sorted x acc Hacc)) as [Hs Hp].
  split; [exact Hs|]. rewrite Hp, insert_by_created_perm.
  symmetry. apply Permutation_middle.
Qed.

(** [get_queued_jobs(limit)] returns at most [limit] rows, all of them
    stored rows with status 'queued', ordered by [created_at] ascending;
    the first row returned is at least as old as every queued job in the
    table; and with a positive limit the answer is empty only when no job
    is queued. *)
Theorem get_queued_jobs_oldest_first limit d :
  let res := get_queued_jobs limit d in
  (length res <= limit)%nat
  /\ (forall r, r ∈ res -> r ∈ jobs d /\ Job.status r = "queued")
  /\ StronglySorted older_or_same res
  /\ (forall first q, res !! 0%nat = Some first ->
        q ∈ jobs d -> Job.status q = "queued" -> Job.created_at first <= Job.created_at q)
  /\ ((0 < limit)%nat -> res = [] ->
      forall q, q ∈ jobs d -> Job.status q <> "queued").
Proof.
  cbn zeta. unfold get_queued_jobs.
  set (queued := List.filter (fun r => String.eqb (Job.status r) "queued") (jobs d)).
  destruct (sort_by_created queued [] (SSorted_nil _)) as [Hs Hp].
  set (sorted := List.fold_left _ queued []) in *.
  rewrite List.app_nil_r in Hp.
  assert (Hq : forall r, r ∈ sorted <-> r ∈ jobs d /\ Job.status r = "queued").
  { intros r. rewrite Hp. subst queued.
    rewrite !list_elem_of_In, List.filter_In, String.eqb_eq. reflexivity. }
  split; [rewrite length_take; lia|].
  split; [intros r Hr; apply Hq; eapply subseteq_take; exact Hr|].
  split.
  { clear Hq Hp. revert limit. induction Hs as [|x l Hs IH Hx]; intros [|limit]; cbn;
      try constructor.
    - apply IH.
    - eapply Forall_impl with (P := older_or_same x); [|auto].
      apply Forall_forall. intros y Hy. rewrite Forall_forall in Hx.
      apply Hx. eapply subseteq_take. exact Hy. }
  split.
  - intros first q Hfirst Hin Hst.
    destruct limit as [|limit]; [discriminate|].
    destruct sorted as [|x l] eqn:Hsorted; [discriminate|].
    cbn in Hfirst. injection Hfirst as ->.
    assert (Hqin : q ∈ first :: l) by (apply Hq; split; assumption).
    inversion Hs as [|? ? _ Hall]; subst.
    apply elem_of_cons in Hqin as [->|Hqin]; [lia|].
    rewrite Forall_forall in Hall. exact (Hall q Hqin).
  - intros Hpos Hnil q Hin Hst.
    destruct limit as [|limit]; [lia|].
    destruct sorted as [|x l] eqn:Hsorted; [|discriminate].
    assert (Hqin : q ∈ @nil Job.row) by (apply Hq; split; assumption).
    inversion Hqin.
Qed.

(** ** Job creation *)

Lemma insert_competitors_rows job_id competitor_urls :
  forall seq cs,
  fst (insert_competitors job_id competitor_urls seq cs)
  = cs ++ new_rows job_id competitor_urls seq.
Proof.
  induction competitor_urls as [|comp rest IH]; intros seq cs; cbn.
  - rewrite List.app_nil_r. reflexivity.
  - rewrite IH, <- List.app_assoc. reflexivity.
Qed.

Lemma new_rows_of_job job_id other competitor_urls :
  forall seq,
  List.filter (fun r => String.eqb (Competitor.job_id r) other)
    (new_rows job_id competitor_urls seq)
  = if String.eqb job_id other then new_rows job_id competitor_urls seq else [].
Proof.
  induction competitor_urls as [|comp rest IH]; intros seq; cbn.
  - destruct (String.eqb job_id other); reflexivity.
  - rewrite IH. destruct (String.eqb job_id other); reflexivity.
Qed.

Lemma new_rows_pending job_id competitor_urls :
  forall seq,
  List.map (fun c => (Competitor.competitor_url c, Competitor.competitor_name c))
    (new_rows job_id competitor_urls seq) = competitor_urls
  /\ Forall (fun c => Competitor.status c = "pending"
                      /\ Competitor.inventory_path c = None
                      /\ Competitor.tools_path c = None
                      /\ Competitor.scraped_at c = None)
       (new_rows job_id competitor_urls seq).
Proof.
  induction competitor_urls as [|[u nm] rest IH]; intros seq; cbn.
  - split; constructor.
  - destruct (IH (seq + 1)) as [Hm Hf]. split; [rewrite Hm; reflexivity|].
    constructor; [repeat split|exact Hf].
Qed.

Lemma find_app_other {A} (f : A -> bool) (l : list A) (x : A) :
  f x = false -> List.find f (l ++ [x]) = List.find f l.
Proof.
  intros Hx. induction l as [|y l IH]; cbn; [rewrite Hx; reflexivity|].
  destruct (f y); [reflexivity|exact IH].
Qed.

(** [create_job] on a database where no competitor row refers to the id
    yet (the foreign key): it fails exactly when the id is already stored.
    Otherwise [get_job] then returns the job 'queued', with no step
    completed, [total_steps] = 2 + number of competitors + 2, the metadata
    and data folder supplied, and one 'pending' competitor row per
    competitor, in order, without paths; every other job reads back as
    before, the cache is untouched, and creating the same id again fails. *)
Theorem create_job_stores now job_id client_name client_email competitor_urls data_folder
    metadata d :
  select_competitors job_id d = [] ->
  match create_job now job_id client_name client_email competitor_urls data_folder
          metadata d with
  | None => exists j, select_job job_id d = Some j
  | Some d' =>
      select_job job_id d = None
      /\ (exists j cs,
            get_job job_id d' = Some (j, cs)
            /\ Job.status j = "queued"
            /\ Job.completed_steps j = 0
            /\ Job.total_steps j = 2 + Z.of_nat (length competitor_urls) + 2
            /\ Job.metadata j = metadata
            /\ Job.data_folder j = Some data_folder
            /\ List.map (fun c => (Competitor.competitor_url c, Competitor.competitor_name c))
                 cs = competitor_urls
            /\ Forall (fun c => Competitor.status c = "pending"
                                /\ Competitor.inventory_path c = None
                                /\ Competitor.tools_path c = None
                                /\ Competitor.scraped_at c = None) cs)
      /\ (forall other, other <> job_id -> get_job other d' = get_job other d)
      /\ scraped_sites d' = scraped_sites d
      /\ create_job now job_id client_name client_email competitor_urls data_folder
           metadata d' = None
  end.
Proof.
  intros Hfk. unfold create_job.
  destruct (select_job job_id d) as [j|] eqn:Hsel; [eauto|].
  pose proof (insert_competitors_rows job_id competitor_urls
                (job_competitors_id_seq d) (job_competitors d)) as Hrows.
  destruct (insert_competitors job_id competitor_urls (job_competitors_id_seq d)
              (job_competitors d)) as [cs seq].
  cbn [fst] in Hrows. subst cs.
  split; [reflexivity|].
  assert (Hnew : select_job job_id
            (mk_database
               (jobs d ++
                [Job.mk job_id client_name client_email "queued" (Some 0) None
                   (2 + Z.of_nat (length competitor_urls) + 2) 0 None now now None None
                   (Some data_folder) metadata])
               (scraped_sites d) (scraped_sites_id_seq d)
               (job_competitors d ++ new_rows job_id competitor_urls (job_competitors_id_seq d))
               seq)
          = Some (Job.mk job_id client_name client_email "queued" (Some 0) None
                    (2 + Z.of_nat (length competitor_urls) + 2) 0 None now now None None
                    (Some data_folder) metadata)).
  { unfold select_job in *. cbn [jobs]. rewrite (find_app_none _ _ _ Hsel).
    cbn. rewrite String.eqb_refl. reflexivity. }
  split; [|split; [|split; [reflexivity|]]].
  - unfold get_job. rewrite Hnew. eexists _, _. split; [reflexivity|].
    cbn [Job.status Job.completed_steps Job.total_steps Job.metadata Job.data_folder].
    do 5 (split; [reflexivity|]).
    unfold select_competitors in *. cbn [job_competitors].
    rewrite List.filter_app, Hfk, new_rows_of_job, String.eqb_refl. cbn [List.app].
    apply new_rows_pending.
  - intros other Hne. unfold get_job, select_job, select_competitors.
    cbn [jobs job_competitors].
    rewrite find_app_other
      by (cbn; apply String.eqb_neq; congruence).
    rewrite List.filter_app, new_rows_of_job.
    assert (Hno : String.eqb job_id other = false) by (apply String.eqb_neq; congruence).
    rewrite Hno, List.app_nil_r. reflexivity.
  - rewrite Hnew. reflexivity.
Qed.

Lemma create_job_stores_witness :
  exists j cs,
    get_job "job_1" (Sample.submitted Sample.two_rivals Sample.payloads) = Some (j, cs)
    /\ Job.total_steps j = 6
    /\ length cs = 2%nat.
Proof.
  pose proof (create_job_stores 10 "job_1" "Acme Motors" "owner@acme.test" Sample.two_rivals
                "data/jobs/job_1" Sample.payloads Sample.empty_db eq_refl) as H.
  cbn in H. destruct H as (_ & (j & cs & Hget & _ & _ & Htot & _ & _ & Hmap & _) & _).
  exists j, cs. split; [exact Hget|]. split; [exact Htot|].
  rewrite <- (List.length_map (fun c => (Competitor.competitor_url c, Competitor.competitor_name c))), Hmap.
  reflexivity.
Defined.

(** * Further properties of the cleanup script *)

Lemma rmtree_spec path fs p :
  p ∈ rmtree path fs <-> p ∈ fs /\ under path p = false.
Proof. unfold rmtree. rewrite elem_of_filter. tauto. Qed.

Lemma under_self path : under path path = true.
Proof. unfold under. rewrite String.eqb_refl. reflexivity. Qed.

(** What [cleanup_data_folders] leaves on disk. *)
Lemma cleanup_data_folders_left rmtree_raises old_jobs dry_run fs :
  let res := cleanup_data_folders rmtree_raises old_jobs dry_run fs in
  (forall p, p ∈ snd res -> p ∈ fs)
  /\ (fst (fst res) <= length old_jobs)%nat
  /\ (dry_run = true -> snd res = fs /\ fst (fst res) = 0%nat)
  /\ (dry_run = false ->
      (forall id f, (id, Some f) ∈ old_jobs -> f <> "" -> rmtree_raises f = false ->
         f ∉ snd res)
      /\ (forall p, p ∈ fs ->
            (forall id f, (id, Some f) ∈ old_jobs -> under f p = false) ->
            p ∈ snd res)).
Proof.
  cbn zeta. revert fs. induction old_jobs as [|[id0 folder] rest IH]; intros fs.
  - cbn. split; [auto|]. split; [lia|]. split; [auto|]. intros _. split.
    + intros id f Hin. inversion Hin.
    + auto.
  - assert (Hskip :
      (forall p, p ∈ snd (cleanup_data_folders rmtree_raises rest dry_run fs) -> p ∈ fs)
      /\ (fst (fst (cleanup_data_folders rmtree_raises rest dry_run fs)) <= length rest)%nat
      /\ (dry_run = true ->
          snd (cleanup_data_folders rmtree_raises rest dry_run fs) = fs
          /\ fst (fst (cleanup_data_folders rmtree_raises rest dry_run fs)) = 0%nat)
      /\ (dry_run = false ->
          (forall id f, (id, Some f) ∈ rest -> f <> "" -> rmtree_raises f = false ->
             f ∉ snd (cleanup_data_folders rmtree_raises rest dry_run fs))
          /\ (forall p, p ∈ fs ->
                (forall id f, (id, Some f) ∈ rest -> under f p = false) ->
                p ∈ snd (cleanup_data_folders rmtree_raises rest dry_run fs))))
      by apply IH.
    cbn [cleanup_data_folders snd].
    destruct folder as [data_folder|].
    2: { destruct Hskip as (Hsub & Hn & Hdry & Hlive).
         split; [exact Hsub|]. split; [cbn [length]; lia|]. split; [exact Hdry|].
         intros Hl. destruct (Hlive Hl) as [Hgone Hkept]. split.
         - intros id f Hin. apply elem_of_cons in Hin as [Heq|Hin]; [discriminate|].
           eapply Hgone, Hin.
         - intros p Hp Hfree. apply Hkept; [exact Hp|].
           intros id f Hin. eapply Hfree. apply elem_of_cons. right. exact Hin. }
    destruct (String.eqb data_folder "") eqn:Hempty.
    { apply String.eqb_eq in Hempty. subst data_folder.
      destruct Hskip as (Hsub & Hn & Hdry & Hlive).
      split; [exact Hsub|]. split; [cbn [length]; lia|]. split; [exact Hdry|].
      intros Hl. destruct (Hlive Hl) as [Hgone Hkept]. split.
      - intros id f Hin Hne. apply elem_of_cons in Hin as [Heq|Hin];
          [injection Heq as _ ->; contradiction|]. eapply Hgone; eassumption.
      - intros p Hp Hfree. apply Hkept; [exact Hp|].
        intros id f Hin. eapply Hfree. apply elem_of_cons. right. exact Hin. }
    destruct (bool_decide (data_folder ∈ fs)) eqn:Hexists; cbn [negb].
    2: { apply bool_decide_eq_false in Hexists.
         destruct (cleanup_data_folders rmtree_raises rest dry_run fs) as [[n out] fs'].
         cbn [fst snd] in *. destruct Hskip as (Hsub & Hn & Hdry & Hlive).
         split; [exact Hsub|]. split; [cbn [length]; lia|]. split; [exact Hdry|].
         intros Hl. destruct (Hlive Hl) as [Hgone Hkept]. split.
         - intros id f Hin Hne Hok. apply elem_of_cons in Hin as [Heq|Hin].
           + injection Heq as _ <-. intros Hf. apply Hexists, Hsub, Hf.
           + eapply Hgone; eassumption.
         - intros p Hp Hfree. apply Hkept; [exact Hp|].
           intros id f Hin. eapply Hfree. apply elem_of_cons. right. exact Hin. }
    apply bool_decide_eq_true in Hexists.
    destruct dry_run.
    { destruct (cleanup_data_folders rmtree_raises rest true fs) as [[n out] fs'].
      cbn [fst snd] in *. destruct Hskip as (Hsub & Hn & Hdry & _).
      split; [exact Hsub|]. split; [cbn [length]; lia|]. split; [exact Hdry|]. discriminate. }
    destruct (rmtree_raises data_folder) eqn:Hraise.
    { destruct (cleanup_data_folders rmtree_raises rest false fs) as [[n out] fs'].
      cbn [fst snd] in *. destruct Hskip as (Hsub & Hn & _ & Hlive).
      split; [exact Hsub|]. split; [cbn [length]; lia|]. split; [discriminate|].
      intros _. destruct (Hlive eq_refl) as [Hgone Hkept]. split.
      - intros id f Hin Hne Hok. apply elem_of_cons in Hin as [Heq|Hin].
        + injection Heq as _ <-. congruence.
        + eapply Hgone; eassumption.
      - intros p Hp Hfree. apply Hkept; [exact Hp|].
        intros id f Hin. eapply Hfree. apply elem_of_cons. right. exact Hin. }
    specialize (IH (rmtree data_folder fs)).
    destruct (cleanup_data_folders rmtree_raises rest false (rmtree data_folder fs))
      as [[n out] fs'].
    cbn [fst snd] in *. destruct IH as (Hsub & Hn & _ & Hlive).
    destruct (Hlive eq_refl) as [Hgone Hkept].
    split; [intros p Hp; apply Hsub, rmtree_spec in Hp; tauto|].
    split; [cbn [length]; lia|]. split; [discriminate|]. intros _. split.
    + intros id f Hin Hne Hok. apply elem_of_cons in Hin as [Heq|Hin].
      * injection Heq as _ <-. intros Hf. apply Hsub, rmtree_spec in Hf as [_ Hf].
        rewrite under_self in Hf. discriminate.
      * eapply Hgone; eassumption.
    + intros p Hp Hfree. apply Hkept.
      * apply rmtree_spec. split; [exact Hp|]. eapply Hfree. apply elem_of_cons. left.
        reflexivity.
      * intros id f Hin. eapply Hfree. apply elem_of_cons. right. exact Hin.
Qed.

(** [cleanup_data_folders] never creates a directory and reports at most
    one deletion per job.  In a dry run it deletes nothing and counts
    nothing.  In a live run the data folder of every listed job is gone
    afterwards unless its removal raised, and a directory that lies under
    no listed data folder is still there. *)
Theorem cleanup_data_folders_effect rmtree_raises old_jobs dry_run fs :
  let res := cleanup_data_folders rmtree_raises old_jobs dry_run fs in
  (forall p, p ∈ snd res -> p ∈ fs)
  /\ (fst (fst res) <= length old_jobs)%nat
  /\ (dry_run = true -> snd res = fs /\ fst (fst res) = 0%nat)
  /\ (dry_run = false ->
      (forall id f, (id, Some f) ∈ old_jobs -> f <> "" -> rmtree_raises f = false ->
         f ∉ snd res)
      /\ (forall p, p ∈ fs ->
            (forall id f, (id, Some f) ∈ old_jobs -> under f p = false) ->
            p ∈ snd res)).
Proof. exact (cleanup_data_folders_left rmtree_raises old_jobs dry_run fs). Qed.

Lemma old_jobs_listed cutoff (js : list Job.row) id f :
  (id, Some f) ∈ List.map (fun r => (Job.job_id r, Job.data_folder r))
                   (List.filter (old_job cutoff) js)
  <-> exists r, r ∈ js /\ old_job cutoff r = true
                /\ Job.job_id r = id /\ Job.data_folder r = Some f.
Proof.
  rewrite list_elem_of_In, List.in_map_iff. split.
  - intros (r & Heq & Hin). apply List.filter_In in Hin as [Hin Hold].
    injection Heq as Hid Hf. exists r. rewrite list_elem_of_In. auto.
  - intros (r & Hin & Hold & Hid & Hf). exists r. split; [congruence|].
    apply List.filter_In. split; [apply list_elem_of_In, Hin|exact Hold].
Qed.

Lemma cleanup_old_jobs_result retention_days py_now d :
  let cutoff := py_now - timedelta_days retention_days in
  let old := List.map (fun r => (Job.job_id r, Job.data_folder r))
               (List.filter (old_job cutoff) (jobs d)) in
  exists d1,
    cleanup_old_jobs retention_days py_now d = ((length old, old), d1)
    /\ (forall r, r ∈ jobs d1 <-> r ∈ jobs d /\ old_job cutoff r = false)
    /\ scraped_sites d1 = scraped_sites d.
Proof.
  cbn zeta. unfold cleanup_old_jobs.
  set (cutoff := py_now - timedelta_days retention_days).
  destruct (List.map _ (List.filter (old_job cutoff) (jobs d))) as [|p old] eqn:Hsel.
  - exists d. split; [reflexivity|]. split; [|reflexivity].
    intros r. split; [|tauto]. intros Hin. split; [exact Hin|].
    destruct (old_job cutoff r) eqn:Hr; [|reflexivity].
    apply List.map_eq_nil in Hsel.
    assert (List.In r (List.filter (old_job cutoff) (jobs d)))
      by (apply List.filter_In; split; [apply list_elem_of_In, Hin|exact Hr]).
    rewrite Hsel in H. contradiction.
  - eexists. split; [reflexivity|]. cbn [jobs scraped_sites]. split; [|reflexivity].
    intros r. rewrite !list_elem_of_In, List.filter_In, negb_true_iff. reflexivity.
Qed.

(** A live [run_cleanup] whose job part, when it runs, has a retention
    within the range of [datetime] (beyond it [cleanup_old_jobs] raises,
    and the script returns False without sweeping the cache).  With
    [cache_only] the jobs, their competitor rows and the directories are
    untouched; with [jobs_only] the cache is untouched.  Otherwise the job
    rows left are exactly those that are not
    terminal-and-older-than-retention; the data folder of every deleted job
    is gone unless its removal raised; a directory under no deleted job's
    folder is still there; and the cache rows left are exactly those not
    yet expired. *)
Theorem run_cleanup_live rmtree_raises retention_days cache_only jobs_only py_now now w :
  (cache_only = false -> cutoff_in_range retention_days py_now) ->
  let w' := snd (run_cleanup rmtree_raises retention_days false cache_only jobs_only
                   py_now now w) in
  let cutoff := py_now - timedelta_days retention_days in
  (cache_only = true ->
     jobs (db w') = jobs (db w)
     /\ job_competitors (db w') = job_competitors (db w)
     /\ folders w' = folders w)
  /\ (jobs_only = true -> scraped_sites (db w') = scraped_sites (db w))
  /\ (cache_only = false ->
      (forall r, r ∈ jobs (db w') <-> r ∈ jobs (db w) /\ old_job cutoff r = false)
      /\ (forall r f, r ∈ jobs (db w) -> old_job cutoff r = true ->
            Job.data_folder r = Some f -> f <> "" -> rmtree_raises f = false ->
            f ∉ folders w')
      /\ (forall p, p ∈ folders w ->
            (forall r f, r ∈ jobs (db w) -> old_job cutoff r = true ->
               Job.data_folder r = Some f -> under f p = false) ->
            p ∈ folders w'))
  /\ (jobs_only = false ->
      forall r, r ∈ scraped_sites (db w') <->
                r ∈ scraped_sites (db w) /\ now <= Site.cache_valid_until r).
Proof.
  intros _. cbn zeta. set (cutoff := py_now - timedelta_days retention_days).
  unfold run_cleanup.
  destruct (cleanup_old_jobs_result retention_days py_now (db w))
    as (d1 & Hclean & Hjobs & Hsites).
  cbn zeta in Hclean, Hjobs. fold cutoff in Hclean, Hjobs.
  set (old := List.map (fun r => (Job.job_id r, Job.data_folder r))
                (List.filter (old_job cutoff) (jobs (db w)))) in *.
  rewrite Hclean.
  pose proof (cleanup_data_folders_left rmtree_raises old false (folders w)) as Hfs.
  cbn zeta in Hfs. destruct Hfs as (_ & _ & _ & Hlive).
  destruct (Hlive eq_refl) as [Hgone Hkept]. clear Hlive.
  assert (Hlisted : forall id f, (id, Some f) ∈ old <->
            exists r, r ∈ jobs (db w) /\ old_job cutoff r = true
                      /\ Job.job_id r = id /\ Job.data_folder r = Some f)
    by (intros id f; apply old_jobs_listed).
  pose proof (cleanup_expired_rows now) as Hsweep. cbn zeta in Hsweep.
  destruct cache_only; cbn [negb].
  - (* cache only *)
    split.
    { intros _. destruct jobs_only; cbn [negb snd]; [auto|].
      destruct (cleanup_expired now (db w)) as [c d2] eqn:Hexp.
      destruct (Hsweep (db w)) as (_ & _ & Hj & Hc & _). rewrite Hexp in Hj, Hc.
      cbn [snd db folders] in *. auto. }
    split.
    { intros ->. reflexivity. }
    split; [discriminate|].
    intros ->. cbn [negb snd].
    destruct (cleanup_expired now (db w)) as [c d2] eqn:Hexp.
    destruct (Hsweep (db w)) as (Hrows & _). rewrite Hexp in Hrows.
    cbn [snd db] in *. exact Hrows.
  - (* jobs, and the cache unless jobs_only *)
    set (part1 :=
      if Nat.eqb (length old) 0 then ([NoOldJobs], mk_world d1 (folders w))
      else match old with
           | [] => ([DeletedJobs (length old)], mk_world d1 (folders w))
           | _ => let '(deleted, out, fs) :=
                    cleanup_data_folders rmtree_raises old false (folders w) in
                  (DeletedJobs (length old) :: out ++ [DeletedFolders deleted (length old)],
                   mk_world d1 fs)
           end).
    assert (H1 : db (snd part1) = d1
                 /\ (forall id f, (id, Some f) ∈ old -> f <> "" -> rmtree_raises f = false ->
                       f ∉ folders (snd part1))
                 /\ (forall p, p ∈ folders w ->
                       (forall id f, (id, Some f) ∈ old -> under f p = false) ->
                       p ∈ folders (snd part1))).
    { subst part1. destruct old as [|p old'] eqn:Hold.
      - cbn. split; [reflexivity|]. split; [|auto].
        intros id f Hin. inversion Hin.
      - cbn [length Nat.eqb]. rewrite <- Hold in *.
        destruct (cleanup_data_folders rmtree_raises old false (folders w))
          as [[n out] fs].
        cbn [fst snd db folders] in *. rewrite Hold. cbn [snd db folders].
        rewrite <- Hold. auto. }
    destruct H1 as (Hdb1 & Hgone1 & Hkept1).
    fold part1. destruct part1 as [out1 w1]. cbn [snd] in *.
    assert (Hw' : forall (w2 : world),
              jobs (db w2) = jobs d1 -> folders w2 = folders w1 ->
              (forall r, r ∈ jobs (db w2) <-> r ∈ jobs (db w) /\ old_job cutoff r = false)
              /\ (forall r f, r ∈ jobs (db w) -> old_job cutoff r = true ->
                    Job.data_folder r = Some f -> f <> "" -> rmtree_raises f = false ->
                    f ∉ folders w2)
              /\ (forall p, p ∈ folders w ->
                    (forall r f, r ∈ jobs (db w) -> old_job cutoff r = true ->
                       Job.data_folder r = Some f -> under f p = false) ->
                    p ∈ folders w2)).
    { intros w2 Hj2 Hf2. rewrite Hj2, Hf2. split; [exact Hjobs|]. split.
      - intros r f Hin Hold Hf Hne Hok. apply (Hgone1 (Job.job_id r) f); auto.
        apply Hlisted. exists r. auto.
      - intros p Hp Hfree. apply Hkept1; [exact Hp|].
        intros id f Hin. apply Hlisted in Hin as (r & Hin & Hold & _ & Hf). eauto. }
    split; [discriminate|].
    destruct jobs_only; cbn [negb snd].
    + split; [intros _; rewrite Hdb1; exact Hsites|].
      split; [intros _; apply Hw'; [rewrite Hdb1; reflexivity|reflexivity]|discriminate].
    + destruct (cleanup_expired now (db w1)) as [c d2] eqn:Hexp.
      destruct (Hsweep (db w1)) as (Hrows & _ & Hj & _). rewrite Hexp in Hrows, Hj.
      cbn [snd db folders] in *.
      split; [discriminate|].
      split; [intros _; apply (Hw' (mk_world d2 (folders w1)));
              [cbn [db]; rewrite Hj, Hdb1; reflexivity|reflexivity]|].
      intros _ r. rewrite Hrows, Hdb1, Hsites. reflexivity.
Qed.

Lemma run_cleanup_live_witness :
  (false = false -> cutoff_in_range 7 (10 * Sample.day))
  /\ forall r,
       r ∈ scraped_sites
             (db (snd (run_cleanup (fun _ => false) 7 false false false
                         (10 * Sample.day) (10 * Sample.day) Sample.old_world)))
       <-> r ∈ scraped_sites (db Sample.old_world)
           /\ 10 * Sample.day <= Site.cache_valid_until r.
Proof.
  assert (Hrange : false = false -> cutoff_in_range 7 (10 * Sample.day)).
  { intros _. unfold cutoff_in_range, timedelta_in_range, datetime_in_range, datetime_min,
      datetime_max, timedelta_days, Sample.day. lia. }
  split; [exact Hrange|].
  exact (proj2 (proj2 (proj2 (run_cleanup_live (fun _ => false) 7 false false
                                (10 * Sample.day) (10 * Sample.day) Sample.old_world
                                Hrange))) eq_refl).
Defined.

(** * Further properties of the orchestrator *)

(** ** Legacy metadata *)

(** The key translation at the head of [process_job].  Metadata that has
    'inventory_json' is left alone, and so is metadata that has neither it
    nor 'csv1_json'.  Otherwise 'inventory_json' becomes the value of
    'csv1_json' and 'tools_json' becomes the value of 'csv2_json', or '[]'
    when that is missing; a 'tools_json' already present is overwritten and
    every other key is kept.  Translating twice is translating once. *)
Theorem convert_legacy_keys (metadata : gmap string string) :
  (is_Some (metadata !! "inventory_json") -> convert_legacy metadata = metadata)
  /\ (metadata !! "inventory_json" = None -> metadata !! "csv1_json" = None ->
      convert_legacy metadata = metadata)
  /\ (forall csv1, metadata !! "inventory_json" = None ->
        metadata !! "csv1_json" = Some csv1 ->
        convert_legacy metadata !! "inventory_json" = Some csv1
        /\ convert_legacy metadata !! "tools_json"
           = Some (default "[]" (metadata !! "csv2_json"))
        /\ (forall k, k <> "inventory_json" -> k <> "tools_json" ->
              convert_legacy metadata !! k = metadata !! k))
  /\ convert_legacy (convert_legacy metadata) = convert_legacy metadata.
Proof.
  unfold convert_legacy.
  split; [|split; [|split]].
  - intros [v Hv]. rewrite Hv. reflexivity.
  - intros -> ->. reflexivity.
  - intros csv1 -> ->. split; [|split].
    + rewrite lookup_insert_ne by discriminate. apply lookup_insert_eq.
    + apply lookup_insert_eq.
    + intros k Hk1 Hk2. rewrite !lookup_insert_ne by congruence. reflexivity.
  - destruct (metadata !! "inventory_json") as [v|] eqn:Hinv.
    + rewrite Hinv. reflexivity.
    + destruct (metadata !! "csv1_json") as [csv1|] eqn:Hcsv.
      * rewrite lookup_insert_ne by discriminate. rewrite lookup_insert_eq. reflexivity.
      * rewrite Hinv, Hcsv. reflexivity.
Qed.

(** ** Retry budget of the scraper *)

Lemma scrape_attempts_all_fail cfg E job_id data_folder i comp_url comp_name :
  forall remaining attempt r,
  attempt + Z.of_nat remaining = scraper_max_retries cfg + 1 ->
  (forall a ts, attempt <= a <= scraper_max_retries cfg ->
     exists e, _run_scraper E i a comp_url comp_name data_folder ts = inl e) ->
  exists es,
    scrape_attempts cfg E job_id data_folder i comp_url comp_name remaining attempt r
    = (Ok None, mk_run (run_db r) (statements r) (trace r ++ es))
    /\ omap attempt_number es
       = List.map (fun k => attempt + Z.of_nat k) (List.seq 0 remaining)
    /\ pauses es = List.repeat 2 (Nat.pred remaining).
Proof.
  induction remaining as [|remaining IH]; intros attempt r Hmax Hfail.
  - cbn [scrape_attempts]. run_all. exists []. rewrite List.app_nil_r.
    destruct r. split; [reflexivity|]. split; reflexivity.
  - cbn [scrape_attempts]. run_all.
    destruct (Hfail attempt (time_time E (statements r)) ltac:(lia)) as [e He].
    rewrite He.
    destruct remaining as [|remaining'].
    + (* the last attempt: no pause *)
      assert (Hlast : (attempt <? scraper_max_retries cfg) = false) by (apply Z.ltb_ge; lia).
      rewrite Hlast. run_all. cbn [scrape_attempts]. run_all.
      exists [ScrapeAttempt i attempt comp_url]. split; [reflexivity|].
      cbn. rewrite Z.add_0_r. split; reflexivity.
    + assert (Hmore : (attempt <? scraper_max_retries cfg) = true) by (apply Z.ltb_lt; lia).
      rewrite Hmore. run_all.
      destruct (IH (attempt + 1)
                  (mk_run (run_db r) (statements r)
                     ((trace r ++ [ScrapeAttempt i attempt comp_url]) ++ [Sleep 2])))
        as (es & Hrun & Hnum & Hsleep); [lia|intros a ts Ha; apply Hfail; lia|].
      rewrite Hrun. cbn [run_db statements trace].
      exists (ScrapeAttempt i attempt comp_url :: Sleep 2 :: es).
      split; [rewrite <- !List.app_assoc; reflexivity|].
      split.
      * change (omap attempt_number (ScrapeAttempt i attempt comp_url :: Sleep 2 :: es))
          with (attempt :: omap attempt_number es).
        rewrite Hnum.
        change (List.seq 0 (S (S remaining'))) with (0%nat :: List.seq 1 (S remaining')).
        cbn [List.map]. rewrite Z.add_0_r. f_equal.
        rewrite <- List.seq_shift, List.map_map. apply List.map_ext. intros k. lia.
      * change (pauses (ScrapeAttempt i attempt comp_url :: Sleep 2 :: es))
          with (2 :: pauses es).
        rewrite Hsleep. reflexivity.
Qed.

(** When every run of the scraper for a competitor fails, the attempts are
    numbered 1 to [scraper_max_retries] and there are no more, a pause of
    two seconds separates consecutive attempts, the result is a failure,
    and the database is exactly as before: nothing is cached and no row is
    touched.  With a budget of zero or less there is no attempt at all. *)
Theorem scrape_attempts_exhausted cfg E job_id data_folder i comp_url comp_name r :
  (forall a ts, 1 <= a <= scraper_max_retries cfg ->
     exists e, _run_scraper E i a comp_url comp_name data_folder ts = inl e) ->
  exists es,
    scrape_attempts cfg E job_id data_folder i comp_url comp_name
      (Z.to_nat (scraper_max_retries cfg)) 1 r
    = (Ok None, mk_run (run_db r) (statements r) (trace r ++ es))
    /\ omap attempt_number es
       = List.map (fun k => 1 + Z.of_nat k) (List.seq 0 (Z.to_nat (scraper_max_retries cfg)))
    /\ pauses es = List.repeat 2 (Nat.pred (Z.to_nat (scraper_max_retries cfg)))
    /\ (scraper_max_retries cfg <= 0 -> es = []).
Proof.
  intros Hfail.
  destruct (Z_le_gt_dec (scraper_max_retries cfg) 0) as [Hle|Hgt].
  - assert (Hz : Z.to_nat (scraper_max_retries cfg) = 0%nat) by lia.
    rewrite Hz. cbn [scrape_attempts]. run_all. exists []. rewrite List.app_nil_r.
    destruct r. repeat split; reflexivity.
  - destruct (scrape_attempts_all_fail cfg E job_id data_folder i comp_url comp_name
                (Z.to_nat (scraper_max_retries cfg)) 1 r) as (es & Hrun & Hnum & Hsleep);
      [lia|exact Hfail|].
    exists es. split; [exact Hrun|]. split; [exact Hnum|]. split; [exact Hsleep|]. lia.
Qed.

Lemma scrape_attempts_exhausted_witness :
  exists es,
    scrape_attempts Sample.defaults Sample.scraper_offline "job_1" "data/jobs/job_1" 1
      "http://x.test" "X" 2 1 (Sample.start Sample.empty_db)
    = (Ok None, mk_run Sample.empty_db 0 ([] ++ es))
    /\ omap attempt_number es = [1; 2].
Proof.
  destruct (scrape_attempts_exhausted Sample.defaults Sample.scraper_offline "job_1"
              "data/jobs/job_1" 1 "http://x.test" "X" (Sample.start Sample.empty_db))
    as (es & Hrun & Hnum & _).
  - intros a ts _. eexists. reflexivity.
  - exists es. split; [exact Hrun|exact Hnum].
Defined.

(** ** Cache hits *)

(** A competitor whose url has a usable cache row with both files still on
    disk is resolved from the cache: the scraper is not run, the cache
    table is not written, the competitor's rows become 'completed' with the
    cached paths, the competitor is added to the data passed on to the
    analysis, no failure is counted and the step is counted and stored. *)
Theorem cache_hit_skips_scraper cfg E job_id data_folder competitors i comp l r c inv tools :
  get_cached_scrape (current_timestamp E (statements r)) (Competitor.competitor_url comp)
    (run_db r) = Some c ->
  Site.inventory_path c = Some inv -> Site.tools_path c = Some tools ->
  path_exists E i inv = true -> path_exists E i tools = true ->
  exists r',
    resolve_competitor cfg E job_id data_folder competitors i comp l r
    = (Ok (mk_locals (completed_steps l + 1) (failed_competitors l)
             (competitors_data l
              ++ [mk_competitor_data (Competitor.competitor_name comp)
                    (Competitor.competitor_url comp) inv tools])), r')
    /\ (exists row, trace r' = trace r ++ [CacheLookup i (Competitor.competitor_url comp);
                                           JobRow row])
    /\ scraped_sites (run_db r') = scraped_sites (run_db r)
    /\ (forall c', c' ∈ job_competitors (run_db r') ->
          Competitor.job_id c' = job_id ->
          Competitor.competitor_url c' = Competitor.competitor_url comp ->
          Competitor.status c' = "completed"
          /\ Competitor.inventory_path c' = Some inv
          /\ Competitor.tools_path c' = Some tools)
    /\ persisted_steps job_id r'
       = (fun _ => completed_steps l + 1) <$> select_job job_id (run_db r).
Proof.
  intros Hget Hinv Htools Hex1 Hex2.
  unfold resolve_competitor, cache_hit, cached_files. run_all.
  rewrite Hget. run_all. rewrite Hinv. run_all. rewrite Hex1. run_all.
  rewrite Htools. run_all. rewrite Hex2. run_all.
  eexists. split; [reflexivity|]. cbn [run_db trace].
  split; [rewrite <- !List.app_assoc; eexists; reflexivity|].
  split; [reflexivity|]. split.
  - intros c' Hc' Hid Hu.
    change (job_competitors (update_progress _ _ _ ?d)) with (job_competitors d) in Hc'.
    unfold update_competitor_status in Hc'. cbn [job_competitors with_job_competitors] in Hc'.
    apply list_elem_of_In, List.in_map_iff in Hc' as (c0 & Hc0 & _).
    destruct (String.eqb (Competitor.job_id c0) job_id
              && String.eqb (Competitor.competitor_url c0) (Competitor.competitor_url comp))
      eqn:Hcond.
    + subst c'. cbn. auto.
    + subst c0. rewrite Hid, Hu, !String.eqb_refl in Hcond. discriminate.
  - unfold persisted_steps. cbn [run_db]. rewrite select_job_update_progress.
    change (select_job job_id (update_competitor_status ?a ?b ?c ?d ?e ?f ?g ?h))
      with (select_job job_id h).
    destruct (select_job job_id (run_db r)); reflexivity.
Qed.

Lemma cache_hit_skips_scraper_witness :
  exists r' l',
    resolve_competitor Sample.defaults Sample.smooth "job_1" "data/jobs/job_1"
      [Sample.row_x; Sample.row_y] 1 Sample.row_x (mk_locals 1 0 []) (Sample.start Warm.db)
    = (Ok l', r')
    /\ scraped_sites (run_db r') = [Warm.cached].
Proof.
  destruct (cache_hit_skips_scraper Sample.defaults Sample.smooth "job_1" "data/jobs/job_1"
              [Sample.row_x; Sample.row_y] 1 Sample.row_x (mk_locals 1 0 [])
              (Sample.start Warm.db) Warm.cached "cache/inventory.json" "cache/tools.json"
              eq_refl eq_refl eq_refl eq_refl eq_refl)
    as (r' & Hrun & _ & Hsites & _).
  exists r'. eexists. split; [exact Hrun|exact Hsites].
Defined.

(** ** Terminal states *)

Lemma only_job_refl job_id l : only_job job_id l l.
Proof. induction l; constructor; auto. Qed.

Lemma only_job_trans job_id l1 l2 l3 :
  only_job job_id l1 l2 -> only_job job_id l2 l3 -> only_job job_id l1 l3.
Proof.
  intros H12. revert l3. induction H12 as [|a b l1 l2 [Hid Hsame] _ IH]; intros l3 H23.
  - inversion H23. constructor.
  - inversion H23 as [|? c ? l3' [Hid' Hsame'] Hrest]; subst. constructor; [|apply IH, Hrest].
    split; [congruence|]. intros Hne. rewrite <- (Hsame Hne). apply Hsame'. congruence.
Qed.

Lemma only_job_map job_id (g : Job.row -> Job.row) l :
  (forall r, Job.job_id (g r) = Job.job_id r) ->
  only_job job_id l
    (List.map (fun r => if String.eqb (Job.job_id r) job_id then g r else r) l).
Proof.
  intros Hg. induction l as [|x l IH]; cbn; constructor; [|exact IH].
  destruct (String.eqb (Job.job_id x) job_id) eqn:Hx.
  - split; [apply Hg|]. apply String.eqb_eq in Hx. contradiction.
  - auto.
Qed.

Lemma only_job_status job_id l now status current_step error_message d :
  only_job job_id l (jobs d) ->
  only_job job_id l (jobs (update_status now job_id status current_step error_message d)).
Proof.
  intros H. eapply only_job_trans; [exact H|]. apply only_job_map. reflexivity.
Qed.

Lemma only_job_progress job_id l now n d :
  only_job job_id l (jobs d) ->
  only_job job_id l (jobs (update_progress now job_id n d)).
Proof.
  intros H. eapply only_job_trans; [exact H|]. apply only_job_map. reflexivity.
Qed.

Lemma only_job_other job_id other l l' :
  only_job job_id l l' -> other <> job_id ->
  List.find (fun r => String.eqb (Job.job_id r) other) l'
  = List.find (fun r => String.eqb (Job.job_id r) other) l.
Proof.
  intros H Hne. induction H as [|a b l l' [Hid Hsame] _ IH]; [reflexivity|].
  cbn. rewrite Hid. destruct (String.eqb (Job.job_id a) other) eqn:Ha; [|exact IH].
  apply String.eqb_eq in Ha. rewrite Hsame by congruence. reflexivity.
Qed.

Lemma only_job_present job_id l l' j :
  only_job job_id l l' ->
  List.find (fun r => String.eqb (Job.job_id r) job_id) l = Some j ->
  exists j', List.find (fun r => String.eqb (Job.job_id r) job_id) l' = Some j'.
Proof.
  intros H. induction H as [|a b l l' [Hid Hsame] _ IH]; [discriminate|].
  cbn. rewrite Hid. destruct (String.eqb (Job.job_id a) job_id); eauto.
Qed.

(** The jobs table of an explicit database, peeled back to where it
    started. *)
Ltac only_job_tac :=
  repeat first
    [ apply only_job_refl
    | assumption
    | apply only_job_status
    | apply only_job_progress
    | match goal with
      | |- only_job _ _ (jobs (update_competitor_status _ _ _ _ _ _ _ ?d)) =>
          change (jobs (update_competitor_status _ _ _ _ _ _ _ d)) with (jobs d)
      | |- only_job _ _ (jobs (save_scrape _ _ _ _ _ _ _ _ _ _ _ ?d)) =>
          change (jobs (save_scrape _ _ _ _ _ _ _ _ _ _ _ d)) with (jobs d)
      end ].

Ltac nonempty := cbn [String.append]; discriminate.

Ltac failed_exit_tac :=
  split; [reflexivity|];
  refine (ex_intro _ _ (ex_intro _ _ (ex_intro _ _ (conj _ (conj _ eq_refl)))));
  [nonempty | only_job_tac].

Section Exits.

Variable cfg : config.
Variable E : collaborators.
Variable job_id : string.

Lemma exits_after {A} r r1 (res : outcome A * run) :
  only_job job_id (jobs (run_db r)) (jobs (run_db r1)) ->
  exits job_id r1 res -> exits job_id r res.
Proof.
  intros H. destruct res as [[a|b|e] r']; cbn.
  - apply only_job_trans, H.
  - intros [Hb (d1 & now & msg & Hmsg & Hd1 & Hdb)]. split; [exact Hb|].
    exists d1, now, msg. split; [exact Hmsg|]. split; [|exact Hdb].
    eapply only_job_trans; eassumption.
  - apply only_job_trans, H.
Qed.

Lemma ends_after r r1 (res : outcome bool * run) :
  only_job job_id (jobs (run_db r)) (jobs (run_db r1)) ->
  ends job_id r1 res -> ends job_id r res.
Proof.
  intros H. destruct res as [[a|b|e] r']; cbn; [auto| |apply only_job_trans, H].
  destruct b.
  - intros (d1 & now & now' & n & Hd1 & Hdb). exists d1, now, now', n.
    split; [eapply only_job_trans; eassumption|exact Hdb].
  - intros (d1 & now & msg & Hmsg & Hd1 & Hdb). exists d1, now, msg.
    split; [exact Hmsg|]. split; [eapply only_job_trans; eassumption|exact Hdb].
Qed.

Lemma quiet_only_job r r' :
  quiet r r' -> only_job job_id (jobs (run_db r)) (jobs (run_db r')).
Proof. intros [Hj _]. rewrite Hj. apply only_job_refl. Qed.

Lemma save_client_data_exits client_name data_folder metadata l r :
  exits job_id r (save_client_data E job_id client_name data_folder metadata l r).
Proof.
  unfold save_client_data. run_all.
  destruct (metadata !! "inventory_json"); [destruct (save_json E _ _)|];
    run_all; try failed_exit_tac;
    (destruct (metadata !! "tools_json"); [destruct (save_json E _ _)|]);
    run_all; try failed_exit_tac.
  cbn [exits ends run_db]. only_job_tac.
Qed.

Lemma resolve_competitor_exits data_folder competitors i comp l r :
  exits job_id r (resolve_competitor cfg E job_id data_folder competitors i comp l r).
Proof.
  unfold resolve_competitor. run_all.
  destruct (cache_hit E i (Competitor.competitor_url comp) r) as [o r0] eqn:Hhit.
  destruct (quiet_cache_hit E _ _ _ _ _ Hhit) as (Hq0 & _ & Hret).
  apply quiet_only_job in Hq0.
  destruct o as [[[inv tools]|]|b|e]; run_all.
  - cbn [exits ends run_db]. only_job_tac.
  - destruct (scrape_attempts_run cfg E job_id data_folder i
                (Competitor.competitor_url comp) (Competitor.competitor_name comp)
                (Z.to_nat (scraper_max_retries cfg)) 1 r0)
      as (res & r1 & Hrun & Hq1 & _).
    rewrite Hrun. apply quiet_only_job in Hq1.
    assert (H01 : only_job job_id (jobs (run_db r)) (jobs (run_db r1)))
      by (eapply only_job_trans; eassumption).
    destruct res as [c|]; run_all.
    + cbn [exits ends run_db]. only_job_tac.
    + destruct (2 <=? failed_competitors l + 1); run_all.
      * set (r2 := mk_run _ _ _).
        destruct (abort_remaining_run E job_id (drop i competitors) [] r2)
          as (r3 & Hab & Hj3 & _ & _ & _).
        { intros c _ _ Hin. inversion Hin. }
        rewrite Hab. run_all. split; [reflexivity|].
        refine (ex_intro _ _ (ex_intro _ _ (ex_intro _ _ (conj _ (conj _ eq_refl)))));
          [nonempty|].
        rewrite Hj3. subst r2. cbn [run_db]. only_job_tac.
      * cbn [exits ends run_db]. only_job_tac.
  - exfalso. exact (Hret b eq_refl).
  - cbn [exits ends run_db]. exact Hq0.
Qed.

Lemma scrape_competitors_exits data_folder competitors todo :
  forall i l r,
  exits job_id r (scrape_competitors cfg E job_id data_folder competitors i todo l r).
Proof.
  induction todo as [|comp todo IH]; intros i l r.
  - cbn [scrape_competitors]. run_all. cbn [exits ends run_db]. apply only_job_refl.
  - cbn [scrape_competitors]. unfold bind.
    pose proof (resolve_competitor_exits data_folder competitors i comp l r) as Hone.
    destruct (resolve_competitor cfg E job_id data_folder competitors i comp l r)
      as [[l'|b|e] r']; [|exact Hone|exact Hone].
    eapply exits_after; [exact Hone|apply IH].
Qed.

Lemma run_analysis_exits data_folder client_inventory client_tools l r :
  exits job_id r (run_analysis E job_id data_folder client_inventory client_tools l r).
Proof.
  unfold run_analysis. run_all.
  destruct (_run_analysis E client_inventory client_tools (competitors_data l)); run_all.
  - failed_exit_tac.
  - cbn [exits ends run_db]. only_job_tac.
Qed.

Lemma send_email_exits client_email client_name analysis_output l r :
  exits job_id r (send_email cfg E job_id client_email client_name analysis_output l r).
Proof.
  unfold send_email. run_all.
  set (r1 := mk_run _ _ _).
  destruct (email_attempts_run cfg E client_email client_name analysis_output
              (Z.to_nat (email_max_retries cfg)) 1 r1) as (b & r2 & Hrun & Hq).
  rewrite Hrun. apply quiet_only_job in Hq. subst r1. cbn [run_db] in Hq.
  assert (H2 : only_job job_id (jobs (run_db r)) (jobs (run_db r2))).
  { eapply only_job_trans; [|exact Hq]. only_job_tac. }
  destruct b; run_all.
  - cbn [exits ends run_db]. only_job_tac.
  - failed_exit_tac.
Qed.

Lemma from_competitors_ends data_folder client_email client_name competitors
    client_inventory client_tools l r :
  ends job_id r
    (from_competitors cfg E job_id data_folder client_email client_name competitors
       client_inventory client_tools l r).
Proof.
  unfold from_competitors, email_then_finalize, finalize. run_all.
  match goal with
  | |- context [scrape_competitors cfg E job_id data_folder competitors ?i competitors l ?r0] =>
      pose proof (scrape_competitors_exits data_folder competitors competitors i l r0)
        as Hloop;
      destruct (scrape_competitors cfg E job_id data_folder competitors i competitors l r0)
        as [[l2|b|e] r2]
  end; cbn [exits run_db] in Hloop.
  - destruct (competitors_data l2) as [|c cd]; run_all.
    + cbn [exits ends run_db]. refine (ex_intro _ _ (ex_intro _ _ (ex_intro _ _ (conj _ (conj _ eq_refl)))));
        [discriminate|exact Hloop].
    + pose proof (run_analysis_exits data_folder client_inventory client_tools l2 r2) as Han.
      destruct (run_analysis E job_id data_folder client_inventory client_tools l2 r2)
        as [[analysed|b|e] r3]; run_all; cbn [exits] in Han.
      * pose proof (send_email_exits client_email client_name (fst analysed)
                      (snd analysed) r3) as Hem.
        destruct (send_email cfg E job_id client_email client_name (fst analysed)
                    (snd analysed) r3) as [[l4|b|e] r4]; run_all; cbn [exits] in Hem.
        -- cbn [exits ends run_db]. eexists _, _, _, _. split; [|reflexivity].
           eapply only_job_trans; [exact Hloop|].
           eapply only_job_trans; [exact Han|exact Hem].
        -- destruct Hem as [-> Hem].
           apply (ends_after r r3 (Return false, r4));
             [eapply only_job_trans; eassumption|exact Hem].
        -- cbn [exits ends run_db]. eapply only_job_trans; [exact Hloop|].
           eapply only_job_trans; [exact Han|exact Hem].
      * destruct Han as [-> Han].
        apply (ends_after r r2 (Return false, r3)); [exact Hloop|exact Han].
      * cbn [exits ends run_db]. eapply only_job_trans; eassumption.
  - destruct Hloop as [-> Hloop]. cbn [exits ends run_db]. exact Hloop.
  - cbn [exits ends run_db]. exact Hloop.
Qed.

Lemma process_job_body_ends r j :
  select_job job_id (run_db r) = Some j ->
  ends job_id r (process_job_body cfg E job_id r).
Proof.
  intros Hj. unfold process_job_body, get_job. run_all. rewrite Hj. run_all.
  set (d := run_db r) in *.
  set (r1 := mk_run (update_status _ _ _ _ _ _) _ _).
  assert (H1 : only_job job_id (jobs d) (jobs (run_db r1))).
  { subst r1. cbn [run_db]. only_job_tac. }
  clearbody r1.
  assert (Hphases : forall data_folder,
    ends job_id r
      (let (o, r') :=
         save_client_data E job_id (Job.client_name j) data_folder
           (convert_legacy (Job.metadata j)) (mk_locals 0 0 []) r1 in
       match o with
       | Ok saved =>
           (let '(client_inventory, client_tools, l1) := saved in
            from_competitors cfg E job_id data_folder (Job.client_email j)
              (Job.client_name j) (select_competitors job_id d)
              client_inventory client_tools l1) r'
       | Return b => (Return b, r')
       | Raise e => (Raise e, r')
       end)).
  { intros data_folder.
    pose proof (save_client_data_exits (Job.client_name j) data_folder
                  (convert_legacy (Job.metadata j)) (mk_locals 0 0 []) r1) as Hsave.
    destruct (save_client_data E job_id (Job.client_name j) data_folder
                (convert_legacy (Job.metadata j)) (mk_locals 0 0 []) r1)
      as [[[[ci ct] l1]|b|e] r2]; cbn [exits] in Hsave.
    - eapply ends_after; [eapply only_job_trans; [exact H1|exact Hsave]|].
      apply from_competitors_ends.
    - destruct Hsave as [-> Hsave].
      apply (ends_after _ r1 (Return false, r2)); [exact H1|exact Hsave].
    - cbn [ends]. eapply only_job_trans; eassumption. }
  destruct (truthy (Job.data_folder j)); [apply Hphases|].
  destruct (makedirs E _); [|apply Hphases].
  cbn [ends]. exact H1.
Qed.

Lemma failed_exit_row r r' j :
  select_job job_id (run_db r) = Some j ->
  failed_exit job_id r r' ->
  exists j' t msg,
    select_job job_id (run_db r') = Some j'
    /\ Job.status j' = "failed"
    /\ Job.completed_at j' = Some t
    /\ Job.error_message j' = Some msg /\ msg <> "".
Proof.
  intros Hj (d1 & now & msg & Hmsg & Hd1 & ->).
  destruct (only_job_present _ _ _ _ Hd1 Hj) as [j1 Hj1].
  rewrite select_job_update_status. unfold select_job. rewrite Hj1.
  eexists _, now, msg. split; [reflexivity|]. cbn.
  destruct (String.eqb_spec msg ""); [contradiction|]. cbn. auto.
Qed.

Lemma completed_exit_row r r' j :
  select_job job_id (run_db r) = Some j ->
  completed_exit job_id r r' ->
  exists j' t,
    select_job job_id (run_db r') = Some j'
    /\ Job.status j' = "completed"
    /\ Job.completed_at j' = Some t.
Proof.
  intros Hj (d1 & now & now' & n & Hd1 & ->).
  destruct (only_job_present _ _ _ _ Hd1 Hj) as [j1 Hj1].
  rewrite select_job_update_progress, select_job_update_status.
  unfold select_job. rewrite Hj1.
  eexists _, now. split; [reflexivity|]. cbn. auto.
Qed.

Lemma failed_exit_only_job r r' :
  failed_exit job_id r r' -> only_job job_id (jobs (run_db r)) (jobs (run_db r')).
Proof. intros (d1 & now & msg & _ & Hd1 & ->). only_job_tac. Qed.

Lemma completed_exit_only_job r r' :
  completed_exit job_id r r' -> only_job job_id (jobs (run_db r)) (jobs (run_db r')).
Proof. intros (d1 & now & now' & n & Hd1 & ->). only_job_tac. Qed.

End Exits.

(** [process_job] always leaves the job in a terminal state.  If no
    row has the job id, it returns False after its one query, with the
    database as it was.  Otherwise the job row is still there afterwards
    with [completed_at] set, and its status is 'completed' exactly when
    the call returned True; when it returned False the status is 'failed'
    and [error_message] holds a non-empty text.  The status is therefore
    never left 'queued' or 'processing', whatever the file system, the
    scraper, the analysis and the mail service do.  The row of every other
    job reads back as before the call. *)
Theorem process_job_terminal cfg E job_id d n :
  let result := process_job cfg E job_id (mk_run d n []) in
  (forall other, other <> job_id ->
     select_job other (run_db (snd result)) = select_job other d)
  /\ match select_job job_id d with
     | None => result = (false, mk_run d (S n) [])
     | Some _ =>
         exists j' t,
           select_job job_id (run_db (snd result)) = Some j'
           /\ Job.completed_at j' = Some t
           /\ if fst result
              then Job.status j' = "completed"
              else Job.status j' = "failed"
                   /\ exists msg, Job.error_message j' = Some msg /\ msg <> ""
     end.
Proof.
  cbn zeta. destruct (select_job job_id d) as [j|] eqn:Hj.
  - pose proof (process_job_body_ends cfg E job_id (mk_run d n []) j Hj) as Hbody.
    unfold process_job.
    destruct (process_job_body cfg E job_id (mk_run d n [])) as [[b|b|e] r'];
      cbn [ends] in Hbody; [contradiction| |].
    + cbn [fst snd]. destruct b.
      * split.
        -- intros other Hne. apply only_job_other with (job_id := job_id); [|exact Hne].
           exact (completed_exit_only_job job_id _ _ Hbody).
        -- destruct (completed_exit_row job_id (mk_run d n []) r' j Hj Hbody)
             as (j' & t & Hj' & Hst & Hat).
           exists j', t. auto.
      * split.
        -- intros other Hne. apply only_job_other with (job_id := job_id); [|exact Hne].
           exact (failed_exit_only_job job_id _ _ Hbody).
        -- destruct (failed_exit_row job_id (mk_run d n []) r' j Hj Hbody)
             as (j' & t & msg & Hj' & Hst & Hat & Hmsg & Hne).
           exists j', t. split; [exact Hj'|]. split; [exact Hat|].
           split; [exact Hst|]. exists msg. split; assumption.
    + run_all. cbn [fst snd run_db].
      assert (Hexit : failed_exit job_id (mk_run d n [])
                (mk_run (update_status (current_timestamp E (statements r')) job_id "failed"
                           None (Some ("Unexpected error: " +:+ e)) (run_db r'))
                   0 [])).
      { refine (ex_intro _ _ (ex_intro _ _ (ex_intro _ _ (conj _ (conj _ eq_refl)))));
          [nonempty|exact Hbody]. }
      split.
      * intros other Hne. apply only_job_other with (job_id := job_id); [|exact Hne].
        exact (failed_exit_only_job job_id _ _ Hexit).
      * destruct (failed_exit_row job_id (mk_run d n []) _ j Hj Hexit)
          as (j' & t & msg & Hj' & Hst & Hat & Hmsg & Hne).
        exists j', t. split; [exact Hj'|]. split; [exact Hat|].
           split; [exact Hst|]. exists msg. split; assumption.
  - unfold process_job, process_job_body, get_job. run_all. rewrite Hj. run_all.
    split; [reflexivity|reflexivity].
Qed.

(** ** No completion without mail *)

Section Mail.

Variable cfg : config.
Variable E : collaborators.
Variable job_id : string.

Lemma email_attempts_true client_email client_name analysis_output remaining :
  forall attempt r r',
  email_attempts cfg E client_email client_name analysis_output remaining attempt r
  = (Ok true, r') ->
  exists a message,
    attempt <= a < attempt + Z.of_nat remaining
    /\ send_single_email E a client_email
         ("Market Analysis Report for " +:+ client_name) message = true.
Proof.
  induction remaining as [|remaining IH]; intros attempt r r'.
  - cbn [email_attempts]. run_all. discriminate.
  - cbn [email_attempts]. run_all. unfold _send_email.
    destruct (read_file E attempt analysis_output) as [e|text] eqn:Hread.
    + destruct (attempt <? email_max_retries cfg); run_all; intros Hrun;
        destruct (IH _ _ _ Hrun) as (a & m & Ha & Hm);
        exists a, m; (split; [lia|exact Hm]).
    + destruct (send_single_email E attempt client_email _ text) eqn:Hsent.
      * run_all. intros _. exists attempt, text. split; [lia|exact Hsent].
      * destruct (attempt <? email_max_retries cfg); run_all; intros Hrun;
          destruct (IH _ _ _ Hrun) as (a & m & Ha & Hm);
          exists a, m; (split; [lia|exact Hm]).
Qed.

Lemma send_email_ok client_email client_name analysis_output l r l' r' :
  send_email cfg E job_id client_email client_name analysis_output l r = (Ok l', r') ->
  mailed cfg E client_email client_name.
Proof.
  unfold send_email. run_all.
  set (r1 := mk_run _ _ _).
  destruct (email_attempts cfg E client_email client_name analysis_output
              (Z.to_nat (email_max_retries cfg)) 1 r1) as [[[|]|b|e] r2] eqn:Hrun;
    run_all; try discriminate.
  intros _. destruct (email_attempts_true _ _ _ _ _ _ _ Hrun) as (a & m & Ha & Hm).
  exists a, m. split; [lia|exact Hm].
Qed.

Lemma from_competitors_mailed data_folder client_email client_name competitors
    client_inventory client_tools l r r' :
  from_competitors cfg E job_id data_folder client_email client_name competitors
    client_inventory client_tools l r = (Return true, r') ->
  mailed cfg E client_email client_name.
Proof.
  unfold from_competitors, email_then_finalize, finalize. run_all.
  match goal with
  | |- context [scrape_competitors cfg E job_id data_folder competitors ?i competitors l ?r0] =>
      pose proof (scrape_competitors_exits cfg E job_id data_folder competitors
                    competitors i l r0) as Hloop;
      destruct (scrape_competitors cfg E job_id data_folder competitors i competitors l r0)
        as [[l2|b|e] r2]
  end; cbn [exits] in Hloop; [| |discriminate].
  - destruct (competitors_data l2) as [|c cd]; run_all; [discriminate|].
    pose proof (run_analysis_exits E job_id data_folder client_inventory client_tools
                  l2 r2) as Han.
    destruct (run_analysis E job_id data_folder client_inventory client_tools l2 r2)
      as [[analysed|b|e] r3]; run_all; cbn [exits] in Han; [| |discriminate].
    + pose proof (send_email_exits cfg E job_id client_email client_name (fst analysed)
                    (snd analysed) r3) as Hem.
      destruct (send_email cfg E job_id client_email client_name (fst analysed)
                  (snd analysed) r3) as [[l4|b|e] r4] eqn:Hsend;
        run_all; cbn [exits] in Hem; [| |discriminate].
      * intros _. exact (send_email_ok _ _ _ _ _ _ _ Hsend).
      * destruct Hem as [-> _]. discriminate.
    + destruct Han as [-> _]. discriminate.
  - destruct Hloop as [-> _]. discriminate.
Qed.

Lemma process_job_mailed r :
  fst (process_job cfg E job_id r) = true ->
  exists j, select_job job_id (run_db r) = Some j
            /\ mailed cfg E (Job.client_email j) (Job.client_name j).
Proof.
  unfold process_job.
  destruct (select_job job_id (run_db r)) as [j|] eqn:Hj.
  - pose proof (process_job_body_ends cfg E job_id r j Hj) as Hends.
    destruct (process_job_body cfg E job_id r) as [[b|b|e] r'] eqn:Hbody;
      cbn [ends fst] in *; [contradiction| |discriminate].
    intros ->. exists j. split; [reflexivity|].
    revert Hbody. unfold process_job_body, get_job. run_all. rewrite Hj. run_all.
    set (r1 := mk_run (update_status _ _ _ _ _ _) _ _). clearbody r1.
    assert (Hphases : forall data_folder,
      (let (o, r0) :=
         save_client_data E job_id (Job.client_name j) data_folder
           (convert_legacy (Job.metadata j)) (mk_locals 0 0 []) r1 in
       match o with
       | Ok saved =>
           (let '(client_inventory, client_tools, l1) := saved in
            from_competitors cfg E job_id data_folder (Job.client_email j)
              (Job.client_name j) (select_competitors job_id (run_db r))
              client_inventory client_tools l1) r0
       | Return b => (Return b, r0)
       | Raise e => (Raise e, r0)
       end) = (Return true, r') ->
      mailed cfg E (Job.client_email j) (Job.client_name j)).
    { intros data_folder.
      pose proof (save_client_data_exits E job_id (Job.client_name j) data_folder
                    (convert_legacy (Job.metadata j)) (mk_locals 0 0 []) r1) as Hsave.
      destruct (save_client_data E job_id (Job.client_name j) data_folder
                  (convert_legacy (Job.metadata j)) (mk_locals 0 0 []) r1)
        as [[[[ci ct] l1]|b|e] r2]; cbn [exits] in Hsave; [| |discriminate].
      - apply from_competitors_mailed.
      - destruct Hsave as [-> _]. discriminate. }
    destruct (truthy (Job.data_folder j)); [apply Hphases|].
    destruct (makedirs E _); [discriminate|apply Hphases].
  - unfold process_job_body, get_job. run_all. rewrite Hj. run_all. discriminate.
Qed.

End Mail.

(** A job is completed only if the report was mailed: when [process_job]
    returns True, the job row existed and, on some attempt within the
    retry budget, [send_single_email] returned True for the job's
    [client_email] with the subject 'Market Analysis Report for
    <client_name>'.  In particular no job completes with
    [email_max_retries] below 1. *)
Theorem completed_only_if_mailed cfg E job_id d n :
  fst (process_job cfg E job_id (mk_run d n [])) = true ->
  exists j attempt message,
    select_job job_id d = Some j
    /\ 1 <= attempt <= email_max_retries cfg
    /\ send_single_email E attempt (Job.client_email j)
         ("Market Analysis Report for " +:+ Job.client_name j) message = true.
Proof.
  intros Htrue.
  destruct (process_job_mailed cfg E job_id _ Htrue) as (j & Hj & a & m & Ha & Hm).
  exists j, a, m. auto.
Qed.

Lemma completed_only_if_mailed_witness :
  exists j attempt message,
    select_job "job_1" (Sample.submitted Sample.two_rivals Sample.payloads) = Some j
    /\ 1 <= attempt <= email_max_retries Sample.defaults
    /\ send_single_email Sample.smooth attempt (Job.client_email j)
         ("Market Analysis Report for " +:+ Job.client_name j) message = true.
Proof.
  apply (completed_only_if_mailed Sample.defaults Sample.smooth "job_1"
           (Sample.submitted Sample.two_rivals Sample.payloads) 0).
  vm_compute. reflexivity.
Defined.

Lemma truthy_some (s : option string) :
  truthy s = true -> exists v, s = Some v /\ v <> "".
Proof.
  destruct s as [v|]; [|discriminate]. cbn. intros Hv. exists v. split; [reflexivity|].
  intros ->. discriminate.
Qed.

(** When the processor mails through [send_single_email] of the
    notification module, a job is completed only if Mailgun answered 200:
    [process_job] returns True only when the three settings
    MAILGUN_API_URL, FROM_EMAIL_ADDRESS and MAILGUN_API_KEY are set and
    non-empty and, on some attempt within the retry budget, the POST to
    that url, with that key and sender, addressed to the job's
    [client_email] with the subject 'Market Analysis Report for
    <client_name>', came back with status 200.  With a setting missing,
    or a service that raises or answers any other status, every job
    ends 'failed'. *)
Theorem completed_only_if_accepted cfg E env post job_id d n :
  (forall attempt to_address subject message,
     send_single_email E attempt to_address subject message
     = Mailgun.send_single_email env (post attempt) to_address subject message) ->
  fst (process_job cfg E job_id (mk_run d n [])) = true ->
  exists j attempt message url sender key,
    select_job job_id d = Some j
    /\ Mailgun.MAILGUN_API_URL env = Some url /\ url <> ""
    /\ Mailgun.FROM_EMAIL_ADDRESS env = Some sender /\ sender <> ""
    /\ Mailgun.MAILGUN_API_KEY env = Some key /\ key <> ""
    /\ 1 <= attempt <= email_max_retries cfg
    /\ post attempt
         (Mailgun.mk_request url key sender (Job.client_email j)
            ("Market Analysis Report for " +:+ Job.client_name j) message)
       = inr 200.
Proof.
  intros Hmail Htrue.
  destruct (process_job_mailed cfg E job_id _ Htrue) as (j & Hj & a & m & Ha & Hm).
  rewrite Hmail in Hm. unfold Mailgun.send_single_email in Hm.
  destruct (truthy (Mailgun.MAILGUN_API_URL env)) eqn:Hurl; [|discriminate].
  destruct (truthy (Mailgun.FROM_EMAIL_ADDRESS env)) eqn:Hfrom; [|discriminate].
  destruct (truthy (Mailgun.MAILGUN_API_KEY env)) eqn:Hkey; [|discriminate].
  cbn [negb orb] in Hm.
  destruct (truthy_some _ Hurl) as (url & Hu & Hune).
  destruct (truthy_some _ Hfrom) as (sender & Hs & Hsne).
  destruct (truthy_some _ Hkey) as (key & Hk & Hkne).
  rewrite Hu, Hs, Hk in Hm. cbn [default] in Hm.
  destruct (post a _) as [e|status] eqn:Hpost; [discriminate|].
  apply Z.eqb_eq in Hm. subst status.
  exists j, a, m, url, sender, key. cbn [run_db] in Hj. auto 10.
Qed.

Lemma completed_only_if_accepted_witness :
  exists j attempt message url sender key,
    select_job "job_1" (Sample.submitted Sample.two_rivals Sample.payloads) = Some j
    /\ Mailgun.MAILGUN_API_URL Desk.configured = Some url /\ url <> ""
    /\ Mailgun.FROM_EMAIL_ADDRESS Desk.configured = Some sender /\ sender <> ""
    /\ Mailgun.MAILGUN_API_KEY Desk.configured = Some key /\ key <> ""
    /\ 1 <= attempt <= email_max_retries Sample.defaults
    /\ Desk.accepting attempt
         (Mailgun.mk_request url key sender (Job.client_email j)
            ("Market Analysis Report for " +:+ Job.client_name j) message)
       = inr 200.
Proof.
  apply (completed_only_if_accepted Sample.defaults Desk.through_mailgun Desk.configured
           Desk.accepting "job_1" (Sample.submitted Sample.two_rivals Sample.payloads) 0).
  - intros attempt to_address subject message. reflexivity.
  - vm_compute. reflexivity.
Defined.

(** ** Submitting *)

Lemma create_job_row now job_id client_name client_email competitor_urls data_folder
    metadata d d' :
  create_job now job_id client_name client_email competitor_urls data_folder metadata d
  = Some d' ->
  select_job job_id d = None
  /\ select_job job_id d'
     = Some (Job.mk job_id client_name client_email "queued" (Some 0) None
               (2 + Z.of_nat (length competitor_urls) + 2) 0 None now now None None
               (Some data_folder) metadata)
  /\ jobs d' = jobs d ++ [Job.mk job_id client_name client_email "queued" (Some 0) None
                            (2 + Z.of_nat (length competitor_urls) + 2) 0 None now now
                            None None (Some data_folder) metadata]
  /\ scraped_sites d' = scraped_sites d.
Proof.
  unfold create_job. destruct (select_job job_id d) eqn:Hsel; [discriminate|].
  destruct (insert_competitors job_id competitor_urls (job_competitors_id_seq d)
              (job_competitors d)) as [cs seq].
  intros [= <-]. split; [reflexivity|]. unfold select_job in *. cbn [jobs scraped_sites].
  rewrite (find_app_none _ _ _ Hsel). cbn [List.find Job.job_id].
  rewrite String.eqb_refl. auto.
Qed.

(** A job created by [submit_job] from metadata that holds neither
    'inventory_json' nor 'csv1_json' (in particular from the default, no
    metadata) cannot be processed: [submit_job] stores the two csv paths
    under 'inventory_csv' and 'tools_csv', while [process_job] reads the
    payload from 'inventory_json'.  [process_job] returns False in the
    first phase; the job ends 'failed' with the message 'Inventory data
    error: ...' and no step completed; no competitor row and no cache row
    is touched, and nothing is scraped, analysed or mailed. *)
Theorem submitted_without_payload_fails cfg E s client_name client_email inventory_csv_path
    tools_csv_path competitor_urls metadata d job_id d' n :
  submit_job s client_name client_email inventory_csv_path tools_csv_path competitor_urls
    metadata d = inr (job_id, d') ->
  default ∅ metadata !! "inventory_json" = None ->
  default ∅ metadata !! "csv1_json" = None ->
  let result := process_job cfg E job_id (mk_run d' n []) in
  fst result = false
  /\ (exists j j',
        select_job job_id d' = Some j
        /\ Job.status j = "queued"
        /\ Job.metadata j !! "inventory_csv" = Some inventory_csv_path
        /\ Job.metadata j !! "tools_csv" = Some tools_csv_path
        /\ select_job job_id (run_db (snd result)) = Some j'
        /\ Job.status j' = "failed"
        /\ Job.error_message j'
           = Some ("Inventory data error: "
                   +:+ key_error E "inventory_json" (map_to_list (Job.metadata j)).*1)
        /\ Job.completed_steps j' = 0)
  /\ job_competitors (run_db (snd result)) = job_competitors d'
  /\ scraped_sites (run_db (snd result)) = scraped_sites d'
  /\ (forall e, e ∈ trace (snd result) ->
        e = Step SavingClientData \/ exists row, e = JobRow row).
Proof.
  unfold submit_job. intros Hsubmit Hinv Hcsv.
  destruct (mkdir s _); [discriminate|].
  set (full := <["submitted_at" := now_isoformat s]> _) in Hsubmit.
  destruct (create_job _ _ _ _ _ _ full d) as [d1|] eqn:Hcreate; [|discriminate].
  injection Hsubmit as <- <-.
  set (job_id := "job_" +:+ _) in *.
  destruct (create_job_row _ _ _ _ _ _ _ _ _ Hcreate) as (_ & Hrow & _ & _).
  assert (Hfull_inv : full !! "inventory_json" = None).
  { subst full. rewrite !lookup_insert_ne by discriminate. exact Hinv. }
  assert (Hfull_csv : full !! "csv1_json" = None).
  { subst full. rewrite !lookup_insert_ne by discriminate. exact Hcsv. }
  assert (Hlegacy : convert_legacy full = full).
  { unfold convert_legacy. rewrite Hfull_inv, Hfull_csv. reflexivity. }
  cbn zeta. unfold process_job, process_job_body, get_job. run_all.
  rewrite Hrow. run_all. cbn [Job.data_folder Job.metadata Job.client_name Job.client_email].
  assert (Hfolder : truthy (Some ("data/jobs/" +:+ job_id)) = true) by reflexivity.
  rewrite Hfolder. run_all. unfold save_client_data. run_all.
  rewrite Hlegacy, Hfull_inv. run_all. cbn [fst snd run_db trace].
  split; [reflexivity|]. split; [|split; [reflexivity|split; [reflexivity|]]].
  - eexists _, _. split; [reflexivity|]. split; [reflexivity|].
    cbn [Job.metadata]. split.
    { subst full. rewrite lookup_insert_ne by discriminate.
      rewrite lookup_insert_ne by discriminate. apply lookup_insert_eq. }
    split.
    { subst full. rewrite lookup_insert_ne by discriminate. apply lookup_insert_eq. }
    rewrite !select_job_update_status, Hrow. cbn [fmap option_fmap option_map].
    split; [reflexivity|]. cbn. auto.
  - intros e He. apply list_elem_of_In in He. rewrite <- !List.app_assoc in He.
    cbn [List.app List.In] in He.
    destruct He as [<-|[<-|[<-|[<-|[]]]]]; eauto.
Qed.

Lemma submitted_without_payload_fails_witness :
  exists d',
    submit_job Desk.ticket "Acme Motors" "owner@acme.test" "inventory.csv" "tools.csv"
      Sample.two_rivals None Sample.empty_db
    = inr ("job_0123456789ab_1700000000", d')
    /\ fst (process_job Sample.defaults Desk.through_mailgun "job_0123456789ab_1700000000"
              (mk_run d' 0 []))
       = false.
Proof.
  eexists. split.
  - vm_compute. reflexivity.
  - refine (proj1 (submitted_without_payload_fails Sample.defaults Desk.through_mailgun
                     Desk.ticket "Acme Motors" "owner@acme.test" "inventory.csv"
                     "tools.csv" Sample.two_rivals None Sample.empty_db
                     "job_0123456789ab_1700000000" _ 0 _ _ _)).
    + vm_compute. reflexivity.
    + reflexivity.
    + reflexivity.
Defined.

(** ** The worker's queue *)

Lemma queue_filter_old cutoff l :
  List.filter (fun r => String.eqb (Job.status r) "queued")
    (List.filter (fun r => negb (old_job cutoff r)) l)
  = List.filter (fun r => String.eqb (Job.status r) "queued") l.
Proof.
  induction l as [|x l IH]; cbn [List.filter]; [reflexivity|].
  destruct (old_job cutoff x) eqn:Hold; cbn [negb List.filter].
  - unfold old_job in Hold. apply andb_true_iff in Hold as [_ Hterm].
    destruct (String.eqb_spec (Job.status x) "queued") as [Hq|Hq]; [|exact IH].
    rewrite Hq in Hterm. discriminate Hterm.
  - rewrite IH. reflexivity.
Qed.

Lemma queue_cleanup_old_jobs retention_days py_now d :
  queue (snd (cleanup_old_jobs retention_days py_now d)) = queue d.
Proof.
  unfold cleanup_old_jobs.
  destruct (List.map _ (List.filter _ (jobs d))); [reflexivity|].
  unfold queue. cbn [snd jobs]. apply queue_filter_old.
Qed.

Lemma queue_run_cleanup rmtree_raises retention_days jobs_only py_now now w :
  queue (db (snd (run_cleanup rmtree_raises retention_days false false jobs_only
                    py_now now w)))
  = queue (db w).
Proof.
  unfold queue at 1. rewrite run_cleanup_jobs_left. apply queue_cleanup_old_jobs.
Qed.

Lemma daily_cleanup_queue wcfg p w :
  queue (worker_db (snd (daily_cleanup wcfg p w))) = queue (worker_db w).
Proof.
  unfold daily_cleanup. destruct (_ <=? _); [|reflexivity].
  pose proof (queue_run_cleanup (rmtree_raises p) (cleanup_retention_days wcfg) false
                (cleanup_py_now p) (cleanup_timestamp p)
                (mk_world (worker_db w) (disk p))) as Hq.
  destruct (run_cleanup _ _ _ _ _ _ _ _) as [out w1]. exact Hq.
Qed.

Lemma daily_cleanup_events wcfg p w :
  (exists out, DailyCleanup out ∈ fst (daily_cleanup wcfg p w))
  <-> timedelta_hours 24 <= checked_at p - last_cleanup_time w.
Proof.
  unfold daily_cleanup.
  destruct (Z.leb_spec (timedelta_hours 24) (checked_at p - last_cleanup_time w)).
  - destruct (run_cleanup _ _ _ _ _ _ _ _) as [out w1]. cbn [fst]. split; [auto|].
    intros _. exists out. apply list_elem_of_In. left. reflexivity.
  - cbn [fst]. split; [|lia]. intros [out Hin]. inversion Hin.
Qed.

Lemma daily_cleanup_found wcfg p w : found (fst (daily_cleanup wcfg p w)) = [].
Proof.
  unfold daily_cleanup. destruct (_ <=? _); [|reflexivity].
  destruct (run_cleanup _ _ _ _ _ _ _ _) as [out w1]. reflexivity.
Qed.

Lemma only_job_queue job_id l l1 :
  only_job job_id l l1 ->
  (forall b, b ∈ l1 -> Job.job_id b = job_id -> Job.status b <> "queued") ->
  List.filter (fun r => String.eqb (Job.status r) "queued") l1
  = List.filter (fun r => negb (String.eqb (Job.job_id r) job_id))
      (List.filter (fun r => String.eqb (Job.status r) "queued") l).
Proof.
  induction 1 as [|a b l l1 [Hid Hsame] _ IH]; intros Hdone; [reflexivity|].
  assert (IH' := IH (fun b' Hb' => Hdone b' (proj2 (elem_of_cons _ _ _) (or_intror Hb')))).
  cbn [List.filter].
  destruct (String.eqb_spec (Job.job_id a) job_id) as [Ha|Ha].
  - assert (Hb : Job.status b <> "queued")
      by (apply Hdone; [apply elem_of_cons; left; reflexivity|congruence]).
    apply String.eqb_neq in Hb. rewrite Hb.
    destruct (String.eqb (Job.status a) "queued"); [|exact IH'].
    cbn [List.filter]. apply String.eqb_eq in Ha. rewrite Ha. cbn [negb]. exact IH'.
  - rewrite (Hsame Ha).
    destruct (String.eqb (Job.status a) "queued"); [|exact IH'].
    cbn [List.filter]. apply String.eqb_neq in Ha. rewrite Ha. cbn [negb].
    rewrite IH'. reflexivity.
Qed.

Lemma failed_exit_status job_id r r' b :
  failed_exit job_id r r' -> b ∈ jobs (run_db r') -> Job.job_id b = job_id ->
  Job.status b = "failed".
Proof.
  intros (d1 & now & msg & _ & _ & ->) Hb Hid.
  apply list_elem_of_In in Hb. unfold update_status in Hb. cbn [jobs with_jobs] in Hb.
  apply List.in_map_iff in Hb as (a & <- & _).
  destruct (String.eqb_spec (Job.job_id a) job_id) as [Ha|Ha]; [reflexivity|contradiction].
Qed.

Lemma completed_exit_status job_id r r' b :
  completed_exit job_id r r' -> b ∈ jobs (run_db r') -> Job.job_id b = job_id ->
  Job.status b = "completed".
Proof.
  intros (d1 & now & now' & n & _ & ->) Hb Hid.
  apply list_elem_of_In in Hb. unfold update_progress, update_status in Hb.
  cbn [jobs with_jobs] in Hb.
  apply List.in_map_iff in Hb as (a' & <- & Ha').
  apply List.in_map_iff in Ha' as (a & <- & _).
  destruct (String.eqb_spec (Job.job_id a) job_id) as [Ha|Ha].
  - cbn [Job.job_id set_status] in *. apply String.eqb_eq in Ha. rewrite Ha. reflexivity.
  - apply String.eqb_neq in Ha. rewrite Ha in *. apply String.eqb_neq in Ha. contradiction.
Qed.

(** How [process_job] leaves a job that is stored. *)
Lemma process_job_exit cfg E job_id r j :
  select_job job_id (run_db r) = Some j ->
  if fst (process_job cfg E job_id r)
  then completed_exit job_id r (snd (process_job cfg E job_id r))
  else failed_exit job_id r (snd (process_job cfg E job_id r)).
Proof.
  intros Hj. pose proof (process_job_body_ends cfg E job_id r j Hj) as Hbody.
  unfold process_job.
  destruct (process_job_body cfg E job_id r) as [[b|b|e] r'];
    cbn [ends] in Hbody; [contradiction| |].
  - cbn [fst snd]. exact Hbody.
  - run_all. cbn [fst snd].
    refine (ex_intro _ _ (ex_intro _ _ (ex_intro _ _ (conj _ (conj _ eq_refl)))));
      [nonempty|exact Hbody].
Qed.

Lemma filter_all {A} (f : A -> bool) (l : list A) :
  (forall x, List.In x l -> f x = true) -> List.filter f l = l.
Proof.
  induction l as [|x l IH]; intros Hall; cbn; [reflexivity|].
  rewrite (Hall x (or_introl eq_refl)), IH; [reflexivity|].
  intros y Hy. apply Hall. right. exact Hy.
Qed.

(** [process_job] takes the rows of its job, and only those, out of the
    queue. *)
Lemma process_job_queue cfg E job_id r :
  queue (run_db (snd (process_job cfg E job_id r)))
  = List.filter (fun x => negb (String.eqb (Job.job_id x) job_id)) (queue (run_db r)).
Proof.
  destruct (select_job job_id (run_db r)) as [j|] eqn:Hj.
  - pose proof (process_job_exit cfg E job_id r j Hj) as Hexit.
    destruct (fst (process_job cfg E job_id r)).
    + apply only_job_queue; [exact (completed_exit_only_job job_id _ _ Hexit)|].
      intros b Hb Hid. rewrite (completed_exit_status _ _ _ _ Hexit Hb Hid). discriminate.
    + apply only_job_queue; [exact (failed_exit_only_job job_id _ _ Hexit)|].
      intros b Hb Hid. rewrite (failed_exit_status _ _ _ _ Hexit Hb Hid). discriminate.
  - unfold process_job, process_job_body, get_job. run_all. rewrite Hj. run_all.
    cbn [snd run_db]. symmetry. apply filter_all. intros x Hx.
    unfold queue in Hx. apply List.filter_In in Hx as [Hx _].
    unfold select_job in Hj. rewrite (List.find_none _ _ Hj x Hx). reflexivity.
Qed.

Lemma process_job_rows cfg E job_id r j b :
  select_job job_id (run_db r) = Some j ->
  b ∈ jobs (run_db (snd (process_job cfg E job_id r))) ->
  Job.job_id b = job_id ->
  Job.status b = if fst (process_job cfg E job_id r) then "completed" else "failed".
Proof.
  intros Hj Hb Hid. pose proof (process_job_exit cfg E job_id r j Hj) as Hexit.
  destruct (fst (process_job cfg E job_id r)).
  - exact (completed_exit_status _ _ _ _ Hexit Hb Hid).
  - exact (failed_exit_status _ _ _ _ Hexit Hb Hid).
Qed.

Lemma get_queued_jobs_nil d : get_queued_jobs 1 d = [] <-> queue d = [].
Proof.
  unfold get_queued_jobs. fold (queue d).
  destruct (sort_by_created (queue d) [] (SSorted_nil _)) as [_ Hp].
  rewrite List.app_nil_r in Hp.
  destruct (List.fold_left _ (queue d) []) as [|x sorted].
  - split; [|reflexivity]. intros _. apply Permutation_nil in Hp. exact Hp.
  - split; [discriminate|]. intros Hq. rewrite Hq in Hp. symmetry in Hp.
    apply Permutation_nil in Hp. discriminate.
Qed.

Lemma get_queued_jobs_first d job rest :
  get_queued_jobs 1 d = job :: rest ->
  rest = [] /\ job ∈ queue d
  /\ (forall q, q ∈ queue d -> Job.created_at job <= Job.created_at q).
Proof.
  unfold get_queued_jobs. fold (queue d).
  destruct (sort_by_created (queue d) [] (SSorted_nil _)) as [Hs Hp].
  rewrite List.app_nil_r in Hp.
  destruct (List.fold_left _ (queue d) []) as [|x sorted]; [discriminate|].
  cbn. intros [= <- <-]. split; [reflexivity|]. split.
  - rewrite <- Hp. apply elem_of_cons. left. reflexivity.
  - intros q Hq. rewrite <- Hp in Hq. apply elem_of_cons in Hq as [->|Hq]; [lia|].
    apply StronglySorted_inv in Hs as [_ Hx]. rewrite Forall_forall in Hx.
    exact (Hx q Hq).
Qed.

Lemma get_queued_jobs_queue limit d1 d :
  queue d1 = queue d -> get_queued_jobs limit d1 = get_queued_jobs limit d.
Proof. unfold get_queued_jobs. fold (queue d1) (queue d). intros ->. reflexivity. Qed.

Lemma select_job_present d x :
  x ∈ jobs d -> exists j, select_job (Job.job_id x) d = Some j.
Proof.
  intros Hx. unfold select_job.
  destruct (List.find _ (jobs d)) as [j|] eqn:Hfind; [eauto|].
  apply list_elem_of_In in Hx. pose proof (List.find_none _ _ Hfind x Hx) as Hno.
  cbn in Hno. rewrite String.eqb_refl in Hno. discriminate.
Qed.

Lemma queue_stored d x : x ∈ queue d -> x ∈ jobs d.
Proof.
  unfold queue. rewrite !list_elem_of_In, List.filter_In. tauto.
Qed.

Lemma without_nil l : without [] l = l.
Proof.
  unfold without. apply filter_all. intros x _.
  rewrite bool_decide_eq_false_2; [reflexivity|]. apply not_elem_of_nil.
Qed.

Lemma without_one job_id l :
  List.filter (fun x => negb (String.eqb (Job.job_id x) job_id)) l = without [job_id] l.
Proof.
  unfold without. induction l as [|x l IH]; cbn [List.filter]; [reflexivity|].
  rewrite IH. destruct (String.eqb_spec (Job.job_id x) job_id) as [Hx|Hx].
  - rewrite bool_decide_eq_true_2; [reflexivity|]. rewrite Hx. apply elem_of_cons. auto.
  - rewrite bool_decide_eq_false_2; [reflexivity|].
    intros Hin. apply elem_of_cons in Hin as [Hin|Hin]; [contradiction|inversion Hin].
Qed.

Lemma without_cons job_id ids l :
  without ids (without [job_id] l) = without (job_id :: ids) l.
Proof.
  unfold without. induction l as [|x l IH]; cbn [List.filter]; [reflexivity|].
  destruct (decide (Job.job_id x = job_id)) as [Hx|Hx].
  - rewrite bool_decide_eq_true_2 by (rewrite Hx; apply elem_of_cons; auto).
    cbn [negb]. rewrite IH.
    rewrite bool_decide_eq_true_2 by (rewrite Hx; apply elem_of_cons; auto).
    reflexivity.
  - rewrite bool_decide_eq_false_2
      by (intros Hin; apply elem_of_cons in Hin as [Hin|Hin];
          [contradiction|inversion Hin]).
    cbn [negb List.filter]. rewrite IH.
    destruct (decide (Job.job_id x ∈ ids)) as [Hids|Hids].
    + rewrite !bool_decide_eq_true_2; [reflexivity| |exact Hids].
      apply elem_of_cons. auto.
    + rewrite !bool_decide_eq_false_2; [reflexivity| |exact Hids].
      intros Hin. apply elem_of_cons in Hin as [Hin|Hin]; contradiction.
Qed.

Lemma without_elem ids l x :
  x ∈ without ids l <-> x ∈ l /\ Job.job_id x ∉ ids.
Proof.
  unfold without. split.
  - intros H. apply list_elem_of_In, List.filter_In in H as [Hx Hb].
    apply negb_true_iff, bool_decide_eq_false in Hb.
    split; [apply list_elem_of_In, Hx|exact Hb].
  - intros [Hx Hn]. apply list_elem_of_In, List.filter_In.
    split; [apply list_elem_of_In, Hx|]. apply negb_true_iff, bool_decide_eq_false, Hn.
Qed.

Lemma without_shorter x l :
  x ∈ l -> (length (without [Job.job_id x] l) < length l)%nat.
Proof.
  unfold without. induction l as [|y l IH]; intros Hx; [inversion Hx|].
  cbn [List.filter length].
  assert (Hle : (length (List.filter
                           (fun r => negb (bool_decide (Job.job_id r ∈ [Job.job_id x]))) l)
                 <= length l)%nat) by apply List.filter_length_le.
  apply elem_of_cons in Hx as [<-|Hx].
  - rewrite bool_decide_eq_true_2 by (apply elem_of_cons; auto). cbn [negb]. lia.
  - specialize (IH Hx). destruct (negb _); cbn [length]; lia.
Qed.

Lemma found_app ev evs : found (ev ++ evs) = found ev ++ found evs.
Proof. unfold found. apply omap_app. Qed.

(** One pass of the loop. *)
Lemma worker_pass_spec cfg wcfg p w :
  let res := worker_pass cfg wcfg p w in
  let d' := worker_db (snd res) in
  ((exists out, DailyCleanup out ∈ fst res)
   <-> timedelta_hours 24 <= checked_at p - last_cleanup_time w)
  /\ match get_queued_jobs 1 (worker_db w) with
     | [] =>
         queue (worker_db w) = []
         /\ queue d' = []
         /\ found (fst res) = []
         /\ PollSleep (poll_interval wcfg) ∈ fst res
     | job :: _ =>
         job ∈ queue (worker_db w)
         /\ (forall q, q ∈ queue (worker_db w) -> Job.created_at job <= Job.created_at q)
         /\ (exists success,
               found (fst res) = [(Job.job_id job, success)]
               /\ forall b, b ∈ jobs d' -> Job.job_id b = Job.job_id job ->
                    Job.status b = if success then "completed" else "failed")
         /\ queue d' = without [Job.job_id job] (queue (worker_db w))
         /\ forall seconds, PollSleep seconds ∉ fst res
     end.
Proof.
  cbn zeta. unfold worker_pass.
  pose proof (daily_cleanup_queue wcfg p w) as Hq.
  pose proof (daily_cleanup_events wcfg p w) as Hev.
  pose proof (daily_cleanup_found wcfg p w) as Hfound.
  assert (Hquiet : forall seconds, PollSleep seconds ∉ fst (daily_cleanup wcfg p w)).
  { intros seconds. unfold daily_cleanup. destruct (_ <=? _).
    - destruct (run_cleanup _ _ _ _ _ _ _ _) as [out w0]. cbn [fst]. intros Hin.
      apply elem_of_cons in Hin as [Hin|Hin]; [discriminate|inversion Hin].
    - cbn [fst]. intros Hin. inversion Hin. }
  destruct (daily_cleanup wcfg p w) as [ev w1]. cbn [fst snd] in *.
  rewrite (get_queued_jobs_queue 1 _ _ Hq).
  destruct (get_queued_jobs 1 (worker_db w)) as [|job rest] eqn:Hpick.
  - cbn [fst snd]. split.
    { rewrite <- Hev. split; intros [out Hin]; exists out.
      - apply elem_of_app in Hin as [Hin|Hin]; [exact Hin|].
        apply elem_of_cons in Hin as [Hin|Hin]; [discriminate|inversion Hin].
      - apply elem_of_app. auto. }
    apply get_queued_jobs_nil in Hpick.
    split; [exact Hpick|]. split; [rewrite Hq; exact Hpick|].
    split; [rewrite found_app, Hfound; reflexivity|].
    apply elem_of_app. right. apply elem_of_cons. auto.
  - destruct (get_queued_jobs_first _ _ _ Hpick) as (_ & Hin & Holdest).
    assert (Hstored : job ∈ jobs (worker_db w1))
      by (apply queue_stored; rewrite Hq; exact Hin).
    destruct (select_job_present _ _ Hstored) as [j Hj].
    pose proof (process_job_queue cfg (outside p) (Job.job_id job)
                  (mk_run (worker_db w1) 0 [])) as Hleft.
    pose proof (fun b => process_job_rows cfg (outside p) (Job.job_id job)
                           (mk_run (worker_db w1) 0 []) j b Hj) as Hrows.
    destruct (process_job cfg (outside p) (Job.job_id job) (mk_run (worker_db w1) 0 []))
      as [success r]. cbn [fst snd run_db worker_db] in *.
    split.
    { rewrite <- Hev. split; intros [out Hout]; exists out.
      - apply elem_of_app in Hout as [Hout|Hout]; [exact Hout|].
        apply elem_of_cons in Hout as [Hout|Hout]; [discriminate|inversion Hout].
      - apply elem_of_app. auto. }
    split; [exact Hin|]. split; [exact Holdest|]. split.
    { exists success. split; [rewrite found_app, Hfound; reflexivity|exact Hrows]. }
    split; [rewrite Hleft, Hq; apply without_one|].
    intros seconds Hsleep. apply elem_of_app in Hsleep as [Hsleep|Hsleep].
    + exact (Hquiet seconds Hsleep).
    + apply elem_of_cons in Hsleep as [Hsleep|Hsleep]; [discriminate|inversion Hsleep].
Qed.


(** The worker loop over any number of passes, with no other writer on
    the database: no job is picked twice; every job picked was queued at
    the start; the queue at the end is the queue at the start without the
    jobs picked, so a queued job stays queued, untouched, until its turn;
    and after at least as many passes as there were queued rows the queue
    is empty. *)
Theorem worker_drains_queue cfg wcfg ps :
  forall w,
  let res := worker_loop cfg wcfg ps w in
  let ids := (found (fst res)).*1 in
  NoDup ids
  /\ (forall id, id ∈ ids -> exists q, q ∈ queue (worker_db w) /\ Job.job_id q = id)
  /\ queue (worker_db (snd res)) = without ids (queue (worker_db w))
  /\ ((length (queue (worker_db w)) <= length ps)%nat ->
      queue (worker_db (snd res)) = []).
Proof.
  induction ps as [|p rest IH]; intros w; cbn zeta.
  - cbn [worker_loop fst snd found omap fmap list_fmap]. split; [apply NoDup_nil_2|].
    split; [intros id Hid; inversion Hid|]. split; [rewrite without_nil; reflexivity|].
    destruct (queue (worker_db w)); cbn [length]; [reflexivity|lia].
  - cbn [worker_loop].
    pose proof (worker_pass_spec cfg wcfg p w) as Hpass. cbn zeta in Hpass.
    destruct (worker_pass cfg wcfg p w) as [ev w1].
    specialize (IH w1). cbn zeta in IH.
    destruct (worker_loop cfg wcfg rest w1) as [evs w2].
    cbn [fst snd length] in *. rewrite found_app, fmap_app.
    destruct IH as (Hnd & Hwas & Hleft & Hempty).
    destruct Hpass as [_ Hpass].
    destruct (get_queued_jobs 1 (worker_db w)) as [|job others].
    + destruct Hpass as (Hq & Hq1 & Hnone & _). rewrite Hnone. cbn [fmap list_fmap List.app].
      rewrite Hq1 in *. rewrite Hq in *.
      split; [exact Hnd|]. split; [exact Hwas|]. split; [exact Hleft|].
      intros _. apply Hempty. cbn [length]. lia.
    + destruct Hpass as (Hin & _ & (success & Hone & _) & Hq1 & _).
      rewrite Hone. cbn [fmap list_fmap List.app fst].
      split.
      { apply NoDup_cons. split; [|exact Hnd]. intros Hagain.
        destruct (Hwas _ Hagain) as (q & Hq & Hid). rewrite Hq1 in Hq.
        apply without_elem in Hq as [_ Hq]. apply Hq. rewrite Hid.
        apply elem_of_cons. auto. }
      split.
      { intros id Hid. apply elem_of_cons in Hid as [->|Hid]; [eauto|].
        destruct (Hwas _ Hid) as (q & Hq & Hqid). rewrite Hq1 in Hq.
        apply without_elem in Hq as [Hq _]. eauto. }
      split; [rewrite Hleft, Hq1; apply without_cons|].
      intros Hlen. apply Hempty. rewrite Hq1.
      pose proof (without_shorter job _ Hin). lia.
Qed.

(** The first pass of [main] cleans up, unless the clock went backwards. *)
Lemma main_cleans_first cfg wcfg started_at p ps d :
  started_at <= checked_at p ->
  exists out events, fst (main cfg wcfg started_at (p :: ps) d) = DailyCleanup out :: events.
Proof.
  intros Hclock. unfold main. cbn [worker_loop]. unfold worker_pass, daily_cleanup.
  cbn [last_cleanup_time worker_db].
  assert (Hdue : (timedelta_hours 24 <=? checked_at p - (started_at - timedelta_days 1))
                 = true).
  { apply Z.leb_le. unfold timedelta_hours, timedelta_days. lia. }
  rewrite Hdue. destruct (run_cleanup _ _ _ _ _ _ _ _) as [out w1].
  destruct (get_queued_jobs 1 _) as [|job rest].
  - destruct (worker_loop _ _ _ _) as [evs w2]. cbn. eauto.
  - destruct (process_job _ _ _ _) as [success r].
    destruct (worker_loop _ _ _ _) as [evs w2]. cbn. eauto.
Qed.

(** ** No completion without analysis *)


Section Report.

Variable cfg : config.
Variable E : collaborators.
Variable job_id : string.
Variable data_folder : string.










End Report.

Section Payloads.

Variable cfg : config.
Variable E : collaborators.
Variable job_id : string.



End Payloads.


